(** * convertojpgxl: the adaptive JPEG XL transcoding engine

    A shallow embedding of [src/multimedia/image/convertojpgxl.py]
    ([copy_original], [run_cjxl_in_memory], [convert_via_pillow],
    [copy_metadata], [process_file]) and the properties of its quality
    search, strategy selection, output decision and conflict handling.

    Modelling conventions:
    - a [Path] is the list of its parts; the file system is a finite map
      from paths to file contents (directories are implicit, so
      [mkdir(parents=True, exist_ok=True)] only leaves an event);
    - the external collaborators (the [cjxl] and [exiftool] processes
      started through [subprocess.run], Pillow, [shutil.which], the
      terminal) are the fields of an environment [Env] threaded through an
      abstract [World];
    - Python exceptions are a result constructor; both [while True] loops
      take fuel and report [Diverge] when it runs out;
    - every effect is appended to a chronological [trace];
    - the text of diagnostic messages is kept structurally (the exception
      that was raised, the method label), the floating point percentage of
      the [[OK]]/[[FORCED]] lines is left out;
    - [str.lower()] is modelled on ASCII letters. *)

From Stdlib Require Import ZArith Lia Ascii String Sorted.
From Stdlib.Init Require Import Byte.
From stdpp Require Import base option list strings gmap pretty.

Local Open Scope Z_scope.

(** ** Paths (pathlib.PurePath, Python 3.10 to 3.13) *)

Abbreviation bytes := (list byte).
Abbreviation path := (list string).

Module Pathlib.

Fixpoint rfind_dot (s : string) : option nat :=
  match s with
  | EmptyString => None
  | String c r =>
      match rfind_dot r with
      | Some i => Some (S i)
      | None => if Ascii.eqb c "."%char then Some 0%nat else None
      end
  end.

Fixpoint str_take (n : nat) (s : string) : string :=
  match n, s with
  | S n', String c r => String c (str_take n' r)
  | _, _ => EmptyString
  end.

Fixpoint str_drop (n : nat) (s : string) : string :=
  match n, s with
  | S n', String _ r => str_drop n' r
  | _, _ => s
  end.

(** [PurePath.name]: the final part, or the empty string. *)
Definition name (p : path) : string := List.last p EmptyString.

(** [i = name.rfind('.'); name[i:] if 0 < i < len(name) - 1 else ''] *)
Definition str_suffix (nm : string) : string :=
  match rfind_dot nm with
  | Some i =>
      if ((0 <? i)%nat && (i <? String.length nm - 1)%nat)%bool
      then str_drop i nm else EmptyString
  | None => EmptyString
  end.

Definition suffix (p : path) : string := str_suffix (name p).

(** [name + suffix] without an old suffix, else
    [name[:-len(old_suffix)] + suffix]. *)
Definition str_with_suffix (nm sfx : string) : string :=
  let old := str_suffix nm in
  if String.eqb old EmptyString then nm +:+ sfx
  else str_take (String.length nm - String.length old) nm +:+ sfx.

(** [with_suffix] raises ValueError on an empty name ([None] here). *)
Definition with_suffix (p : path) (sfx : string) : option path :=
  if String.eqb (name p) EmptyString then None
  else Some (removelast p ++ [str_with_suffix (name p) sfx]).

(** [p.relative_to(root)]: ValueError ([None]) unless [root] is a
    prefix of [p]. *)
Fixpoint relative_to (p root : path) : option path :=
  match root, p with
  | [], _ => Some p
  | r :: root', x :: p' => if String.eqb r x then relative_to p' root' else None
  | _ :: _, [] => None
  end.

(** [root / rel] for a relative [rel]. *)
Definition joinpath (root rel : path) : path := root ++ rel.

(** [p.parent] *)
Definition parent (p : path) : path := removelast p.

(** [str(p)] *)
Definition str (p : path) : string := String.concat "/" p.

Definition ascii_lower (c : Ascii.ascii) : Ascii.ascii :=
  let n := Ascii.nat_of_ascii c in
  if ((65 <=? n)%nat && (n <=? 90)%nat)%bool
  then Ascii.ascii_of_nat (n + 32) else c.

Fixpoint lower (s : string) : string :=
  match s with
  | EmptyString => EmptyString
  | String c r => String (ascii_lower c) (lower r)
  end.

End Pathlib.

(** ** Configuration *)

Definition CJXL_THREADS : Z := 12.

Definition IMAGE_EXTS : list string :=
  [".jpg"; ".jpeg"; ".png"; ".bmp"; ".webp"; ".tiff"; ".tif";
   ".heic"; ".heif"; ".jfif"; ".pjpeg"; ".pjp"]%string.

Definition UNSUPPORTED_EXTS : list string :=
  [".svg"; ".gif"; ".ico"; ".psd"; ".pdf"]%string.

(** The [argparse] namespace, as far as [process_file] and its helpers
    read it. *)
Record Args := {
  force_jxl : bool;
  effort : Z;
  overwrite : bool;
  skip : bool;
  compress_hq : bool;
  compress_mq : bool;
  compress_lq : bool;
}.

(** ** Exceptions, labels, events *)

Inductive exn :=
| RuntimeError (msg : message)
| ValueError
| OSError
| PillowError
| ZeroDivisionError
with message :=
| PillowLibsMissing
| CjxlFailedOnPillowOutput (err : string)
| PillowFallbackFailed (e : exn)
| StandardCjxlFailed (err : string).

(** [conversion_method] / [final_method] *)
Inductive method :=
| Standard
| PillowHEIC (q : Z)
| JPEGTranscode
| JPEGReEncode (q : Z)
| DirectCJXL (q : Z)
| FallbackPillow (q : Z).

(** What [subprocess.run(..., capture_output=True)] hands back. *)
Record completed := {
  returncode : Z;
  stdout : bytes;
  stderr : string;
}.

(** The lines printed by the script. *)
Inductive log_line :=
| LogCopy (name reason : string)
| LogSkipExists (name : string)
| LogSkip (name : string)
| LogInfoTryingPillow (name : string)
| LogError (name : string) (e_primary e_fallback : exn)
| LogOk (name : string) (m : method)
| LogForced (name : string) (m : method).

Inductive event :=
| EPrint (l : log_line)
| EMkdir (p : path)
| EWrite (p : path) (data : bytes)
| ERun (cmd : list string) (stdin : option bytes) (r : option completed)
| EImageOpen (p : path) (ppm : option bytes)
| EWhich (tool : string) (found : bool)
| EInput (file_name : string) (answer : string)
| ECallPillow (input_file : path) (quality : Z)
| ECallMetadata (src_file dst_file : path)
| EAttempt (quality : Z).

(** ** The environment *)

Record Env := {
  World : Type;
  (** module level flag set by the guarded import of Pillow *)
  HAS_PILLOW : bool;
  (** [subprocess.run]; [None] when the call itself raises *)
  subprocess_run : list string -> option bytes -> World -> option completed * World;
  (** [Image.open] followed by [save(format="PPM")]; [None] when either raises *)
  pil_to_ppm : path -> World -> option bytes * World;
  (** [shutil.which] *)
  which : string -> World -> bool * World;
  (** [input(prompt).strip().lower()] *)
  read_answer : string -> World -> string * World;
}.

(** ** The program *)

Section Program.
Context (E : Env).

Record state := State {
  fs : gmap path bytes;
  world : World E;
  trace : list event;
}.

Inductive result (A : Type) :=
| Ok (a : A)
| Raise (e : exn)
| Diverge.
Global Arguments Ok {A} a.
Global Arguments Raise {A} e.
Global Arguments Diverge {A}.

(** State, exceptions and fuel in one monad. *)
Definition M (A : Type) : Type := state -> result A * state.

Definition ret {A} (a : A) : M A := fun st => (Ok a, st).

Definition bind {A B} (m : M A) (k : A -> M B) : M B :=
  fun st =>
    match m st with
    | (Ok a, st') => k a st'
    | (Raise e, st') => (Raise e, st')
    | (Diverge, st') => (Diverge, st')
    end.

Definition raise {A} (e : exn) : M A := fun st => (Raise e, st).

Definition diverge {A} : M A := fun st => (Diverge, st).

(** [try: m except Exception as e: h e] *)
Definition try_except {A} (m : M A) (h : exn -> M A) : M A :=
  fun st =>
    match m st with
    | (Raise e, st') => h e st'
    | r => r
    end.

Notation "x <- m ;; k" := (bind m (fun x => k))
  (at level 100, m at next level, k at level 200, right associativity).
Notation "m ;;; k" := (bind m (fun _ => k))
  (at level 100, k at level 200, right associativity).

Definition emit (e : event) : M unit :=
  fun st => (Ok tt, {| fs := fs st; world := world st; trace := trace st ++ [e] |}).

Definition print (l : log_line) : M unit := emit (EPrint l).

(** [p.exists()] *)
Definition path_exists (p : path) : M bool :=
  fun st => (Ok (bool_decide (is_Some (fs st !! p))), st).

(** [p.read_bytes()] *)
Definition read_bytes (p : path) : M bytes :=
  fun st =>
    match fs st !! p with
    | Some d => (Ok d, st)
    | None => (Raise OSError, st)
    end.

(** [p.stat().st_size] *)
Definition stat_size (p : path) : M Z :=
  d <- read_bytes p ;; ret (Z.of_nat (length d)).

(** [p.write_bytes(data)] *)
Definition write_bytes (p : path) (data : bytes) : M unit :=
  fun st => (Ok tt, {| fs := <[p := data]> (fs st); world := world st;
                       trace := trace st ++ [EWrite p data] |}).

(** [p.mkdir(parents=True, exist_ok=True)] *)
Definition mkdir (p : path) : M unit := emit (EMkdir p).

Definition run (cmd : list string) (stdin : option bytes) : M completed :=
  fun st =>
    let '(r, w) := subprocess_run E cmd stdin (world st) in
    (match r with Some c => Ok c | None => Raise OSError end,
     {| fs := fs st; world := w; trace := trace st ++ [ERun cmd stdin r] |}).

Definition image_to_ppm (p : path) : M bytes :=
  fun st =>
    let '(r, w) := pil_to_ppm E p (world st) in
    (match r with Some d => Ok d | None => Raise PillowError end,
     {| fs := fs st; world := w; trace := trace st ++ [EImageOpen p r] |}).

Definition shutil_which (tool : string) : M bool :=
  fun st =>
    let '(b, w) := which E tool (world st) in
    (Ok b, {| fs := fs st; world := w; trace := trace st ++ [EWhich tool b] |}).

Definition input_answer (file_name : string) : M string :=
  fun st =>
    let '(a, w) := read_answer E file_name (world st) in
    (Ok a, {| fs := fs st; world := w; trace := trace st ++ [EInput file_name a] |}).

Definition relative_to (p root : path) : M path :=
  match Pathlib.relative_to p root with
  | Some rel => ret rel
  | None => raise ValueError
  end.

Definition with_suffix (p : path) (sfx : string) : M path :=
  match Pathlib.with_suffix p sfx with
  | Some q => ret q
  | None => raise ValueError
  end.

(** [str(n)] for an integer *)
Definition str_int (n : Z) : string := pretty n.

(** Python truth value of a [bytes] object *)
Definition truthy (data : bytes) : bool :=
  match data with [] => false | _ :: _ => true end.

Definition copy_original (input_file src_root dst_root : path) (reason : string)
  : M unit :=
  rel <- relative_to input_file src_root ;;
  let out := Pathlib.joinpath dst_root rel in
  mkdir (Pathlib.parent out) ;;;
  present <- path_exists out ;;
  (if negb present
   then data <- read_bytes input_file ;; write_bytes out data
   else ret tt) ;;;
  print (LogCopy (Pathlib.name input_file) reason).

Definition run_cjxl_in_memory (cmd_list : list string) (args : Args)
    (stdin_data : option bytes) : M (Z * bytes * string) :=
  let cmd_list :=
    if bool_decide ("--num_threads"%string ∈ cmd_list) then cmd_list
    else take 1 cmd_list ++ ["--num_threads"%string; str_int CJXL_THREADS]
           ++ drop 1 cmd_list in
  let cmd_list := cmd_list ++ ["--effort"%string; str_int (effort args)] in
  result <- run cmd_list stdin_data ;;
  ret (returncode result, stdout result, stderr result).

Definition convert_via_pillow (input_file : path) (args : Args) (quality : Z)
  : M bytes :=
  emit (ECallPillow input_file quality) ;;;
  if negb (HAS_PILLOW E) then raise (RuntimeError PillowLibsMissing)
  else
    try_except
      (ppm_data <- image_to_ppm input_file ;;
       let cjxl_cmd := ["cjxl"; "-"; "-"; "--quality"; str_int quality;
                        "--lossless_jpeg=0"]%string in
       r <- run_cjxl_in_memory cjxl_cmd args (Some ppm_data) ;;
       let '(code, jxl_data, err) := r in
       if negb (code =? 0) then raise (RuntimeError (CjxlFailedOnPillowOutput err))
       else ret jxl_data)
      (fun e => raise (RuntimeError (PillowFallbackFailed e))).

Definition copy_metadata (src_file dst_file : path) : M unit :=
  emit (ECallMetadata src_file dst_file) ;;;
  found <- shutil_which "exiftool" ;;
  if found then
    run ["exiftool"; "-overwrite_original"; "-TagsFromFile"; Pathlib.str src_file;
         "-all:all"; "-ignoreMinorErrors"; Pathlib.str dst_file]%string None ;;;
    ret tt
  else ret tt.

(** *** [process_file] *)

(** Lines 143-162. [true]: go on; [false]: the file is skipped. *)
Fixpoint prompt_loop (fuel : nat) (input_name output_name : string) : M bool :=
  match fuel with
  | O => diverge
  | S fuel' =>
      user_input <- input_answer output_name ;;
      if String.eqb user_input "y" then ret true
      else if String.eqb user_input "n"
           then print (LogSkip input_name) ;;; ret false
           else prompt_loop fuel' input_name output_name
  end.

Definition conflict_resolution (fuel : nat) (input_file output_file : path)
    (args : Args) : M bool :=
  present <- path_exists output_file ;;
  if present then
    if skip args then
      print (LogSkipExists (Pathlib.name input_file)) ;;; ret false
    else if overwrite args then ret true
    else prompt_loop fuel (Pathlib.name input_file) (Pathlib.name output_file)
  else ret true.

Definition is_jpeg_ext (ext : string) : bool :=
  bool_decide (ext ∈ [".jpg"; ".jpeg"; ".jfif"; ".pjpeg"; ".pjp"]%string).

Definition is_heic_ext (ext : string) : bool :=
  bool_decide (ext ∈ [".heic"; ".heif"]%string).

(** Lines 170-179. *)
Definition min_quality (args : Args) : Z :=
  match compress_lq args, compress_mq args, compress_hq args with
  | true, _, _ => 75
  | _, true, _ => 80
  | _, _, true => 85
  | _, _, _ => 90
  end.

Definition reencode_cmd (input_file : path) (current_quality : Z) : list string :=
  ["cjxl"; Pathlib.str input_file; "-"; "--quality"; str_int current_quality;
   "--lossless_jpeg=0"]%string.

Definition transcode_cmd (input_file : path) : list string :=
  ["cjxl"; Pathlib.str input_file; "-"; "--lossless_jpeg=1"]%string.

(** Lines 190-254: the body of the outer [try]. *)
Definition primary_strategies (input_file : path) (args : Args)
    (is_heic is_jpeg : bool) (current_quality : Z) : M (bytes * method) :=
  if is_heic then
    jxl_data <- convert_via_pillow input_file args current_quality ;;
    ret (jxl_data, PillowHEIC current_quality)
  else if is_jpeg then
    if current_quality =? 90 then
      r <- run_cjxl_in_memory (transcode_cmd input_file) args None ;;
      let '(code, data, err) := r in
      if code =? 0 then ret (data, JPEGTranscode)
      else
        r <- run_cjxl_in_memory (reencode_cmd input_file current_quality) args None ;;
        let '(code, data, err) := r in
        if code =? 0 then ret (data, JPEGReEncode current_quality)
        else raise (RuntimeError (StandardCjxlFailed err))
    else
      r <- run_cjxl_in_memory (reencode_cmd input_file current_quality) args None ;;
      let '(code, data, err) := r in
      if code =? 0 then ret (data, JPEGReEncode current_quality)
      else raise (RuntimeError (StandardCjxlFailed err))
  else
    r <- run_cjxl_in_memory (reencode_cmd input_file current_quality) args None ;;
    let '(code, data, err) := r in
    if code =? 0 then ret (data, DirectCJXL current_quality)
    else raise (RuntimeError (StandardCjxlFailed err)).

(** Lines 257-265: the body of the inner [try]. *)
Definition universal_fallback (input_file : path) (args : Args)
    (current_quality : Z) : M (bytes * method) :=
  (if current_quality =? 90
   then print (LogInfoTryingPillow (Pathlib.name input_file))
   else ret tt) ;;;
  jxl_data <- convert_via_pillow input_file args current_quality ;;
  ret (jxl_data, FallbackPillow current_quality).

(** Lines 266-274: the handler of the inner [try]; it ends in [return]. *)
Definition hard_failure (input_file src_root dst_root : path) (args : Args)
    (e_primary e_fallback : exn) : M unit :=
  print (LogError (Pathlib.name input_file) e_primary e_fallback) ;;;
  if negb (force_jxl args)
  then copy_original input_file src_root dst_root "Conversion Failed"
  else ret tt.

(** Lines 186-274: one pass through both [try] blocks. [None] stands for
    the [return] of the hard failure. *)
Definition encode_attempt (input_file src_root dst_root : path) (args : Args)
    (is_heic is_jpeg : bool) (current_quality : Z) : M (option (bytes * method)) :=
  try_except
    (r <- primary_strategies input_file args is_heic is_jpeg current_quality ;;
     ret (Some r))
    (fun e_primary =>
       try_except
         (r <- universal_fallback input_file args current_quality ;; ret (Some r))
         (fun e_fallback =>
            hard_failure input_file src_root dst_root args e_primary e_fallback ;;;
            ret None)).

(** How the [while True] of lines 185-291 is left. *)
Inductive loop_exit :=
| Break (final_jxl_data : bytes) (final_method : method)
| Return.

(** Lines 185-291. [EAttempt] marks the start of an iteration. *)
Fixpoint quality_search (fuel : nat) (input_file src_root dst_root : path)
    (args : Args) (is_heic is_jpeg : bool) (src_size min_quality : Z)
    (current_quality : Z) : M loop_exit :=
  match fuel with
  | O => diverge
  | S fuel' =>
      emit (EAttempt current_quality) ;;;
      r <- encode_attempt input_file src_root dst_root args is_heic is_jpeg
             current_quality ;;
      match r with
      | None => ret Return
      | Some (jxl_data, conversion_method) =>
          if truthy jxl_data then
            let jxl_size := Z.of_nat (length jxl_data) in
            if jxl_size <? src_size then ret (Break jxl_data conversion_method)
            else if current_quality >? min_quality then
              quality_search fuel' input_file src_root dst_root args is_heic
                is_jpeg src_size min_quality (current_quality - 5)
            else ret (Break jxl_data conversion_method)
          else
            quality_search fuel' input_file src_root dst_root args is_heic
              is_jpeg src_size min_quality current_quality
      end
  end.

(** Lines 293-317. *)
Definition final_save_decision (input_file src_root dst_root output_file : path)
    (args : Args) (src_size : Z) (final_jxl_data : bytes) (final_method : method)
  : M unit :=
  if truthy final_jxl_data then
    let jxl_size := Z.of_nat (length final_jxl_data) in
    if ((jxl_size <? src_size) || force_jxl args)%bool then
      write_bytes output_file final_jxl_data ;;;
      (if src_size =? 0 then raise ZeroDivisionError else ret tt) ;;;
      (if jxl_size >=? src_size
       then print (LogForced (Pathlib.name input_file) final_method)
       else print (LogOk (Pathlib.name input_file) final_method)) ;;;
      copy_metadata input_file output_file
    else
      copy_original input_file src_root dst_root "JXL larger & no force"
  else ret tt.

(** Lines 139-166: everything before the search. [None]: the file is
    skipped; otherwise the destination path and [src_size]. *)
Definition prologue (fuel : nat) (input_file src_root dst_root : path)
    (args : Args) : M (option (path * Z)) :=
  rel <- relative_to input_file src_root ;;
  rel_jxl <- with_suffix rel ".jxl" ;;
  let output_file := Pathlib.joinpath dst_root rel_jxl in
  proceed <- conflict_resolution fuel input_file output_file args ;;
  if negb proceed then ret None
  else
    mkdir (Pathlib.parent output_file) ;;;
    src_size <- stat_size input_file ;;
    ret (Some (output_file, src_size)).

Definition process_file (fuel : nat) (input_file src_root dst_root : path)
    (args : Args) : M unit :=
  p <- prologue fuel input_file src_root dst_root args ;;
  match p with
  | None => ret tt
  | Some (output_file, src_size) =>
      let ext := Pathlib.lower (Pathlib.suffix input_file) in
      let is_jpeg := is_jpeg_ext ext in
      let is_heic := is_heic_ext ext in
      exit <- quality_search fuel input_file src_root dst_root args is_heic
                is_jpeg src_size (min_quality args) 90 ;;
      match exit with
      | Return => ret tt
      | Break final_jxl_data final_method =>
          final_save_decision input_file src_root dst_root output_file args
            src_size final_jxl_data final_method
      end
  end.

End Program.

Arguments fs {E} _.
Arguments world {E} _.
Arguments trace {E} _.
Arguments State {E} _ _ _.
Arguments ret {E A} a _.
Arguments bind {E A B} m k _.
Arguments raise {E A} e _.
Arguments diverge {E A} _.
Arguments try_except {E A} m h _.
Arguments emit {E} e _.

(** ** Observations on a trace *)

(** The quality levels of the iterations of the search, oldest first. *)
Definition attempt_qualities (t : list event) : list Z :=
  omap (fun e => match e with EAttempt q => Some q | _ => None end) t.

(** The calls of [convert_via_pillow], with their arguments. *)
Definition pillow_calls (t : list event) : list (path * Z) :=
  omap (fun e => match e with ECallPillow f q => Some (f, q) | _ => None end) t.

(** The payloads written to [p]. *)
Definition writes_to (p : path) (t : list event) : list bytes :=
  omap (fun e => match e with
                 | EWrite p' d => if bool_decide (p' = p) then Some d else None
                 | _ => None
                 end) t.

(** Encoder work: a process was started, Pillow was asked to decode, or
    the fallback routine was entered. *)
Definition is_encoder_event (e : event) : bool :=
  match e with
  | ERun _ _ _ | EImageOpen _ _ | ECallPillow _ _ => true
  | _ => false
  end.

Definition encoder_invocations (t : list event) : list event :=
  List.filter is_encoder_event t.

Definition printed (t : list event) : list log_line :=
  omap (fun e => match e with EPrint l => Some l | _ => None end) t.

(** The file system after the writes of a trace. *)
Definition replay (t : list event) (m : gmap path bytes) : gmap path bytes :=
  fold_left (fun m e => match e with EWrite p d => <[p := d]> m | _ => m end) t m.

(** ** The strategy selector of the specification

    [process_file] has no selector of its own: the choice is the nest of
    branches in [primary_strategies]. The definitions below follow the
    specification (a selector returning an ordered list, run until the
    first success) and are compared with that code. *)

Inductive strategy :=
| FallbackDecodeEncode
| LosslessTranscode
| QualityReencode.

Definition select_strategies (ext : string) (quality : Z) : list strategy :=
  if bool_decide (ext ∈ [".heic"; ".heif"]%string) then [FallbackDecodeEncode]
  else if bool_decide (ext ∈ [".jpg"; ".jpeg"; ".jfif"; ".pjpeg"; ".pjp"]%string) then
    if quality =? 90 then [LosslessTranscode; QualityReencode] else [QualityReencode]
  else [QualityReencode].

Section Strategies.
Context (E : Env).

Notation "x <- m ;; k" := (bind m (fun x => k))
  (at level 100, m at next level, k at level 200, right associativity).

(** One strategy: the payload and its label, or the encoder's diagnostic. *)
Definition run_strategy (input_file : path) (args : Args) (ext : string)
    (quality : Z) (s : strategy) : M E (bytes * method + string) :=
  match s with
  | FallbackDecodeEncode =>
      jxl_data <- convert_via_pillow E input_file args quality ;;
      ret (inl (jxl_data, PillowHEIC quality))
  | LosslessTranscode =>
      r <- run_cjxl_in_memory E (transcode_cmd input_file) args None ;;
      let '(code, data, err) := r in
      if code =? 0 then ret (inl (data, JPEGTranscode)) else ret (inr err)
  | QualityReencode =>
      r <- run_cjxl_in_memory E (reencode_cmd input_file quality) args None ;;
      let '(code, data, err) := r in
      if code =? 0
      then ret (inl (data, if is_jpeg_ext ext then JPEGReEncode quality
                           else DirectCJXL quality))
      else ret (inr err)
  end.

(** The first strategy that succeeds yields the attempt; when the last one
    fails its diagnostic is raised. *)
Fixpoint exec_strategies (input_file : path) (args : Args) (ext : string)
    (quality : Z) (ss : list strategy) : M E (bytes * method) :=
  match ss with
  | [] => raise (RuntimeError (StandardCjxlFailed ""))
  | s :: rest =>
      r <- run_strategy input_file args ext quality s ;;
      match r with
      | inl attempt => ret attempt
      | inr err =>
          match rest with
          | [] => raise (RuntimeError (StandardCjxlFailed err))
          | _ :: _ => exec_strategies input_file args ext quality rest
          end
      end
  end.

End Strategies.

(** ** Test doubles *)

Module Fake.

(** A stateless environment: the encoder answers by command line, Pillow
    by path. *)
Definition env (has_pillow : bool)
    (cjxl : list string -> option bytes -> option completed)
    (ppm : path -> option bytes) (exiftool : bool) (answer : string) : Env :=
  {| World := unit;
     HAS_PILLOW := has_pillow;
     subprocess_run cmd stdin w := (cjxl cmd stdin, w);
     pil_to_ppm p w := (ppm p, w);
     which _ w := (exiftool, w);
     read_answer _ w := (answer, w) |}.

Definition exit_ok (data : bytes) : option completed :=
  Some {| returncode := 0; stdout := data; stderr := "" |}.

Definition exit_error : option completed :=
  Some {| returncode := 1; stdout := []; stderr := "Getting pixel data failed." |}.

Definition start (files : gmap path bytes) (E : Env) (w : World E) : state E :=
  State files w [].

Definition default_args : Args :=
  {| force_jxl := false; effort := 7; overwrite := false; skip := false;
     compress_hq := false; compress_mq := false; compress_lq := false |}.

End Fake.

(** ** Frames

    [grows P st st']: [st'] extends the trace of [st] by events that all
    satisfy [P], and its files are those of [st] after the writes among
    them. [only P m]: every run of [m] grows the state that way. *)

Definition grows {E : Env} (P : event -> Prop) (st st' : state E) : Prop :=
  exists evs, trace st' = trace st ++ evs /\ fs st' = replay evs (fs st) /\ Forall P evs.

Definition only {E : Env} {A : Type} (P : event -> Prop) (m : M E A) : Prop :=
  forall st, grows P st (snd (m st)).

(** What the strategies and the fallback of one pass at [quality] may
    leave in the trace. *)
Definition encoder_event (input_file : path) (quality : Z) (e : event) : Prop :=
  match e with
  | ERun _ _ _ | EImageOpen _ _ | EPrint _ => True
  | ECallPillow f q => f = input_file /\ q = quality
  | _ => False
  end.

(** The same with the hard failure handler, which may retain the
    original. *)
Definition attempt_event (input_file src_root dst_root : path) (quality : Z)
    (e : event) : Prop :=
  match e with
  | ERun _ _ _ | EImageOpen _ _ | EPrint _ | EMkdir _ => True
  | ECallPillow f q => f = input_file /\ q = quality
  | EWrite p _ =>
      exists rel, Pathlib.relative_to input_file src_root = Some rel
                  /\ p = Pathlib.joinpath dst_root rel
  | _ => False
  end.

Definition no_write (e : event) : Prop :=
  match e with EWrite _ _ => False | _ => True end.

Definition no_attempt (e : event) : Prop :=
  match e with EAttempt _ => False | _ => True end.

(** Every quality level an event carries is a multiple of 5 in [lo, hi]. *)
Definition quality_ok (lo hi : Z) (e : event) : Prop :=
  match e with
  | EAttempt q | ECallPillow _ q => q mod 5 = 0 /\ lo <= q <= hi
  | _ => True
  end.

(** The result of the handler of a hard failure, as the result of the
    pass that ran it. *)
Definition after_failure {A B : Type} (r : result A) : result (option B) :=
  match r with
  | Ok _ => Ok None
  | Raise e => Raise e
  | Diverge => Diverge
  end.

(** What the steps before the search may leave in the trace. *)
Definition prologue_event (e : event) : Prop :=
  match e with
  | EMkdir _ | EPrint _ | EInput _ _ => True
  | _ => False
  end.

(** Events that carry no quality level. *)
Definition calm (e : event) : Prop :=
  match e with
  | EAttempt _ | ECallPillow _ _ => False
  | _ => True
  end.

(** ** Termination and results

    [terminates m]: no run of [m] is out of fuel. [returns Q m]: every
    value [m] returns satisfies [Q]. *)

Definition terminates {E : Env} {A : Type} (m : M E A) : Prop :=
  forall st, fst (m st) <> Diverge.

Definition returns {E : Env} {A : Type} (Q : A -> Prop) (m : M E A) : Prop :=
  forall st a st', m st = (Ok a, st') -> Q a.

(** An encoder process that exits with status 0 has written a payload. *)
Definition payloads_nonempty (E : Env) : Prop :=
  forall cmd stdin w c w',
    subprocess_run E cmd stdin w = (Some c, w') -> returncode c = 0 -> stdout c <> [].

(** The number of iterations left from quality [q] down to the floor. *)
Definition iterations_left (minq q : Z) : nat :=
  (Z.to_nat ((q - minq + 4) / 5) + 1)%nat.

(** The outputs of the processes that ran to completion, oldest first. *)
Definition run_outputs (t : list event) : list bytes :=
  omap (fun e => match e with ERun _ _ (Some c) => Some (stdout c) | _ => None end) t.

(** [ends_with_run proj m]: the payload [m] returns is the output of the
    last process it ran. *)
Definition ends_with_run {E : Env} {A : Type} (proj : A -> bytes) (m : M E A) : Prop :=
  forall st a st', m st = (Ok a, st') ->
    exists evs, trace st' = trace st ++ evs /\ last (run_outputs evs) = Some (proj a).

(** ** The batch loop of [main]

    Lines 368-374 and 402-419 of [main]. The listing
    [sorted(list(src.rglob("*")))] is taken as the list [all_files]; an
    entry is a file when the file map has it. [str.strip()] is modelled
    on the ASCII characters Python counts as white space. *)

Module Str.

Definition is_space (c : Ascii.ascii) : bool :=
  let n := Ascii.nat_of_ascii c in
  (((9 <=? n)%nat && (n <=? 13)%nat) || ((28 <=? n)%nat && (n <=? 32)%nat))%bool.

Fixpoint lstrip (s : string) : string :=
  match s with
  | EmptyString => EmptyString
  | String c r => if is_space c then lstrip r else s
  end.

Fixpoint rstrip (s : string) : string :=
  match s with
  | EmptyString => EmptyString
  | String c r =>
      match rstrip r with
      | EmptyString => if is_space c then EmptyString else String c EmptyString
      | r' => String c r'
      end
  end.

(** [s.strip()] *)
Definition strip (s : string) : string := rstrip (lstrip s).

(** [s.isascii()]: on such strings [is_space] and [Pathlib.lower] are the
    white space and the case mapping of Python's [str]. *)
Fixpoint isascii (s : string) : bool :=
  match s with
  | EmptyString => true
  | String c r => (Ascii.nat_of_ascii c <? 128)%nat && isascii r
  end.

(** [s.startswith(".")] *)
Definition starts_with_dot (s : string) : bool :=
  match s with
  | String c _ => Ascii.eqb c "."%char
  | EmptyString => false
  end.

End Str.

(** Lines 371-373: the body of the loop over [args.copy]. *)
Definition normalize_copy_ext (ext : string) : string :=
  let ext := Pathlib.lower (Str.strip ext) in
  if negb (Str.starts_with_dot ext) then "." +:+ ext else ext.

(** Lines 369-374. *)
Definition copy_extension_set (given : list string) : gset string :=
  list_to_set (normalize_copy_ext <$> given).

Section Batch.
Context (E : Env).

Notation "x <- m ;; k" := (bind m (fun x => k))
  (at level 100, m at next level, k at level 200, right associativity).
Notation "m ;;; k" := (bind m (fun _ => k))
  (at level 100, k at level 200, right associativity).

(** Lines 403-419: the body of the loop over [all_files]. *)
Definition process_item (fuel : nat) (item src dst : path) (args : Args)
    (copy_extensions : gset string) : M E unit :=
  is_file <- path_exists E item ;;
  if negb is_file then ret tt
  else
    let ext := Pathlib.lower (Pathlib.suffix item) in
    if (bool_decide (ext ∈ copy_extensions) || bool_decide (ext ∈ UNSUPPORTED_EXTS))%bool
    then
      rel <- relative_to E item src ;;
      let out := Pathlib.joinpath dst rel in
      mkdir E (Pathlib.parent out) ;;;
      present <- path_exists E out ;;
      if negb present then
        data <- read_bytes E item ;;
        write_bytes E out data ;;;
        print E (LogCopy (Pathlib.name item)
                   (if bool_decide (ext ∈ copy_extensions) then "Explicit Copy"
                    else "Unsupported"))
      else ret tt
    else if bool_decide (ext ∈ IMAGE_EXTS) then process_file E fuel item src dst args
    else ret tt.

(** Lines 402-419. *)
Fixpoint main_loop (fuel : nat) (all_files : list path) (src dst : path)
    (args : Args) (copy_extensions : gset string) : M E unit :=
  match all_files with
  | [] => ret tt
  | item :: rest =>
      process_item fuel item src dst args copy_extensions ;;;
      main_loop fuel rest src dst args copy_extensions
  end.

End Batch.

(** ** Further observations *)

(** The paths written to, oldest first. *)
Definition written_paths (t : list event) : list path :=
  omap (fun e => match e with EWrite p _ => Some p | _ => None end) t.

(** The processes started, oldest first. *)
Definition commands_run (t : list event) : list (list string) :=
  omap (fun e => match e with ERun cmd _ _ => Some cmd | _ => None end) t.

(** The questions put to the terminal. *)
Definition prompts (t : list event) : list string :=
  omap (fun e => match e with EInput n _ => Some n | _ => None end) t.

(** The quality a method label names. *)
Definition label_quality (m : method) : option Z :=
  match m with
  | PillowHEIC q | JPEGReEncode q | DirectCJXL q | FallbackPillow q => Some q
  | Standard | JPEGTranscode => None
  end.

(** The label of a payload produced at quality [q]: it names [q], or it
    is the lossless transcode, which is tried at 90 only. *)
Definition label_of_quality (q : Z) (m : method) : Prop :=
  label_quality m = Some q \/ (m = JPEGTranscode /\ q = 90).

(** Writes allowed to [process_file]: the [.jxl] destination and the path
    the original is retained at. *)
Definition own_write (input_file src_root dst_root : path) (e : event) : Prop :=
  match e with
  | EWrite p _ =>
      exists rel, Pathlib.relative_to input_file src_root = Some rel
        /\ (p = Pathlib.joinpath dst_root rel
            \/ exists rel_jxl, Pathlib.with_suffix rel ".jxl" = Some rel_jxl
                               /\ p = Pathlib.joinpath dst_root rel_jxl)
  | _ => True
  end.

(** Writes below [dst_root]. *)
Definition below (dst_root : path) (e : event) : Prop :=
  match e with
  | EWrite p _ => exists rel, p = Pathlib.joinpath dst_root rel
  | _ => True
  end.

Module Interactive.

(** A terminal that gives the scripted answers in turn. *)
Definition env (answers_default : string) : Env :=
  {| World := list string;
     HAS_PILLOW := true;
     subprocess_run cmd stdin w := (None, w);
     pil_to_ppm p w := (None, w);
     which _ w := (false, w);
     read_answer _ w := (hd answers_default w, tl w) |}.

End Interactive.

(** What the handler of a hard failure leaves after its [[ERROR]] line. *)
Definition retention_event (e : event) : Prop :=
  match e with
  | EMkdir _ | EWrite _ _ | EPrint (LogCopy _ _) => True
  | _ => False
  end.

(** Events other than a question to the terminal. *)
Definition silent (e : event) : Prop :=
  match e with EInput _ _ => False | _ => True end.

(** ** Scenarios *)

Module Scenario.

Definition src_root : path := ["photos"]%string.
Definition dst_root : path := ["out"]%string.
Definition png : path := ["photos"; "a.png"]%string.
Definition heic : path := ["photos"; "c.heic"]%string.

(** A three byte source, a smaller and a larger payload. *)
Definition content : bytes := [x00; x01; x02]%byte.
Definition smaller : bytes := [x0a; x0b]%byte.
Definition larger : bytes := [x0a; x0b; x0c; x0d]%byte.
Definition stale : bytes := [xff]%byte.

(** An encoder whose output is never smaller than the source. *)
Definition E_large : Env :=
  Fake.env true (fun _ _ => Fake.exit_ok larger) (fun _ => None) false "n".

(** An encoder that always fails, with a Pillow that cannot decode. *)
Definition E_broken : Env :=
  Fake.env true (fun _ _ => Fake.exit_error) (fun _ => None) false "n".

(** An encoder that exits with status 0 and writes nothing to its
    standard output. *)
Definition E_empty : Env :=
  Fake.env true (fun _ _ => Fake.exit_ok []) (fun _ => None) false "n".

(** A working Pillow and an encoder whose output is smaller than the
    source. *)
Definition E_pillow : Env :=
  Fake.env true (fun _ _ => Fake.exit_ok smaller) (fun _ => Some content) false "n".

Definition lq_args : Args :=
  {| force_jxl := false; effort := 7; overwrite := false; skip := false;
     compress_hq := false; compress_mq := false; compress_lq := true |}.

Definition skip_args : Args :=
  {| force_jxl := false; effort := 7; overwrite := false; skip := true;
     compress_hq := false; compress_mq := false; compress_lq := false |}.

Definition force_args : Args :=
  {| force_jxl := true; effort := 7; overwrite := false; skip := false;
     compress_hq := false; compress_mq := false; compress_lq := false |}.

(** Only the source file. *)
Definition fresh : gmap path bytes := {[ png := content ]}.

(** The source file and another file where the original would be
    retained. *)
Definition occupied : gmap path bytes :=
  <[ ["out"; "a.png"]%string := stale ]> fresh.

(** The source file and an earlier output. *)
Definition converted : gmap path bytes :=
  <[ ["out"; "a.jxl"]%string := smaller ]> fresh.

(** An empty source file. *)
Definition empty_source : gmap path bytes := {[ png := [] ]}.

Definition heic_files : gmap path bytes := {[ heic := content ]}.

End Scenario.

(** * Properties *)

Section Runs.
Context {E : Env}.
Implicit Types (st : state E) (P Q : event -> Prop).

Lemma replay_app (t1 t2 : list event) (m : gmap path bytes) :
  replay (t1 ++ t2) m = replay t2 (replay t1 m).
Proof. unfold replay. apply fold_left_app. Qed.

Lemma grows_refl P st : grows P st st.
Proof.
  exists []. rewrite app_nil_r. repeat split; constructor.
Qed.

Lemma grows_trans P st1 st2 st3 :
  grows P st1 st2 -> grows P st2 st3 -> grows P st1 st3.
Proof.
  intros (t1 & Ht1 & Hf1 & HP1) (t2 & Ht2 & Hf2 & HP2).
  exists (t1 ++ t2). split; [|split].
  - rewrite Ht2, Ht1. symmetry. apply app_assoc.
  - rewrite Hf2, Hf1. symmetry. apply replay_app.
  - apply Forall_app; split; assumption.
Qed.

Lemma grows_mono P Q st st' :
  (forall e, P e -> Q e) -> grows P st st' -> grows Q st st'.
Proof.
  intros HPQ (t & Ht & Hf & HP). exists t. repeat split; try assumption.
  eapply Forall_impl; eassumption.
Qed.

Lemma only_mono {A} P Q (m : M E A) :
  (forall e, P e -> Q e) -> only P m -> only Q m.
Proof. intros HPQ Hm st. eapply grows_mono; [exact HPQ | apply Hm]. Qed.

Lemma only_ret {A} P (a : A) : only P (ret (E := E) a).
Proof. intros st. apply grows_refl. Qed.

Lemma only_raise {A} P e : only P (raise (E := E) (A := A) e).
Proof. intros st. apply grows_refl. Qed.

Lemma only_diverge {A} P : only P (diverge (E := E) (A := A)).
Proof. intros st. apply grows_refl. Qed.

Lemma only_bind {A B} P (m : M E A) (k : A -> M E B) :
  only P m -> (forall a, only P (k a)) -> only P (bind m k).
Proof.
  intros Hm Hk st. unfold bind. specialize (Hm st).
  destruct (m st) as [[a | e |] st1]; simpl in *; try exact Hm.
  eapply grows_trans; [exact Hm | apply Hk].
Qed.

Lemma only_bind_ret {A B} P (a : A) (k : A -> M E B) :
  only P (k a) -> only P (bind (ret a) k).
Proof. intros Hk st. exact (Hk st). Qed.

Lemma only_try_except {A} P (m : M E A) (h : exn -> M E A) :
  only P m -> (forall e, only P (h e)) -> only P (try_except m h).
Proof.
  intros Hm Hh st. unfold try_except. specialize (Hm st).
  destruct (m st) as [[a | e |] st1]; simpl in *; try exact Hm.
  eapply grows_trans; [exact Hm | apply Hh].
Qed.

Lemma only_emit P e :
  (forall p d, e <> EWrite p d) -> P e -> only P (emit (E := E) e).
Proof.
  intros Hw He st. exists [e]. repeat split.
  - destruct e; try reflexivity. exfalso. eapply Hw. reflexivity.
  - constructor; [exact He | constructor].
Qed.

Lemma only_print P l : P (EPrint l) -> only P (print E l).
Proof. apply only_emit. discriminate. Qed.

Lemma only_mkdir P p : P (EMkdir p) -> only P (mkdir E p).
Proof. apply only_emit. discriminate. Qed.

Lemma only_write_bytes P p d : P (EWrite p d) -> only P (write_bytes E p d).
Proof.
  intros He st. exists [EWrite p d]. repeat split.
  constructor; [exact He | constructor].
Qed.

Lemma only_path_exists P p : only P (path_exists E p).
Proof. intros st. apply grows_refl. Qed.

Lemma only_read_bytes P p : only P (read_bytes E p).
Proof.
  intros st. unfold read_bytes. destruct (fs st !! p); apply grows_refl.
Qed.

Lemma only_stat_size P p : only P (stat_size E p).
Proof.
  apply only_bind; [apply only_read_bytes | intros; apply only_ret].
Qed.

Lemma only_run P cmd stdin :
  (forall r, P (ERun cmd stdin r)) -> only P (run E cmd stdin).
Proof.
  intros He st. unfold run. destruct (subprocess_run E cmd stdin (world st)) as [r w].
  exists [ERun cmd stdin r]. repeat split. constructor; [apply He | constructor].
Qed.

Lemma only_image_to_ppm P p :
  (forall r, P (EImageOpen p r)) -> only P (image_to_ppm E p).
Proof.
  intros He st. unfold image_to_ppm. destruct (pil_to_ppm E p (world st)) as [r w].
  exists [EImageOpen p r]. repeat split. constructor; [apply He | constructor].
Qed.

Lemma only_shutil_which P tool :
  (forall b, P (EWhich tool b)) -> only P (shutil_which E tool).
Proof.
  intros He st. unfold shutil_which. destruct (which E tool (world st)) as [b w].
  exists [EWhich tool b]. repeat split. constructor; [apply He | constructor].
Qed.

Lemma only_input_answer P nm :
  (forall a, P (EInput nm a)) -> only P (input_answer E nm).
Proof.
  intros He st. unfold input_answer. destruct (read_answer E nm (world st)) as [a w].
  exists [EInput nm a]. repeat split. constructor; [apply He | constructor].
Qed.

End Runs.

(** ** Frames of the helpers *)

Section Frames.
Context {E : Env}.
Implicit Types (st : state E) (P : event -> Prop).

Ltac step :=
  first
    [ apply only_ret | apply only_raise | apply only_diverge
    | apply only_path_exists | apply only_read_bytes | apply only_stat_size
    | apply only_bind; [| intros ?]
    | apply only_try_except; [| intros ?] ].

Lemma only_run_cjxl_in_memory P cmd args stdin :
  (forall c s r, P (ERun c s r)) -> only P (run_cjxl_in_memory E cmd args stdin).
Proof.
  intros HP. unfold run_cjxl_in_memory.
  apply only_bind; [apply only_run; intros; apply HP | intros; apply only_ret].
Qed.

Lemma only_convert_via_pillow P input_file args q :
  (forall c s r, P (ERun c s r)) -> (forall p r, P (EImageOpen p r)) ->
  P (ECallPillow input_file q) ->
  only P (convert_via_pillow E input_file args q).
Proof.
  intros Hrun Himg Hcall. unfold convert_via_pillow.
  step; [apply only_emit; [discriminate | exact Hcall] |].
  destruct (negb (HAS_PILLOW E)); [step |].
  step; [| step].
  step; [apply only_image_to_ppm; intros; apply Himg |].
  step; [apply only_run_cjxl_in_memory; exact Hrun |].
  destruct a1 as [[code data] err]. destruct (negb (code =? 0)); step.
Qed.

Lemma only_copy_metadata P src_file dst_file :
  (forall c s r, P (ERun c s r)) -> (forall t b, P (EWhich t b)) ->
  P (ECallMetadata src_file dst_file) ->
  only P (copy_metadata E src_file dst_file).
Proof.
  intros Hrun Hwhich Hcall. unfold copy_metadata.
  step; [apply only_emit; [discriminate | exact Hcall] |].
  step; [apply only_shutil_which; intros; apply Hwhich |].
  destruct a0; [| step].
  step; [apply only_run; intros; apply Hrun | step].
Qed.

Lemma only_copy_original P input_file src_root dst_root reason :
  (forall p, P (EMkdir p)) -> (forall l, P (EPrint l)) ->
  (forall rel d, Pathlib.relative_to input_file src_root = Some rel ->
                 P (EWrite (Pathlib.joinpath dst_root rel) d)) ->
  only P (copy_original E input_file src_root dst_root reason).
Proof.
  intros Hmk Hpr Hwr. unfold copy_original, relative_to.
  destruct (Pathlib.relative_to input_file src_root) as [rel |] eqn:Hrel.
  - apply only_bind_ret. step; [apply only_mkdir, Hmk |].
    step; [step |]. step; [| apply only_print, Hpr].
    destruct (negb a0); [| step].
    step; [step |]. apply only_write_bytes. apply Hwr. reflexivity.
  - intros st. apply grows_refl.
Qed.

Lemma only_primary_strategies P input_file args is_heic is_jpeg q :
  (forall c s r, P (ERun c s r)) -> (forall p r, P (EImageOpen p r)) ->
  P (ECallPillow input_file q) ->
  only P (primary_strategies E input_file args is_heic is_jpeg q).
Proof.
  intros Hrun Himg Hcall.
  assert (Hre : forall m : method,
            only P (bind (run_cjxl_in_memory E (reencode_cmd input_file q) args None)
                      (fun r => let '(code, data, err) := r in
                                if code =? 0 then ret (data, m)
                                else raise (RuntimeError (StandardCjxlFailed err))))).
  { intros m. apply only_bind; [apply only_run_cjxl_in_memory; exact Hrun |].
    intros [[code data] err]. destruct (code =? 0); step. }
  unfold primary_strategies. destruct is_heic.
  { step; [apply only_convert_via_pillow; assumption | step]. }
  destruct is_jpeg; [destruct (q =? 90) |]; try apply Hre.
  apply only_bind; [apply only_run_cjxl_in_memory; exact Hrun |].
  intros [[code data] err]. destruct (code =? 0); [step | apply Hre].
Qed.

Lemma only_universal_fallback P input_file args q :
  (forall c s r, P (ERun c s r)) -> (forall p r, P (EImageOpen p r)) ->
  (forall l, P (EPrint l)) -> P (ECallPillow input_file q) ->
  only P (universal_fallback E input_file args q).
Proof.
  intros Hrun Himg Hpr Hcall. unfold universal_fallback.
  step; [destruct (q =? 90); [apply only_print, Hpr | step] |].
  step; [apply only_convert_via_pillow; assumption | step].
Qed.

Lemma only_hard_failure P input_file src_root dst_root args e1 e2 :
  (forall p, P (EMkdir p)) -> (forall l, P (EPrint l)) ->
  (forall rel d, Pathlib.relative_to input_file src_root = Some rel ->
                 P (EWrite (Pathlib.joinpath dst_root rel) d)) ->
  only P (hard_failure E input_file src_root dst_root args e1 e2).
Proof.
  intros Hmk Hpr Hwr. unfold hard_failure.
  step; [apply only_print, Hpr |].
  destruct (negb (force_jxl args)); [apply only_copy_original; assumption | step].
Qed.

Lemma only_prompt_loop P fuel input_name output_name :
  (forall l, P (EPrint l)) -> (forall n a, P (EInput n a)) ->
  only P (prompt_loop E fuel input_name output_name).
Proof.
  intros Hpr Hin. induction fuel as [| fuel IH]; simpl; [step |].
  step; [apply only_input_answer; intros; apply Hin |].
  destruct (String.eqb a "y"); [step |].
  destruct (String.eqb a "n"); [| exact IH].
  step; [apply only_print, Hpr | step].
Qed.

Lemma only_conflict_resolution P fuel input_file output_file args :
  (forall l, P (EPrint l)) -> (forall n a, P (EInput n a)) ->
  only P (conflict_resolution E fuel input_file output_file args).
Proof.
  intros Hpr Hin. unfold conflict_resolution.
  step; [step |]. destruct a; [| step].
  destruct (skip args); [step; [apply only_print, Hpr | step] |].
  destruct (overwrite args); [step |]. apply only_prompt_loop; assumption.
Qed.

Lemma only_prologue P fuel input_file src_root dst_root args :
  (forall p, P (EMkdir p)) -> (forall l, P (EPrint l)) ->
  (forall n a, P (EInput n a)) ->
  only P (prologue E fuel input_file src_root dst_root args).
Proof.
  intros Hmk Hpr Hin. unfold prologue, relative_to, with_suffix.
  step; [destruct (Pathlib.relative_to _ _); step |].
  step; [destruct (Pathlib.with_suffix _ _); step |].
  step; [apply only_conflict_resolution; assumption |].
  destruct (negb a1); [step |].
  step; [apply only_mkdir, Hmk |]. step; [step | step].
Qed.

End Frames.

(** ** One pass of the search *)

Section Attempt.
Context {E : Env}.
Implicit Types (st : state E).

Lemma encode_attempt_unfold input_file src_root dst_root args is_heic is_jpeg q st :
  encode_attempt E input_file src_root dst_root args is_heic is_jpeg q st =
  match primary_strategies E input_file args is_heic is_jpeg q st with
  | (Ok x, sa) => (Ok (Some x), sa)
  | (Diverge, sa) => (Diverge, sa)
  | (Raise e_primary, sa) =>
      match universal_fallback E input_file args q sa with
      | (Ok x, sb) => (Ok (Some x), sb)
      | (Diverge, sb) => (Diverge, sb)
      | (Raise e_fallback, sb) =>
          let '(r, sc) := hard_failure E input_file src_root dst_root args
                            e_primary e_fallback sb in
          (after_failure r, sc)
      end
  end.
Proof.
  unfold encode_attempt, try_except, bind, ret.
  destruct (primary_strategies _ _ _ _ _ _ _) as [[x | e1 |] sa]; try reflexivity.
  destruct (universal_fallback _ _ _ _ _) as [[x | e2 |] sb]; try reflexivity.
  destruct (hard_failure _ _ _ _ _ _ _ _) as [[[] | e |] sc]; reflexivity.
Qed.

Lemma encoder_event_frames input_file args is_heic is_jpeg q :
  only (encoder_event input_file q)
    (primary_strategies E input_file args is_heic is_jpeg q)
  /\ only (encoder_event input_file q) (universal_fallback E input_file args q).
Proof.
  split.
  - apply only_primary_strategies; simpl; auto.
  - apply only_universal_fallback; simpl; auto.
Qed.

Lemma encode_attempt_Some input_file src_root dst_root args is_heic is_jpeg q st x st' :
  encode_attempt E input_file src_root dst_root args is_heic is_jpeg q st
    = (Ok (Some x), st') ->
  grows (encoder_event input_file q) st st'.
Proof.
  rewrite encode_attempt_unfold.
  destruct (encoder_event_frames input_file args is_heic is_jpeg q) as [Hp Hf].
  specialize (Hp st).
  destruct (primary_strategies _ _ _ _ _ _ _) as [[y | e1 |] sa]; simpl in Hp;
    [intros [= <- <-]; exact Hp | | discriminate].
  specialize (Hf sa).
  destruct (universal_fallback _ _ _ _ _) as [[y | e2 |] sb]; simpl in Hf;
    [intros [= <- <-]; eapply grows_trans; eassumption | | discriminate].
  destruct (hard_failure _ _ _ _ _ _ _ _) as [[[] | e |] sc]; discriminate.
Qed.

Lemma encode_attempt_failed input_file src_root dst_root args is_heic is_jpeg q st r st' :
  encode_attempt E input_file src_root dst_root args is_heic is_jpeg q st = (r, st') ->
  (forall x, r <> Ok (Some x)) ->
  (r = Diverge /\ grows (encoder_event input_file q) st st')
  \/ exists e1 e2 sa sb r0,
      primary_strategies E input_file args is_heic is_jpeg q st = (Raise e1, sa)
      /\ universal_fallback E input_file args q sa = (Raise e2, sb)
      /\ grows (encoder_event input_file q) st sb
      /\ hard_failure E input_file src_root dst_root args e1 e2 sb = (r0, st')
      /\ r = after_failure r0.
Proof.
  rewrite encode_attempt_unfold.
  destruct (encoder_event_frames input_file args is_heic is_jpeg q) as [Hp Hf].
  specialize (Hp st).
  destruct (primary_strategies _ _ _ _ _ _ _) as [[y | e1 |] sa] eqn:Hprim;
    simpl in Hp.
  - intros [= <- <-] Hne. exfalso. eapply Hne. reflexivity.
  - specialize (Hf sa).
    destruct (universal_fallback _ _ _ _ _) as [[y | e2 |] sb] eqn:Hfb; simpl in Hf.
    + intros [= <- <-] Hne. exfalso. eapply Hne. reflexivity.
    + destruct (hard_failure _ _ _ _ _ _ _ _) as [r0 sc] eqn:Hhf.
      intros [= <- <-] _. right. exists e1, e2, sa, sb, r0.
      repeat split; try reflexivity; try assumption.
      eapply grows_trans; eassumption.
    + intros [= <- <-] _. left. split; [reflexivity |].
      eapply grows_trans; eassumption.
  - intros [= <- <-] _. left. split; [reflexivity | exact Hp].
Qed.

Lemma only_encode_attempt input_file src_root dst_root args is_heic is_jpeg q :
  only (attempt_event input_file src_root dst_root q)
    (encode_attempt E input_file src_root dst_root args is_heic is_jpeg q).
Proof.
  unfold encode_attempt.
  apply only_try_except.
  { apply only_bind; [| intros; apply only_ret].
    apply only_primary_strategies; simpl; auto. }
  intros e1. apply only_try_except.
  { apply only_bind; [| intros; apply only_ret].
    apply only_universal_fallback; simpl; auto. }
  intros e2. apply only_bind; [| intros; apply only_ret].
  apply only_hard_failure; simpl; eauto.
Qed.

End Attempt.

(** ** The quality search *)

Section Search.
Context {E : Env}.
Implicit Types (st : state E).

Lemma quality_search_S fuel input_file src_root dst_root args is_heic is_jpeg
    src_size minq q st :
  quality_search E (S fuel) input_file src_root dst_root args is_heic is_jpeg
    src_size minq q st =
  match encode_attempt E input_file src_root dst_root args is_heic is_jpeg q
          (snd (emit (EAttempt q) st)) with
  | (Ok None, st1) => (Ok Return, st1)
  | (Ok (Some (jxl_data, m)), st1) =>
      if truthy jxl_data then
        if Z.of_nat (length jxl_data) <? src_size then (Ok (Break jxl_data m), st1)
        else if q >? minq then
          quality_search E fuel input_file src_root dst_root args is_heic is_jpeg
            src_size minq (q - 5) st1
        else (Ok (Break jxl_data m), st1)
      else
        quality_search E fuel input_file src_root dst_root args is_heic is_jpeg
          src_size minq q st1
  | (Raise e, st1) => (Raise e, st1)
  | (Diverge, st1) => (Diverge, st1)
  end.
Proof.
  cbn [quality_search]. unfold bind at 1. cbn [emit snd].
  unfold bind at 1.
  destruct (encode_attempt _ _ _ _ _ _ _ _ _) as [[[[d m] |] | e |] st1];
    try reflexivity.
  destruct (truthy d); [| reflexivity].
  destruct (_ <? _); [reflexivity |]. destruct (_ >? _); reflexivity.
Qed.

Lemma attempt_qualities_app (t1 t2 : list event) :
  attempt_qualities (t1 ++ t2) = attempt_qualities t1 ++ attempt_qualities t2.
Proof. apply omap_app. Qed.

Lemma pillow_calls_app (t1 t2 : list event) :
  pillow_calls (t1 ++ t2) = pillow_calls t1 ++ pillow_calls t2.
Proof. apply omap_app. Qed.

Lemma printed_app (t1 t2 : list event) :
  printed (t1 ++ t2) = printed t1 ++ printed t2.
Proof. apply omap_app. Qed.

Lemma writes_to_app (p : path) (t1 t2 : list event) :
  writes_to p (t1 ++ t2) = writes_to p t1 ++ writes_to p t2.
Proof. apply omap_app. Qed.

Lemma attempt_qualities_none (t : list event) :
  Forall no_attempt t -> attempt_qualities t = [].
Proof.
  induction 1 as [| e t He _ IH]; [reflexivity |].
  unfold attempt_qualities in *. cbn. destruct e; cbn in *; try exact IH.
  contradiction.
Qed.

Lemma attempt_qualities_ok lo hi (t : list event) :
  Forall (quality_ok lo hi) t ->
  Forall (fun q => q mod 5 = 0 /\ lo <= q <= hi) (attempt_qualities t).
Proof.
  induction 1 as [| e t He _ IH]; [constructor |].
  unfold attempt_qualities in *. cbn. destruct e; cbn in *; try exact IH.
  constructor; assumption.
Qed.

Lemma pillow_calls_ok lo hi (t : list event) :
  Forall (quality_ok lo hi) t ->
  Forall (fun c => c.2 mod 5 = 0 /\ lo <= c.2 <= hi) (pillow_calls t).
Proof.
  induction 1 as [| e t He _ IH]; [constructor |].
  unfold pillow_calls in *. cbn. destruct e; cbn in *; try exact IH.
  constructor; assumption.
Qed.

Lemma attempt_event_no_attempt input_file src_root dst_root q e :
  attempt_event input_file src_root dst_root q e -> no_attempt e.
Proof. destruct e; simpl; auto. Qed.

Lemma attempt_event_quality_ok input_file src_root dst_root lo q e :
  q mod 5 = 0 -> lo <= q ->
  attempt_event input_file src_root dst_root q e -> quality_ok lo q e.
Proof.
  intros Hq Hlo. destruct e; simpl; auto; try contradiction.
  intros [_ ->]. split; [assumption | lia].
Qed.

Lemma quality_ok_mono lo hi hi' e :
  hi <= hi' -> quality_ok lo hi e -> quality_ok lo hi' e.
Proof. intros Hle. destruct e; simpl; auto; intros [? ?]; split; auto; lia. Qed.

(** The levels tried from [q] downwards: multiples of 5 between the floor
    and [q], never increasing. *)
Lemma quality_search_qualities fuel input_file src_root dst_root args is_heic
    is_jpeg src_size minq :
  minq mod 5 = 0 ->
  forall q st, q mod 5 = 0 -> minq <= q ->
  exists evs,
    trace (snd (quality_search E fuel input_file src_root dst_root args is_heic
                  is_jpeg src_size minq q st)) = trace st ++ evs
    /\ Forall (quality_ok minq q) evs
    /\ StronglySorted (fun a b => b <= a) (attempt_qualities evs).
Proof.
  intros Hminq. induction fuel as [| fuel IH]; intros q st Hq Hle.
  { exists []. cbn. rewrite app_nil_r. repeat split; constructor. }
  rewrite quality_search_S. cbn [emit snd].
  set (st0 := State (fs st) (world st) (trace st ++ [EAttempt q])).
  destruct (only_encode_attempt input_file src_root dst_root args is_heic is_jpeg
              q st0) as (ev1 & Ht1 & _ & HP1).
  assert (Hq1 : attempt_qualities ev1 = []).
  { apply attempt_qualities_none. eapply Forall_impl; [exact HP1 |].
    intros e. apply attempt_event_no_attempt. }
  assert (Hok1 : Forall (quality_ok minq q) ev1).
  { eapply Forall_impl; [exact HP1 |]. intros e.
    apply attempt_event_quality_ok; assumption. }
  assert (Hhere :
            exists evs,
              trace (snd (encode_attempt E input_file src_root dst_root args
                            is_heic is_jpeg q st0)) = trace st ++ evs
              /\ Forall (quality_ok minq q) evs
              /\ StronglySorted (fun a b => b <= a) (attempt_qualities evs)).
  { exists (EAttempt q :: ev1). rewrite Ht1. cbn [trace st0].
    split; [rewrite <- app_assoc; reflexivity |]. split.
    - constructor; [| exact Hok1]. simpl. split; [assumption | lia].
    - change (EAttempt q :: ev1) with ([EAttempt q] ++ ev1).
      rewrite attempt_qualities_app, Hq1. cbn.
      constructor; constructor. }
  assert (Hnext : forall q', q' mod 5 = 0 -> minq <= q' <= q ->
            exists evs,
              trace (snd (quality_search E fuel input_file src_root dst_root args
                            is_heic is_jpeg src_size minq q'
                            (snd (encode_attempt E input_file src_root dst_root args
                                    is_heic is_jpeg q st0)))) = trace st ++ evs
              /\ Forall (quality_ok minq q) evs
              /\ StronglySorted (fun a b => b <= a) (attempt_qualities evs)).
  { intros q' Hq' Hrange.
    destruct (IH q' (snd (encode_attempt E input_file src_root dst_root args
                            is_heic is_jpeg q st0)) Hq' ltac:(lia))
      as (ev2 & Ht2 & HP2 & Hs2).
    exists (EAttempt q :: ev1 ++ ev2). rewrite Ht2, Ht1. cbn [trace st0].
    split; [rewrite <- !app_assoc; reflexivity |]. split.
    - constructor; [simpl; split; [assumption | lia] |].
      apply Forall_app. split; [exact Hok1 |].
      eapply Forall_impl; [exact HP2 |]. intros e. apply quality_ok_mono. lia.
    - change (EAttempt q :: ev1 ++ ev2) with ([EAttempt q] ++ ev1 ++ ev2).
      rewrite !attempt_qualities_app, Hq1. cbn.
      constructor; [exact Hs2 |].
      eapply Forall_impl; [apply (attempt_qualities_ok _ _ _ HP2) |].
      cbn. intros x [_ ?]. lia. }
  destruct (encode_attempt _ _ _ _ _ _ _ _ _) as [[[[d m] |] | e |] st1];
    cbn [snd] in *; try exact Hhere.
  destruct (truthy d); [| apply Hnext; [assumption | lia]].
  destruct (_ <? _); [exact Hhere |].
  destruct (q >? minq) eqn:Hgt; [| exact Hhere].
  apply Hnext.
  - rewrite Zminus_mod, Hq. reflexivity.
  - assert (Hlt : minq < q) by lia.
    assert (q = 5 * (q / 5)) by (rewrite (Z_div_mod_eq_full q 5) at 1; lia).
    assert (minq = 5 * (minq / 5)) by (rewrite (Z_div_mod_eq_full minq 5) at 1; lia).
    lia.
Qed.

End Search.

(** ** Paths *)

Section Paths.

Lemma str_take_drop n s : Pathlib.str_take n s +:+ Pathlib.str_drop n s = s.
Proof.
  revert s. induction n as [| n IH]; intros [| c r]; try reflexivity.
  change (String c (Pathlib.str_take n r +:+ Pathlib.str_drop n r) = String c r).
  f_equal. apply IH.
Qed.

Lemma length_str_drop n s :
  (n <= String.length s)%nat ->
  String.length (Pathlib.str_drop n s) = (String.length s - n)%nat.
Proof.
  revert s. induction n as [| n IH]; intros [| c r]; cbn; intros Hn; try lia.
  apply IH. lia.
Qed.

Lemma append_inv_head s a b : s +:+ a = s +:+ b -> a = b.
Proof.
  induction s as [| c s IH]; [auto |].
  change (String c (s +:+ a) = String c (s +:+ b) -> a = b). intros [= H]. auto.
Qed.

Lemma append_empty_r s : s +:+ EmptyString = s.
Proof.
  induction s as [| c s IH]; [reflexivity |].
  change (String c (s +:+ EmptyString) = String c s). f_equal. exact IH.
Qed.

(** Replacing the suffix changes the name unless the suffix is the new
    one already. *)
Lemma str_with_suffix_fixed nm sfx :
  sfx <> EmptyString ->
  Pathlib.str_with_suffix nm sfx = nm -> Pathlib.str_suffix nm = sfx.
Proof.
  intros Hsfx. unfold Pathlib.str_with_suffix.
  destruct (String.eqb (Pathlib.str_suffix nm) EmptyString) eqn:Hold.
  - intros H. exfalso. apply Hsfx. apply (append_inv_head nm).
    rewrite append_empty_r. exact H.
  - revert Hold. unfold Pathlib.str_suffix.
    destruct (Pathlib.rfind_dot nm) as [i |]; [| discriminate].
    destruct ((0 <? i)%nat && (i <? String.length nm - 1)%nat)%bool eqn:Hi;
      [| discriminate].
    intros _. apply andb_true_iff in Hi as [_ Hi]. apply Nat.ltb_lt in Hi.
    rewrite length_str_drop by lia.
    replace (String.length nm - (String.length nm - i))%nat with i by lia.
    intros H. symmetry. apply (append_inv_head (Pathlib.str_take i nm)).
    rewrite str_take_drop. exact H.
Qed.

Lemma relative_to_nil_inv (p root rel : path) :
  Pathlib.relative_to p root = Some rel -> p = [] -> rel = [].
Proof.
  intros H ->. destruct root; cbn in H; congruence.
Qed.

Lemma name_relative_to (p root rel : path) :
  Pathlib.relative_to p root = Some rel -> rel <> [] ->
  Pathlib.name p = Pathlib.name rel.
Proof.
  revert p. induction root as [| r root IH]; intros p.
  - destruct p; cbn; intros [= <-]; reflexivity.
  - destruct p as [| x p]; cbn; [discriminate |].
    destruct (String.eqb r x); [| discriminate].
    intros Hrel Hne. rewrite <- (IH p Hrel Hne).
    destruct p as [| y p]; [| reflexivity].
    exfalso. apply Hne. eapply relative_to_nil_inv; [exact Hrel | reflexivity].
Qed.

(** For a file [process_file] is called on, the path the original is
    retained at differs from the [.jxl] destination. *)
Lemma retained_ne_output (input_file src_root dst_root rel rel_jxl : path) :
  Pathlib.lower (Pathlib.suffix input_file) ∈ IMAGE_EXTS ->
  Pathlib.relative_to input_file src_root = Some rel ->
  Pathlib.with_suffix rel ".jxl" = Some rel_jxl ->
  Pathlib.joinpath dst_root rel <> Pathlib.joinpath dst_root rel_jxl.
Proof.
  intros Hext Hrel Hjxl Heq. unfold Pathlib.with_suffix in Hjxl.
  destruct (String.eqb (Pathlib.name rel) EmptyString) eqn:Hname; [discriminate |].
  injection Hjxl as <-.
  assert (Hne : rel <> []) by (intros ->; discriminate).
  unfold Pathlib.joinpath in Heq. apply app_inv_head in Heq.
  rewrite (app_removelast_last EmptyString Hne) in Heq at 1.
  apply app_inj_tail in Heq as [_ Heq].
  symmetry in Heq. apply str_with_suffix_fixed in Heq; [| discriminate].
  unfold Pathlib.suffix in Hext. rewrite (name_relative_to _ _ _ Hrel Hne) in Hext.
  unfold Pathlib.name in *. rewrite Heq in Hext. apply list_elem_of_In in Hext. cbn in Hext.
  intuition discriminate.
Qed.

End Paths.

(** ** Effects of the helpers *)

Section Effects.
Context {E : Env}.
Implicit Types (st : state E).

Lemma replay_no_write (t : list event) (m : gmap path bytes) :
  Forall no_write t -> replay t m = m.
Proof.
  intros H. revert m. induction H as [| e t He _ IH]; intros m; [reflexivity |].
  change (replay (e :: t) m) with (replay t (replay [e] m)). rewrite IH.
  destruct e; try reflexivity. contradiction.
Qed.

Lemma replay_lookup_other (p : path) (t : list event) (m : gmap path bytes) :
  Forall (fun e => match e with EWrite p' _ => p' <> p | _ => True end) t ->
  replay t m !! p = m !! p.
Proof.
  intros H. revert m. induction H as [| e t He _ IH]; intros m; [reflexivity |].
  change (replay (e :: t) m) with (replay t (replay [e] m)). rewrite IH.
  destruct e; try reflexivity. cbn. apply lookup_insert_ne. exact He.
Qed.

Lemma writes_to_other (p : path) (t : list event) :
  Forall (fun e => match e with EWrite p' _ => p' <> p | _ => True end) t ->
  writes_to p t = [].
Proof.
  induction 1 as [| e t He _ IH]; [reflexivity |].
  unfold writes_to in *. cbn. destruct e; cbn; try exact IH.
  rewrite bool_decide_eq_false_2 by exact He. exact IH.
Qed.

Lemma grows_no_write_fs st st' : grows no_write st st' -> fs st' = fs st.
Proof. intros (t & _ & Hf & Ht). rewrite Hf. apply replay_no_write, Ht. Qed.

(** An existing file at the retention path is left alone. *)
Lemma copy_original_present input_file src_root dst_root reason rel st :
  Pathlib.relative_to input_file src_root = Some rel ->
  is_Some (fs st !! Pathlib.joinpath dst_root rel) ->
  copy_original E input_file src_root dst_root reason st =
  (Ok tt,
   State (fs st) (world st)
     (trace st ++ [EMkdir (Pathlib.parent (Pathlib.joinpath dst_root rel));
                   EPrint (LogCopy (Pathlib.name input_file) reason)])).
Proof.
  intros Hrel Hout. unfold copy_original, relative_to. rewrite Hrel.
  unfold bind, ret, mkdir, emit, path_exists, print, emit. cbn.
  rewrite bool_decide_eq_true_2 by exact Hout. cbn.
  rewrite <- app_assoc. reflexivity.
Qed.

(** Otherwise the original's bytes are written there. *)
Lemma copy_original_absent input_file src_root dst_root reason rel content st :
  Pathlib.relative_to input_file src_root = Some rel ->
  fs st !! Pathlib.joinpath dst_root rel = None ->
  fs st !! input_file = Some content ->
  copy_original E input_file src_root dst_root reason st =
  (Ok tt,
   State (<[Pathlib.joinpath dst_root rel := content]> (fs st)) (world st)
     (trace st ++ [EMkdir (Pathlib.parent (Pathlib.joinpath dst_root rel));
                   EWrite (Pathlib.joinpath dst_root rel) content;
                   EPrint (LogCopy (Pathlib.name input_file) reason)])).
Proof.
  intros Hrel Hout Hin. unfold copy_original, relative_to. rewrite Hrel.
  unfold bind, ret, mkdir, emit, path_exists, print, emit, read_bytes, write_bytes.
  cbn. rewrite bool_decide_eq_false_2 by (rewrite Hout; apply is_Some_None).
  cbn. rewrite Hin. cbn. rewrite <- !app_assoc. reflexivity.
Qed.

(** Lines 297-313 for a source that is not empty: write, report, then
    propagate the metadata. *)
Lemma final_save_persist input_file src_root dst_root output_file args src_size
    data m st :
  truthy data = true ->
  ((Z.of_nat (length data) <? src_size) || force_jxl args)%bool = true ->
  src_size <> 0 ->
  final_save_decision E input_file src_root dst_root output_file args src_size
    data m st =
  copy_metadata E input_file output_file
    (State (<[output_file := data]> (fs st)) (world st)
       (trace st ++
        [EWrite output_file data;
         EPrint (if Z.of_nat (length data) >=? src_size
                 then LogForced (Pathlib.name input_file) m
                 else LogOk (Pathlib.name input_file) m)])).
Proof.
  intros Hd Hgo Hsz. unfold final_save_decision. rewrite Hd, Hgo.
  unfold bind at 1. cbn [write_bytes].
  unfold bind at 1. apply Z.eqb_neq in Hsz. rewrite Hsz. cbn [ret].
  unfold bind at 1.
  destruct (Z.of_nat (length data) >=? src_size); unfold print, emit;
    cbn [fs world trace]; rewrite <- app_assoc; reflexivity.
Qed.

(** Lines 314-317. *)
Lemma final_save_retain input_file src_root dst_root output_file args src_size
    data m st :
  truthy data = true ->
  src_size <= Z.of_nat (length data) ->
  force_jxl args = false ->
  final_save_decision E input_file src_root dst_root output_file args src_size
    data m st =
  copy_original E input_file src_root dst_root "JXL larger & no force" st.
Proof.
  intros Hd Hsz Hforce. unfold final_save_decision. rewrite Hd, Hforce.
  replace (Z.of_nat (length data) <? src_size) with false
    by (symmetry; apply Z.ltb_ge; exact Hsz).
  reflexivity.
Qed.

Lemma prologue_Some fuel input_file src_root dst_root args st output_file
    src_size st1 :
  prologue E fuel input_file src_root dst_root args st
    = (Ok (Some (output_file, src_size)), st1) ->
  exists rel rel_jxl content,
    Pathlib.relative_to input_file src_root = Some rel
    /\ Pathlib.with_suffix rel ".jxl" = Some rel_jxl
    /\ output_file = Pathlib.joinpath dst_root rel_jxl
    /\ fs st !! input_file = Some content
    /\ src_size = Z.of_nat (length content)
    /\ fs st1 = fs st
    /\ grows prologue_event st st1.
Proof.
  intros Hrun.
  assert (Hgrow : grows prologue_event st st1).
  { pose proof (only_prologue prologue_event fuel input_file src_root dst_root args
                  ltac:(simpl; auto) ltac:(simpl; auto) ltac:(simpl; auto) st) as H.
    rewrite Hrun in H. exact H. }
  assert (Hfs : fs st1 = fs st).
  { apply grows_no_write_fs. eapply grows_mono; [| exact Hgrow].
    intros []; simpl; auto. }
  revert Hrun. unfold prologue, relative_to, with_suffix.
  destruct (Pathlib.relative_to input_file src_root) as [rel |] eqn:Hrel;
    [| discriminate].
  unfold bind at 1. cbn [ret].
  destruct (Pathlib.with_suffix rel ".jxl") as [rel_jxl |] eqn:Hjxl;
    [| discriminate].
  unfold bind at 1. cbn [ret]. unfold bind at 1.
  destruct (conflict_resolution _ _ _ _ _ _) as [[[] | e |] sa] eqn:Hcr;
    cbn [negb]; try discriminate.
  unfold bind at 1. cbn [mkdir emit]. unfold bind at 1, stat_size.
  unfold bind at 1, read_bytes. cbn [fs].
  assert (Hsa : fs sa = fs st).
  { pose proof (only_conflict_resolution no_write fuel input_file
                  (Pathlib.joinpath dst_root rel_jxl) args
                  ltac:(simpl; auto) ltac:(simpl; auto) st) as H.
    rewrite Hcr in H. apply grows_no_write_fs in H. exact H. }
  rewrite Hsa. destruct (fs st !! input_file) as [content |]; [| discriminate].
  cbn. intros [= <- <- <-]. exists rel, rel_jxl, content.
  repeat split; try reflexivity; assumption.
Qed.

End Effects.

(** ** How the search is left *)

Section Exits.
Context {E : Env}.
Implicit Types (st : state E).

Lemma encoder_event_no_write input_file q e :
  encoder_event input_file q e -> no_write e.
Proof. destruct e; simpl; auto. Qed.

Lemma grows_marker q st : grows no_write st (snd (emit (EAttempt q) st)).
Proof. apply only_emit; [discriminate | exact I]. Qed.

(** A search left by [break] wrote nothing, and its payload is not empty. *)
Lemma quality_search_Break fuel input_file src_root dst_root args is_heic is_jpeg
    src_size minq :
  forall q st data m st',
    quality_search E fuel input_file src_root dst_root args is_heic is_jpeg
      src_size minq q st = (Ok (Break data m), st') ->
    truthy data = true /\ grows no_write st st'.
Proof.
  induction fuel as [| fuel IH]; intros q st data m st'; [discriminate |].
  rewrite quality_search_S.
  destruct (encode_attempt _ _ _ _ _ _ _ _ _) as [[[[d' m'] |] | e |] st1] eqn:Hea;
    try discriminate.
  assert (Hg : grows no_write st st1).
  { eapply grows_trans; [apply (grows_marker q) |].
    eapply grows_mono; [| eapply encode_attempt_Some; exact Hea].
    intros e. apply encoder_event_no_write. }
  destruct (truthy d') eqn:Hd.
  - destruct (_ <? _); [intros [= <- <- <-]; auto |].
    destruct (_ >? _); [| intros [= <- <- <-]; auto].
    intros H. apply IH in H as [? ?]. split; [assumption |].
    eapply grows_trans; eassumption.
  - intros H. apply IH in H as [? ?]. split; [assumption |].
    eapply grows_trans; eassumption.
Qed.

(** A search left by [return] wrote nothing before the handler of the hard
    failure ran; the failing pass is its last. *)
Lemma quality_search_Return fuel input_file src_root dst_root args is_heic is_jpeg
    src_size minq :
  forall q st st',
    quality_search E fuel input_file src_root dst_root args is_heic is_jpeg
      src_size minq q st = (Ok Return, st') ->
    exists q' e1 e2 sa sb,
      grows no_write st sa
      /\ primary_strategies E input_file args is_heic is_jpeg q' sa = (Raise e1, sb) /\
      exists sc,
        universal_fallback E input_file args q' sb = (Raise e2, sc)
        /\ grows no_write st sc
        /\ hard_failure E input_file src_root dst_root args e1 e2 sc = (Ok tt, st').
Proof.
  induction fuel as [| fuel IH]; intros q st st'; [discriminate |].
  rewrite quality_search_S.
  destruct (encode_attempt _ _ _ _ _ _ _ _ _) as [[[[d' m'] |] | e |] st1] eqn:Hea;
    try discriminate.
  - assert (Hg : grows no_write st st1).
    { eapply grows_trans; [apply (grows_marker q) |].
      eapply grows_mono; [| eapply encode_attempt_Some; exact Hea].
      intros e. apply encoder_event_no_write. }
    assert (Hrec : forall q1,
              quality_search E fuel input_file src_root dst_root args is_heic
                is_jpeg src_size minq q1 st1 = (Ok Return, st') ->
              exists q' e1 e2 sa sb,
                grows no_write st sa
                /\ primary_strategies E input_file args is_heic is_jpeg q' sa
                   = (Raise e1, sb) /\
                exists sc,
                  universal_fallback E input_file args q' sb = (Raise e2, sc)
                  /\ grows no_write st sc
                  /\ hard_failure E input_file src_root dst_root args e1 e2 sc
                     = (Ok tt, st')).
    { intros q1 H. apply IH in H as (q' & e1 & e2 & sa & sb & Ha & Hp & sc & Hf & Hc & Hh).
      exists q', e1, e2, sa, sb. split; [eapply grows_trans; eassumption |].
      split; [exact Hp |]. exists sc. split; [exact Hf |].
      split; [eapply grows_trans; eassumption | exact Hh]. }
    destruct (truthy d'); [| apply Hrec].
    destruct (_ <? _); [discriminate |].
    destruct (_ >? _); [apply Hrec | discriminate].
  - intros [= <-].
    apply encode_attempt_failed in Hea; [| discriminate].
    destruct Hea as [[? _] | (e1 & e2 & sa & sb & r0 & Hp & Hf & Hg & Hh & Hr)];
      [discriminate |].
    exists q, e1, e2, (snd (emit (EAttempt q) st)), sa.
    split; [apply grows_marker |]. split; [exact Hp |].
    exists sb. split; [exact Hf |]. split.
    + eapply grows_trans; [apply (grows_marker q) |].
      eapply grows_mono; [| exact Hg]. intros e. apply encoder_event_no_write.
    + destruct r0 as [[] | |]; try discriminate. exact Hh.
Qed.

End Exits.

(** ** The quality search: claims *)

Section SearchClaims.
Context {E : Env}.
Implicit Types (st : state E).

Lemma only_final_save_decision (P : event -> Prop) input_file src_root dst_root
    output_file args src_size data m :
  (forall c s r, P (ERun c s r)) -> (forall t b, P (EWhich t b)) ->
  (forall p, P (EMkdir p)) -> (forall l, P (EPrint l)) ->
  (forall p d, P (EWrite p d)) -> P (ECallMetadata input_file output_file) ->
  only P (final_save_decision E input_file src_root dst_root output_file args
            src_size data m).
Proof.
  intros Hrun Hwhich Hmk Hpr Hwr Hcall. unfold final_save_decision.
  destruct (truthy data); [| apply only_ret].
  destruct (_ || _)%bool; [| apply only_copy_original; auto].
  apply only_bind; [apply only_write_bytes, Hwr | intros _].
  apply only_bind; [destruct (src_size =? 0); [apply only_raise | apply only_ret] |].
  intros _. apply only_bind; [destruct (_ >=? _); apply only_print, Hpr |].
  intros _. apply only_copy_metadata; auto.
Qed.

Lemma calm_quality_ok lo hi e : calm e -> quality_ok lo hi e.
Proof. destruct e; simpl; auto; contradiction. Qed.

Lemma calm_attempt_qualities (t : list event) :
  Forall calm t -> attempt_qualities t = [].
Proof.
  intros H. apply attempt_qualities_none. eapply Forall_impl; [exact H |].
  intros []; simpl; auto.
Qed.

Lemma min_quality_levels args : min_quality args ∈ [75; 80; 85; 90].
Proof.
  unfold min_quality.
  destruct (compress_lq args), (compress_mq args), (compress_hq args);
    repeat (first [apply list_elem_of_here | apply list_elem_of_further]).
Qed.

Lemma process_file_qualities fuel input_file src_root dst_root args st :
  exists evs,
    trace (snd (process_file E fuel input_file src_root dst_root args st))
      = trace st ++ evs
    /\ Forall (quality_ok (min_quality args) 90) evs
    /\ StronglySorted (fun a b => b <= a) (attempt_qualities evs).
Proof.
  assert (Hnone : forall st1, grows calm st st1 ->
            exists evs, trace st1 = trace st ++ evs
              /\ Forall (quality_ok (min_quality args) 90) evs
              /\ StronglySorted (fun a b => b <= a) (attempt_qualities evs)).
  { intros st1 (ev & Ht & _ & Hc). exists ev. split; [exact Ht |]. split.
    - eapply Forall_impl; [exact Hc |]. intros e. apply calm_quality_ok.
    - rewrite calm_attempt_qualities by exact Hc. constructor. }
  unfold process_file. unfold bind at 1.
  pose proof (only_prologue calm fuel input_file src_root dst_root args
                ltac:(simpl; auto) ltac:(simpl; auto) ltac:(simpl; auto) st) as Hpro.
  destruct (prologue _ _ _ _ _ _ _) as [[[[output_file src_size] |] | e |] st1];
    cbn [snd] in Hpro; try (apply Hnone; exact Hpro).
  destruct Hpro as (ev1 & Ht1 & _ & Hc1).
  assert (Hmin : min_quality args mod 5 = 0 /\ min_quality args <= 90).
  { pose proof (min_quality_levels args) as H. apply list_elem_of_In in H.
    cbn in H. destruct H as [<- | [<- | [<- | [<- | []]]]]; split; try reflexivity; lia. }
  destruct Hmin as [Hmod Hle].
  destruct (quality_search_qualities fuel input_file src_root dst_root args
              (is_heic_ext (Pathlib.lower (Pathlib.suffix input_file)))
              (is_jpeg_ext (Pathlib.lower (Pathlib.suffix input_file)))
              src_size (min_quality args) Hmod 90 st1 eq_refl Hle)
    as (ev2 & Ht2 & Hok2 & Hs2).
  unfold bind at 1.
  destruct (quality_search _ _ _ _ _ _ _ _ _ _ _ _) as [[[data m |] | e |] st2];
    cbn [snd] in Ht2.
  2-4: exists (ev1 ++ ev2); cbn [snd ret]; rewrite Ht2, Ht1;
       (split; [symmetry; apply app_assoc |]);
       (split; [apply Forall_app; split;
                 [eapply Forall_impl; [exact Hc1 | intros e0; apply calm_quality_ok]
                 | exact Hok2]
               | rewrite attempt_qualities_app, (calm_attempt_qualities _ Hc1);
                 exact Hs2]).
  destruct (only_final_save_decision calm input_file src_root dst_root output_file
              args src_size data m ltac:(simpl; auto) ltac:(simpl; auto)
              ltac:(simpl; auto) ltac:(simpl; auto) ltac:(simpl; auto)
              ltac:(simpl; auto) st2) as (ev3 & Ht3 & _ & Hc3).
  exists (ev1 ++ ev2 ++ ev3). rewrite Ht3, Ht2, Ht1.
  split; [rewrite <- !app_assoc; reflexivity |]. split.
  - repeat (apply Forall_app; split); try exact Hok2;
      (eapply Forall_impl; [eassumption | intros e0; apply calm_quality_ok]).
  - rewrite !attempt_qualities_app, (calm_attempt_qualities _ Hc1),
      (calm_attempt_qualities _ Hc3), app_nil_r. exact Hs2.
Qed.

End SearchClaims.

(** ** Termination of the helpers *)

Section Termination.
Context {E : Env}.
Implicit Types (st : state E).

Lemma terminates_ret {A} (a : A) : terminates (ret (E := E) a).
Proof. intros st. discriminate. Qed.

Lemma terminates_raise {A} e : terminates (raise (E := E) (A := A) e).
Proof. intros st. discriminate. Qed.

Lemma terminates_bind {A B} (m : M E A) (k : A -> M E B) :
  terminates m -> (forall a, terminates (k a)) -> terminates (bind m k).
Proof.
  intros Hm Hk st. unfold bind. specialize (Hm st).
  destruct (m st) as [[a | e |] st1]; cbn in *;
    [apply Hk | discriminate | exfalso; apply Hm; reflexivity].
Qed.

Lemma terminates_try_except {A} (m : M E A) (h : exn -> M E A) :
  terminates m -> (forall e, terminates (h e)) -> terminates (try_except m h).
Proof.
  intros Hm Hh st. unfold try_except. specialize (Hm st).
  destruct (m st) as [[a | e |] st1]; cbn in *;
    [discriminate | apply Hh | exfalso; apply Hm; reflexivity].
Qed.

Lemma terminates_emit e : terminates (emit (E := E) e).
Proof. intros st. discriminate. Qed.

Lemma terminates_run cmd stdin : terminates (run E cmd stdin).
Proof.
  intros st. unfold run. destruct (subprocess_run E cmd stdin (world st)) as [[c |] w];
    discriminate.
Qed.

Lemma terminates_image_to_ppm p : terminates (image_to_ppm E p).
Proof.
  intros st. unfold image_to_ppm. destruct (pil_to_ppm E p (world st)) as [[d |] w];
    discriminate.
Qed.

Lemma terminates_read_bytes p : terminates (read_bytes E p).
Proof. intros st. unfold read_bytes. destruct (fs st !! p); discriminate. Qed.

Lemma terminates_run_cjxl_in_memory cmd args stdin :
  terminates (run_cjxl_in_memory E cmd args stdin).
Proof.
  unfold run_cjxl_in_memory.
  apply terminates_bind; [apply terminates_run | intros; apply terminates_ret].
Qed.

Lemma terminates_convert_via_pillow input_file args q :
  terminates (convert_via_pillow E input_file args q).
Proof.
  unfold convert_via_pillow.
  apply terminates_bind; [apply terminates_emit | intros _].
  destruct (negb (HAS_PILLOW E)); [apply terminates_raise |].
  apply terminates_try_except; [| intros; apply terminates_raise].
  apply terminates_bind; [apply terminates_image_to_ppm | intros ppm].
  apply terminates_bind; [apply terminates_run_cjxl_in_memory |].
  intros [[code data] err].
  destruct (negb (code =? 0)); [apply terminates_raise | apply terminates_ret].
Qed.

Lemma terminates_copy_original input_file src_root dst_root reason :
  terminates (copy_original E input_file src_root dst_root reason).
Proof.
  unfold copy_original, relative_to.
  apply terminates_bind;
    [destruct (Pathlib.relative_to _ _); [apply terminates_ret | apply terminates_raise] |].
  intros rel. apply terminates_bind; [apply terminates_emit | intros _].
  apply terminates_bind; [intros st; discriminate | intros present].
  apply terminates_bind; [| intros; apply terminates_emit].
  destruct (negb present); [| apply terminates_ret].
  apply terminates_bind; [apply terminates_read_bytes |].
  intros data st. discriminate.
Qed.

Lemma terminates_reencode input_file args q (m : method) :
  terminates
    (bind (run_cjxl_in_memory E (reencode_cmd input_file q) args None)
       (fun r => let '(code, data, err) := r in
                 if code =? 0 then ret (data, m)
                 else raise (RuntimeError (StandardCjxlFailed err)))).
Proof.
  apply terminates_bind; [apply terminates_run_cjxl_in_memory |].
  intros [[code data] err].
  destruct (code =? 0); [apply terminates_ret | apply terminates_raise].
Qed.

Lemma terminates_primary_strategies input_file args is_heic is_jpeg q :
  terminates (primary_strategies E input_file args is_heic is_jpeg q).
Proof.
  unfold primary_strategies. destruct is_heic.
  { apply terminates_bind; [apply terminates_convert_via_pillow |].
    intros; apply terminates_ret. }
  destruct is_jpeg; [destruct (q =? 90) |]; try apply terminates_reencode.
  apply terminates_bind; [apply terminates_run_cjxl_in_memory |].
  intros [[code data] err].
  destruct (code =? 0); [apply terminates_ret | apply terminates_reencode].
Qed.

Lemma terminates_universal_fallback input_file args q :
  terminates (universal_fallback E input_file args q).
Proof.
  unfold universal_fallback.
  apply terminates_bind;
    [destruct (q =? 90); [apply terminates_emit | apply terminates_ret] | intros _].
  apply terminates_bind; [apply terminates_convert_via_pillow |].
  intros; apply terminates_ret.
Qed.

Lemma terminates_hard_failure input_file src_root dst_root args e1 e2 :
  terminates (hard_failure E input_file src_root dst_root args e1 e2).
Proof.
  unfold hard_failure. apply terminates_bind; [apply terminates_emit | intros _].
  destruct (negb (force_jxl args));
    [apply terminates_copy_original | apply terminates_ret].
Qed.

Lemma terminates_encode_attempt input_file src_root dst_root args is_heic is_jpeg q :
  terminates (encode_attempt E input_file src_root dst_root args is_heic is_jpeg q).
Proof.
  unfold encode_attempt. apply terminates_try_except.
  { apply terminates_bind; [apply terminates_primary_strategies |].
    intros; apply terminates_ret. }
  intros e1. apply terminates_try_except.
  { apply terminates_bind; [apply terminates_universal_fallback |].
    intros; apply terminates_ret. }
  intros e2. apply terminates_bind; [apply terminates_hard_failure |].
  intros; apply terminates_ret.
Qed.

(** *** Payloads *)

Lemma returns_ret {A} (Q : A -> Prop) (a : A) : Q a -> returns Q (ret (E := E) a).
Proof. intros Ha st b st' [= <- <-]. exact Ha. Qed.

Lemma returns_raise {A} (Q : A -> Prop) e : returns Q (raise (E := E) e).
Proof. intros st b st'. discriminate. Qed.

Lemma returns_bind {A B} (R : A -> Prop) (Q : B -> Prop) (m : M E A)
    (k : A -> M E B) :
  returns R m -> (forall a, R a -> returns Q (k a)) -> returns Q (bind m k).
Proof.
  intros Hm Hk st b st'. unfold bind.
  destruct (m st) as [[a | e |] st1] eqn:Hrun; try discriminate.
  apply (Hk a (Hm _ _ _ Hrun)).
Qed.

Lemma returns_try_except {A} (Q : A -> Prop) (m : M E A) (h : exn -> M E A) :
  returns Q m -> (forall e, returns Q (h e)) -> returns Q (try_except m h).
Proof.
  intros Hm Hh st b st'. unfold try_except.
  destruct (m st) as [[a | e |] st1] eqn:Hrun; try discriminate.
  - intros [= <- <-]. exact (Hm _ _ _ Hrun).
  - apply Hh.
Qed.

Lemma returns_any {A} (m : M E A) : returns (fun _ => True) m.
Proof. intros st a st' _. exact I. Qed.

Section Nonempty.
Hypothesis Henv : payloads_nonempty E.

Lemma returns_run_cjxl_in_memory cmd args stdin :
  returns (fun r => r.1.1 = 0 -> r.1.2 <> [])
    (run_cjxl_in_memory E cmd args stdin).
Proof.
  unfold run_cjxl_in_memory.
  eapply returns_bind with (R := fun c => returncode c = 0 -> stdout c <> []).
  - intros st c st'. unfold run.
    destruct (subprocess_run E _ stdin (world st)) as [[c' |] w] eqn:Hrun;
      [| discriminate].
    intros [= <- <-]. eapply Henv. exact Hrun.
  - intros c Hc. apply returns_ret. exact Hc.
Qed.

Lemma returns_convert_via_pillow input_file args q :
  returns (fun d => d <> []) (convert_via_pillow E input_file args q).
Proof.
  unfold convert_via_pillow.
  eapply returns_bind; [apply returns_any | intros _ _].
  destruct (negb (HAS_PILLOW E)); [apply returns_raise |].
  apply returns_try_except; [| intros; apply returns_raise].
  eapply returns_bind; [apply returns_any | intros ppm _].
  eapply returns_bind; [apply returns_run_cjxl_in_memory |].
  intros [[code data] err] Hr. cbn in Hr.
  destruct (code =? 0) eqn:Hc; cbn; [| apply returns_raise].
  apply returns_ret. apply Hr. apply Z.eqb_eq. exact Hc.
Qed.

Lemma returns_reencode input_file args q (m : method) :
  returns (fun r : bytes * method => r.1 <> [])
    (bind (run_cjxl_in_memory E (reencode_cmd input_file q) args None)
       (fun r => let '(code, data, err) := r in
                 if code =? 0 then ret (data, m)
                 else raise (RuntimeError (StandardCjxlFailed err)))).
Proof.
  eapply returns_bind; [apply returns_run_cjxl_in_memory |].
  intros [[code data] err] Hr. cbn in Hr.
  destruct (code =? 0) eqn:Hc; [| apply returns_raise].
  apply returns_ret. apply Hr. apply Z.eqb_eq. exact Hc.
Qed.

Lemma returns_primary_strategies input_file args is_heic is_jpeg q :
  returns (fun r : bytes * method => r.1 <> [])
    (primary_strategies E input_file args is_heic is_jpeg q).
Proof.
  unfold primary_strategies. destruct is_heic.
  { eapply returns_bind; [apply returns_convert_via_pillow |].
    intros d Hd. apply returns_ret. exact Hd. }
  destruct is_jpeg; [destruct (q =? 90) |]; try apply returns_reencode.
  eapply returns_bind; [apply returns_run_cjxl_in_memory |].
  intros [[code data] err] Hr. cbn in Hr.
  destruct (code =? 0) eqn:Hc; [| apply returns_reencode].
  apply returns_ret. apply Hr. apply Z.eqb_eq. exact Hc.
Qed.

Lemma returns_universal_fallback input_file args q :
  returns (fun r : bytes * method => r.1 <> [])
    (universal_fallback E input_file args q).
Proof.
  unfold universal_fallback.
  eapply returns_bind; [apply returns_any | intros _ _].
  eapply returns_bind; [apply returns_convert_via_pillow |].
  intros d Hd. apply returns_ret. exact Hd.
Qed.

(** With such an encoder every payload of a pass passes [if jxl_data:]. *)
Lemma encode_attempt_truthy input_file src_root dst_root args is_heic is_jpeg q
    st data m st' :
  encode_attempt E input_file src_root dst_root args is_heic is_jpeg q st
    = (Ok (Some (data, m)), st') ->
  truthy data = true.
Proof.
  rewrite encode_attempt_unfold.
  destruct (primary_strategies _ _ _ _ _ _ _) as [[x | e1 |] sa] eqn:Hp;
    try discriminate.
  { intros [= -> <-]. apply returns_primary_strategies in Hp.
    destruct data; [contradiction | reflexivity]. }
  destruct (universal_fallback _ _ _ _ _) as [[x | e2 |] sb] eqn:Hf;
    try discriminate.
  { intros [= -> <-]. apply returns_universal_fallback in Hf.
    destruct data; [contradiction | reflexivity]. }
  destruct (hard_failure _ _ _ _ _ _ _ _) as [[[] | e |] sc]; discriminate.
Qed.

End Nonempty.

End Termination.

(** ** The payload of a pass is the output of its last encoder run *)

Section LastRun.
Context {E : Env}.
Implicit Types (st : state E).

Lemma run_outputs_app (t1 t2 : list event) :
  run_outputs (t1 ++ t2) = run_outputs t1 ++ run_outputs t2.
Proof. apply omap_app. Qed.

Lemma last_run_app (t1 t2 : list event) (d : bytes) :
  last (run_outputs t2) = Some d -> last (run_outputs (t1 ++ t2)) = Some d.
Proof. intros H. rewrite run_outputs_app, last_app, H. reflexivity. Qed.

Lemma extends_grows st st' :
  grows (fun _ => True) st st' -> exists evs, trace st' = trace st ++ evs.
Proof. intros (evs & Ht & _). exists evs. exact Ht. Qed.

Lemma ends_with_run_raise {A} (proj : A -> bytes) e :
  ends_with_run proj (raise (E := E) e).
Proof. intros st a st'. discriminate. Qed.

Lemma ends_with_run_after {A B} (proj : B -> bytes) (m : M E A) (k : A -> M E B) :
  only (fun _ => True) m -> (forall a, ends_with_run proj (k a)) ->
  ends_with_run proj (bind m k).
Proof.
  intros Hm Hk st b st'. unfold bind. specialize (Hm st).
  destruct (m st) as [[a | e |] s1]; try discriminate. cbn in Hm.
  intros Hrun. apply Hk in Hrun as (ev2 & Ht2 & Hl).
  apply extends_grows in Hm as (ev1 & Ht1).
  exists (ev1 ++ ev2). split; [rewrite Ht2, Ht1, app_assoc; reflexivity |].
  apply last_run_app. exact Hl.
Qed.

Lemma ends_with_run_try {A} (proj : A -> bytes) (m : M E A) (h : exn -> M E A) :
  ends_with_run proj m -> only (fun _ => True) m ->
  (forall e, ends_with_run proj (h e)) ->
  ends_with_run proj (try_except m h).
Proof.
  intros Hm Hext Hh st a st'. unfold try_except. specialize (Hext st).
  destruct (m st) as [[a' | e |] s1] eqn:Hrun; try discriminate.
  - intros [= <- <-]. apply (Hm _ _ _ Hrun).
  - cbn in Hext. intros Hrun'. apply Hh in Hrun' as (ev2 & Ht2 & Hl).
    apply extends_grows in Hext as (ev1 & Ht1).
    exists (ev1 ++ ev2). split; [rewrite Ht2, Ht1, app_assoc; reflexivity |].
    apply last_run_app. exact Hl.
Qed.

(** [run_cjxl_in_memory] followed by a continuation that returns the
    captured output on status 0 and raises otherwise. *)
Lemma ends_with_run_cjxl {A} (proj : A -> bytes) cmd args stdin
    (k : Z * bytes * string -> M E A) :
  (forall code data err,
      k (code, data, err) = raise (RuntimeError (StandardCjxlFailed err))
      \/ k (code, data, err) = raise (RuntimeError (CjxlFailedOnPillowOutput err))
      \/ exists a, k (code, data, err) = ret a /\ proj a = data) ->
  ends_with_run proj (bind (run_cjxl_in_memory E cmd args stdin) k).
Proof.
  intros Hk st a st'. unfold run_cjxl_in_memory, bind at 1 2, run.
  destruct (subprocess_run E _ stdin (world st)) as [[c |] w]; [| discriminate].
  cbn [ret].
  destruct (Hk (returncode c) (stdout c) (stderr c)) as [-> | [-> | (a' & -> & Ha)]];
    try discriminate.
  intros [= <- <-]. eexists [_]. split; [reflexivity |]. cbn. rewrite Ha.
  reflexivity.
Qed.

Lemma ends_with_run_reencode input_file args q (m : method) :
  ends_with_run (fun r : bytes * method => r.1)
    (bind (run_cjxl_in_memory E (reencode_cmd input_file q) args None)
       (fun r => let '(code, data, err) := r in
                 if code =? 0 then ret (data, m)
                 else raise (RuntimeError (StandardCjxlFailed err)))).
Proof.
  apply ends_with_run_cjxl. intros code data err.
  destruct (code =? 0); [right; right; eexists; split; reflexivity | left; reflexivity].
Qed.

Lemma ends_with_run_convert_via_pillow input_file args q :
  ends_with_run (fun d : bytes => d) (convert_via_pillow E input_file args q).
Proof.
  unfold convert_via_pillow.
  apply ends_with_run_after; [apply only_emit; [discriminate | exact I] | intros _].
  destruct (negb (HAS_PILLOW E)); [apply ends_with_run_raise |].
  apply ends_with_run_try; [| | intros; apply ends_with_run_raise].
  - apply ends_with_run_after; [apply only_image_to_ppm; auto | intros ppm].
    apply ends_with_run_cjxl. intros code data err.
    destruct (negb (code =? 0));
      [right; left; reflexivity | right; right; eexists; split; reflexivity].
  - apply only_bind; [apply only_image_to_ppm; auto | intros ppm].
    apply only_bind; [apply only_run_cjxl_in_memory; auto |].
    intros [[code data] err].
    destruct (negb (code =? 0)); [apply only_raise | apply only_ret].
Qed.

Lemma ends_with_run_labelled (m : M E bytes) (lbl : method) :
  ends_with_run (fun d : bytes => d) m ->
  ends_with_run (fun r : bytes * method => r.1) (bind m (fun d => ret (d, lbl))).
Proof.
  intros Hm st a st'. unfold bind.
  destruct (m st) as [[d | e |] s1] eqn:Hrun; try discriminate.
  intros [= <- <-]. apply (Hm _ _ _ Hrun).
Qed.

Lemma ends_with_run_primary_strategies input_file args is_heic is_jpeg q :
  ends_with_run (fun r : bytes * method => r.1)
    (primary_strategies E input_file args is_heic is_jpeg q).
Proof.
  unfold primary_strategies. destruct is_heic.
  { apply ends_with_run_labelled, ends_with_run_convert_via_pillow. }
  destruct is_jpeg; [destruct (q =? 90) |]; try apply ends_with_run_reencode.
  intros st a st'. unfold bind at 1.
  destruct (run_cjxl_in_memory _ _ _ _ _) as [[[[code data] err] | e |] s1] eqn:Hrun;
    try discriminate.
  destruct (code =? 0) eqn:Hcode.
  - revert Hrun. unfold run_cjxl_in_memory, bind, run.
    destruct (subprocess_run E _ None (world st)) as [[c |] w]; [| discriminate].
    intros [= <- <- <- <-] [= <- <-]. eexists [_]. split; reflexivity.
  - intros Hre. apply ends_with_run_reencode in Hre as (ev2 & Ht2 & Hl).
    pose proof (only_run_cjxl_in_memory (E := E) (fun _ => True)
                  (transcode_cmd input_file) args None (fun _ _ _ => I) st) as Hext.
    rewrite Hrun in Hext. cbn [snd] in Hext.
    apply extends_grows in Hext as (ev1 & Ht1).
    exists (ev1 ++ ev2). split; [rewrite Ht2, Ht1, app_assoc; reflexivity |].
    apply last_run_app. exact Hl.
Qed.

Lemma ends_with_run_universal_fallback input_file args q :
  ends_with_run (fun r : bytes * method => r.1)
    (universal_fallback E input_file args q).
Proof.
  unfold universal_fallback. apply ends_with_run_after.
  - destruct (q =? 90); [apply only_print; exact I | apply only_ret].
  - intros _. apply ends_with_run_labelled, ends_with_run_convert_via_pillow.
Qed.

Lemma encode_attempt_last_run input_file src_root dst_root args is_heic is_jpeg q
    st data m st' :
  encode_attempt E input_file src_root dst_root args is_heic is_jpeg q st
    = (Ok (Some (data, m)), st') ->
  exists evs, trace st' = trace st ++ evs /\ last (run_outputs evs) = Some data.
Proof.
  rewrite encode_attempt_unfold.
  destruct (primary_strategies _ _ _ _ _ _ _) as [[x | e1 |] sa] eqn:Hp;
    try discriminate.
  { intros [= -> <-]. apply (ends_with_run_primary_strategies _ _ _ _ _ _ _ _ Hp). }
  destruct (universal_fallback _ _ _ _ _) as [[x | e2 |] sb] eqn:Hf;
    try discriminate.
  { intros [= -> <-].
    apply ends_with_run_universal_fallback in Hf as (ev2 & Ht2 & Hl).
    pose proof (only_primary_strategies (E := E) (fun _ => True) input_file args
                  is_heic is_jpeg q (fun _ _ _ => I) (fun _ _ => I) I st) as Hext.
    rewrite Hp in Hext. cbn [snd] in Hext.
    apply extends_grows in Hext as (ev1 & Ht1).
    exists (ev1 ++ ev2). split; [rewrite Ht2, Ht1, app_assoc; reflexivity |].
    apply last_run_app. exact Hl. }
  destruct (hard_failure _ _ _ _ _ _ _ _) as [[[] | e |] sc]; discriminate.
Qed.

(** The payload a search is left with is the output of the last encoder
    run of that search. *)
Lemma quality_search_Break_last_run fuel input_file src_root dst_root args is_heic
    is_jpeg src_size minq :
  forall q st data m st',
    quality_search E fuel input_file src_root dst_root args is_heic is_jpeg
      src_size minq q st = (Ok (Break data m), st') ->
    exists evs, trace st' = trace st ++ evs /\ last (run_outputs evs) = Some data.
Proof.
  induction fuel as [| fuel IH]; intros q st data m st'; [discriminate |].
  rewrite quality_search_S.
  destruct (encode_attempt _ _ _ _ _ _ _ _ _) as [[[[d' m'] |] | e |] st1] eqn:Hea;
    try discriminate.
  pose proof (encode_attempt_last_run _ _ _ _ _ _ _ _ _ _ _ Hea) as (ev1 & Ht1 & Hl1).
  cbn [emit snd trace] in Ht1.
  assert (Hhere : exists evs, trace st1 = trace st ++ evs
                              /\ last (run_outputs evs) = Some d').
  { exists ([EAttempt q] ++ ev1). split; [rewrite Ht1, app_assoc; reflexivity |].
    apply last_run_app. exact Hl1. }
  assert (Hnext : forall q1,
            quality_search E fuel input_file src_root dst_root args is_heic is_jpeg
              src_size minq q1 st1 = (Ok (Break data m), st') ->
            exists evs, trace st' = trace st ++ evs
                        /\ last (run_outputs evs) = Some data).
  { intros q1 H. apply IH in H as (ev2 & Ht2 & Hl2).
    exists (([EAttempt q] ++ ev1) ++ ev2).
    split; [rewrite Ht2, Ht1, <- !app_assoc; reflexivity |].
    apply last_run_app. exact Hl2. }
  destruct (truthy d'); [| apply Hnext].
  destruct (_ <? _); [intros [= <- <- <-]; exact Hhere |].
  destruct (_ >? _); [apply Hnext | intros [= <- <- <-]; exact Hhere].
Qed.

End LastRun.

(** * The claims *)

(** C1. An iteration of the search that produced an encoded payload (the
    payload passes the test [if jxl_data:] of line 277) ends in one of
    three ways: a payload strictly smaller than the source is final and the
    loop is left; otherwise, above the floor, the quality drops by exactly
    5 and the loop goes on from the state the iteration left; otherwise the
    payload is final anyway and the loop is left. *)
Theorem quality_search_step (E : Env) (fuel : nat)
    (input_file src_root dst_root : path) (args : Args) (is_heic is_jpeg : bool)
    (src_size minq q : Z) (st st1 : state E) (jxl_data : bytes) (m : method) :
  encode_attempt E input_file src_root dst_root args is_heic is_jpeg q
    (snd (emit (EAttempt q) st)) = (Ok (Some (jxl_data, m)), st1) ->
  truthy jxl_data = true ->
  let jxl_size := Z.of_nat (length jxl_data) in
  let search fuel q :=
    quality_search E fuel input_file src_root dst_root args is_heic is_jpeg
      src_size minq q in
  (jxl_size < src_size -> search (S fuel) q st = (Ok (Break jxl_data m), st1))
  /\ (src_size <= jxl_size -> minq < q ->
      search (S fuel) q st = search fuel (q - 5) st1)
  /\ (src_size <= jxl_size -> q <= minq ->
      search (S fuel) q st = (Ok (Break jxl_data m), st1)).
Proof.
  intros Hea Hd jxl_size search. subst search. cbv beta.
  rewrite quality_search_S, Hea, Hd. fold jxl_size.
  split; [| split].
  - intros H. apply Z.ltb_lt in H. rewrite H. reflexivity.
  - intros H1 H2. apply Z.ltb_ge in H1. rewrite H1.
    replace (q >? minq) with true by (symmetry; apply Z.gtb_lt; lia).
    reflexivity.
  - intros H1 H2. apply Z.ltb_ge in H1. rewrite H1.
    replace (q >? minq) with false by (symmetry; rewrite Z.gtb_ltb; apply Z.ltb_ge; lia).
    reflexivity.
Qed.

Lemma quality_search_step_witness :
  let search fuel q :=
    quality_search Scenario.E_large fuel Scenario.png Scenario.src_root
      Scenario.dst_root Scenario.lq_args false false 3 75 q in
  let st := Fake.start Scenario.fresh Scenario.E_large tt in
  let st1 :=
    snd (encode_attempt Scenario.E_large Scenario.png Scenario.src_root
           Scenario.dst_root Scenario.lq_args false false 90
           (snd (emit (EAttempt 90) st))) in
  search 4%nat 90 st = search 3%nat 85 st1.
Proof.
  cbv zeta.
  refine (proj1 (proj2 (quality_search_step Scenario.E_large 3 Scenario.png
            Scenario.src_root Scenario.dst_root Scenario.lq_args false false
            3 75 90 _ _ Scenario.larger (DirectCJXL 90) _ _)) _ _).
  - vm_compute. reflexivity.
  - reflexivity.
  - vm_compute. discriminate.
  - lia.
Defined.

(** C2. Whatever the file and however the run ends, the quality levels of
    the encode attempts (the iterations of the search and the calls of the
    Pillow routine) are multiples of 5 between the floor and 90, the floor
    is 75, 80, 85 or 90, and the levels of successive iterations never
    increase. *)
Theorem quality_levels_invariant (E : Env) (fuel : nat)
    (input_file src_root dst_root : path) (args : Args) (st : state E) :
  min_quality args ∈ [75; 80; 85; 90]
  /\ exists evs,
      trace (snd (process_file E fuel input_file src_root dst_root args st))
        = trace st ++ evs
      /\ Forall (fun q => q mod 5 = 0 /\ min_quality args <= q <= 90)
           (attempt_qualities evs)
      /\ Forall (fun c => c.2 mod 5 = 0 /\ min_quality args <= c.2 <= 90)
           (pillow_calls evs)
      /\ StronglySorted (fun a b => b <= a) (attempt_qualities evs).
Proof.
  split; [apply min_quality_levels |].
  destruct (process_file_qualities (E := E) fuel input_file src_root dst_root args st)
    as (evs & Ht & Hok & Hs).
  exists evs. split; [exact Ht |]. split; [apply attempt_qualities_ok, Hok |].
  split; [apply pillow_calls_ok, Hok | exact Hs].
Qed.

(** The search is bounded when the encoder never exits with status 0 and
    an empty output: from quality [q] it makes at most
    [iterations_left minq q] iterations, and that much fuel is enough. *)
Lemma quality_search_bound (E : Env) (input_file src_root dst_root : path)
    (args : Args) (is_heic is_jpeg : bool) (src_size minq : Z) :
  payloads_nonempty E ->
  forall (fuel : nat) (q : Z) (st : state E),
  exists evs,
    trace (snd (quality_search E fuel input_file src_root dst_root args is_heic
                  is_jpeg src_size minq q st)) = trace st ++ evs
    /\ (length (attempt_qualities evs) <= iterations_left minq q)%nat
    /\ ((iterations_left minq q <= fuel)%nat ->
        fst (quality_search E fuel input_file src_root dst_root args is_heic
               is_jpeg src_size minq q st) <> Diverge).
Proof.
  intros Henv. induction fuel as [| fuel IH]; intros q st.
  { exists []. cbn. rewrite app_nil_r. split; [reflexivity |].
    split; [lia |]. unfold iterations_left. lia. }
  rewrite quality_search_S. cbn [emit snd].
  set (st0 := State (fs st) (world st) (trace st ++ [EAttempt q])).
  destruct (only_encode_attempt input_file src_root dst_root args is_heic is_jpeg
              q st0) as (ev1 & Ht1 & _ & HP1).
  assert (Hq1 : attempt_qualities ev1 = []).
  { apply attempt_qualities_none. eapply Forall_impl; [exact HP1 |].
    intros e. apply attempt_event_no_attempt. }
  pose proof (terminates_encode_attempt input_file src_root dst_root args is_heic
                is_jpeg q st0) as Hterm.
  assert (Hone : (1 <= iterations_left minq q)%nat) by (unfold iterations_left; lia).
  assert (Hhere : forall r : result loop_exit, r <> Diverge ->
            exists evs,
              trace (snd (encode_attempt E input_file src_root dst_root args
                            is_heic is_jpeg q st0)) = trace st ++ evs
              /\ (length (attempt_qualities evs) <= iterations_left minq q)%nat
              /\ ((iterations_left minq q <= S fuel)%nat -> r <> Diverge)).
  { intros r Hr. exists (EAttempt q :: ev1). rewrite Ht1. cbn [trace st0].
    split; [rewrite <- app_assoc; reflexivity |]. split; [| intros _; exact Hr].
    change (EAttempt q :: ev1) with ([EAttempt q] ++ ev1).
    rewrite attempt_qualities_app, Hq1. cbn. exact Hone. }
  destruct (encode_attempt _ _ _ _ _ _ _ _ _) as [[[[d m] |] | e |] st1] eqn:Hea;
    cbn [fst snd] in *.
  - rewrite (encode_attempt_truthy Henv _ _ _ _ _ _ _ _ _ _ _ Hea).
    destruct (_ <? _); [apply Hhere; discriminate |].
    destruct (q >? minq) eqn:Hgt; [| apply Hhere; discriminate].
    destruct (IH (q - 5) st1) as (ev2 & Ht2 & Hlen & Hdiv).
    assert (Hstep : (iterations_left minq (q - 5) + 1 = iterations_left minq q)%nat).
    { unfold iterations_left.
      replace (q - 5 - minq + 4) with (q - minq + 4 + (-1) * 5) by lia.
      rewrite Z.div_add by lia.
      assert (1 <= (q - minq + 4) / 5) by (apply Z.div_le_lower_bound; lia).
      lia. }
    exists (EAttempt q :: ev1 ++ ev2). rewrite Ht2, Ht1. cbn [trace st0].
    split; [rewrite <- !app_assoc; reflexivity |]. split.
    + change (EAttempt q :: ev1 ++ ev2) with ([EAttempt q] ++ ev1 ++ ev2).
      rewrite !attempt_qualities_app, Hq1. cbn. lia.
    + intros Hfuel. apply Hdiv. lia.
  - apply Hhere. discriminate.
  - apply Hhere. discriminate.
  - exfalso. apply Hterm. reflexivity.
Qed.

Lemma iterations_left_90 (args : Args) :
  Z.of_nat (iterations_left (min_quality args) 90) = (90 - min_quality args) / 5 + 1.
Proof.
  unfold min_quality.
  destruct (compress_lq args), (compress_mq args), (compress_hq args); reflexivity.
Qed.

(** With an encoder whose successful runs always yield a payload, the
    search of [process_file] stops within [(90 - floor) / 5 + 1]
    iterations. *)
Theorem search_terminates_with_payloads (E : Env) (fuel : nat)
    (input_file src_root dst_root : path) (args : Args) (is_heic is_jpeg : bool)
    (src_size : Z) (st : state E) :
  payloads_nonempty E ->
  let r := quality_search E fuel input_file src_root dst_root args is_heic is_jpeg
             src_size (min_quality args) 90 st in
  exists evs,
    trace (snd r) = trace st ++ evs
    /\ Z.of_nat (length (attempt_qualities evs)) <= (90 - min_quality args) / 5 + 1
    /\ ((90 - min_quality args) / 5 + 1 <= Z.of_nat fuel -> fst r <> Diverge).
Proof.
  intros Henv r. subst r.
  destruct (quality_search_bound E input_file src_root dst_root args is_heic is_jpeg
              src_size (min_quality args) Henv fuel 90 st) as (evs & Ht & Hlen & Hdiv).
  exists evs. rewrite <- iterations_left_90.
  split; [exact Ht |]. split; [lia |]. intros Hfuel. apply Hdiv. lia.
Qed.

Lemma empty_payload_iteration (st : state Scenario.E_empty) :
  encode_attempt Scenario.E_empty Scenario.png Scenario.src_root Scenario.dst_root
    Fake.default_args false false 90 st
  = (Ok (Some ([], DirectCJXL 90)),
     State (fs st) (world st)
       (trace st ++
        [ERun ["cjxl"; "--num_threads"; "12"; "photos/a.png"; "-"; "--quality";
               "90"; "--lossless_jpeg=0"; "--effort"; "7"]%string None
           (Fake.exit_ok [])])).
Proof. reflexivity. Qed.

Lemma empty_payload_search (fuel : nat) (st : state Scenario.E_empty) :
  let r := quality_search Scenario.E_empty fuel Scenario.png Scenario.src_root
             Scenario.dst_root Fake.default_args false false 3 90 90 st in
  fst r = Diverge
  /\ attempt_qualities (trace (snd r)) = attempt_qualities (trace st) ++ repeat 90 fuel.
Proof.
  revert st. induction fuel as [| fuel IH]; intros st.
  { cbn. rewrite app_nil_r. split; reflexivity. }
  cbv zeta. rewrite quality_search_S, empty_payload_iteration. cbn [truthy].
  destruct (IH (State (fs (snd (emit (EAttempt 90) st))) (world (snd (emit (EAttempt 90) st)))
                  (trace (snd (emit (EAttempt 90) st)) ++
                   [ERun ["cjxl"; "--num_threads"; "12"; "photos/a.png"; "-";
                          "--quality"; "90"; "--lossless_jpeg=0"; "--effort"; "7"]%string
                      None (Fake.exit_ok [])]))) as [Hd Hq].
  split; [exact Hd |]. rewrite Hq. cbn [trace emit snd].
  rewrite !attempt_qualities_app. cbn. rewrite app_nil_r, <- app_assoc. reflexivity.
Qed.

(** C3 (the code departs from the claim). With the default floor of 90
    the claim allows one iteration. For an encoder that exits with status 0
    and an empty standard output the test [if jxl_data:] of line 277 fails,
    neither [break] nor the quality step is reached, and the [while True]
    repeats at quality 90: whatever the fuel, the run is still in the loop
    and has made as many attempts as it had fuel. *)
Theorem empty_payload_never_terminates (fuel : nat) :
  let r := process_file Scenario.E_empty fuel Scenario.png Scenario.src_root
             Scenario.dst_root Fake.default_args
             (Fake.start Scenario.fresh Scenario.E_empty tt) in
  (90 - min_quality Fake.default_args) / 5 + 1 = 1
  /\ fst r = Diverge
  /\ attempt_qualities (trace (snd r)) = repeat 90 fuel.
Proof.
  cbv zeta. split; [reflexivity |].
  assert (Hpro : prologue Scenario.E_empty fuel Scenario.png Scenario.src_root
                   Scenario.dst_root Fake.default_args
                   (Fake.start Scenario.fresh Scenario.E_empty tt)
                 = (Ok (Some (["out"; "a.jxl"]%string, 3)),
                    State (E := Scenario.E_empty) Scenario.fresh tt [EMkdir ["out"]%string])).
  { destruct fuel; reflexivity. }
  destruct (empty_payload_search fuel
              (State (E := Scenario.E_empty) Scenario.fresh tt [EMkdir ["out"]%string]))
    as [Hd Hq].
  assert (Hrun : process_file Scenario.E_empty fuel Scenario.png Scenario.src_root
                   Scenario.dst_root Fake.default_args
                   (Fake.start Scenario.fresh Scenario.E_empty tt)
                 = (Diverge,
                    snd (quality_search Scenario.E_empty fuel Scenario.png
                           Scenario.src_root Scenario.dst_root Fake.default_args
                           false false 3 90 90
                           (State (E := Scenario.E_empty) Scenario.fresh tt
                              [EMkdir ["out"]%string])))).
  { unfold process_file, bind. rewrite Hpro.
    change (is_heic_ext (Pathlib.lower (Pathlib.suffix Scenario.png))) with false.
    change (is_jpeg_ext (Pathlib.lower (Pathlib.suffix Scenario.png))) with false.
    change (min_quality Fake.default_args) with 90.
    destruct (quality_search _ _ _ _ _ _ _ _ _ _ _ _) as [[x | e |] st2];
      cbn [fst snd] in *; try discriminate. reflexivity. }
  rewrite Hrun. split; [reflexivity | exact Hq].
Qed.

(** C4. The strategies tried first are a function of the lowercase
    extension and the current quality alone: the primary attempt of
    [process_file] is the run, in order and up to the first success, of the
    list [select_strategies ext q], and that list is the fallback
    decode-and-re-encode alone for HEIC/HEIF, lossless transcode then
    quality re-encode for the JPEG family at quality 90, quality re-encode
    alone for the JPEG family at any other quality and for every other
    extension. *)
Theorem strategy_selection (E : Env) (input_file : path) (args : Args)
    (ext : string) (q : Z) (st : state E) :
  primary_strategies E input_file args (is_heic_ext ext) (is_jpeg_ext ext) q st
    = exec_strategies E input_file args ext q (select_strategies ext q) st
  /\ (ext ∈ [".heic"; ".heif"]%string ->
      select_strategies ext q = [FallbackDecodeEncode])
  /\ (ext ∈ [".jpg"; ".jpeg"; ".jfif"; ".pjpeg"; ".pjp"]%string -> q = 90 ->
      select_strategies ext q = [LosslessTranscode; QualityReencode])
  /\ (ext ∈ [".jpg"; ".jpeg"; ".jfif"; ".pjpeg"; ".pjp"]%string -> q <> 90 ->
      select_strategies ext q = [QualityReencode])
  /\ (ext ∉ [".heic"; ".heif"]%string ->
      ext ∉ [".jpg"; ".jpeg"; ".jfif"; ".pjpeg"; ".pjp"]%string ->
      select_strategies ext q = [QualityReencode]).
Proof.
  assert (Hre : forall st0 : state E,
            bind (run_cjxl_in_memory E (reencode_cmd input_file q) args None)
              (fun r => let '(code, data, err) := r in
                        if code =? 0
                        then ret (data, if is_jpeg_ext ext then JPEGReEncode q
                                        else DirectCJXL q)
                        else raise (RuntimeError (StandardCjxlFailed err))) st0
            = exec_strategies E input_file args ext q [QualityReencode] st0).
  { intros st0. cbn [exec_strategies run_strategy]. unfold bind.
    destruct (run_cjxl_in_memory _ _ _ _ _) as [[[[code data] err] | e |] st1];
      try reflexivity.
    destruct (code =? 0); reflexivity. }
  split; [| repeat split].
  - unfold select_strategies, primary_strategies.
    unfold is_heic_ext at 1.
    destruct (bool_decide (ext ∈ [".heic"; ".heif"]%string)).
    { cbn [exec_strategies run_strategy]. unfold bind.
      destruct (convert_via_pillow _ _ _ _ _) as [[d | e |] st1]; reflexivity. }
    unfold is_jpeg_ext at 1.
    destruct (bool_decide (ext ∈ [".jpg"; ".jpeg"; ".jfif"; ".pjpeg"; ".pjp"]%string))
      eqn:Hj.
    + assert (Hjpeg : is_jpeg_ext ext = true) by exact Hj.
      destruct (q =? 90).
      * change (exec_strategies E input_file args ext q
                  [LosslessTranscode; QualityReencode] st)
          with (bind (run_strategy E input_file args ext q LosslessTranscode)
                  (fun r => match r with
                            | inl attempt => ret attempt
                            | inr _ => exec_strategies E input_file args ext q
                                         [QualityReencode]
                            end) st).
        cbn [run_strategy]. unfold bind at 1 3 4.
        destruct (run_cjxl_in_memory _ _ _ _ _) as [[[[code data] err] | e |] st1];
          try reflexivity.
        destruct (code =? 0); [reflexivity |]. cbn [ret]. rewrite <- Hre, Hjpeg.
        reflexivity.
      * rewrite <- Hre, Hjpeg. reflexivity.
    + assert (Hjpeg : is_jpeg_ext ext = false) by exact Hj.
      rewrite <- Hre, Hjpeg. reflexivity.
  - intros H. unfold select_strategies. rewrite bool_decide_eq_true_2 by exact H.
    reflexivity.
  - intros H ->. apply list_elem_of_In in H. cbn in H.
    destruct H as [<- | [<- | [<- | [<- | [<- | []]]]]]; reflexivity.
  - intros H Hq. apply Z.eqb_neq in Hq. unfold select_strategies. rewrite Hq.
    apply list_elem_of_In in H. cbn in H.
    destruct H as [<- | [<- | [<- | [<- | [<- | []]]]]]; reflexivity.
  - intros H1 H2. unfold select_strategies.
    rewrite !bool_decide_eq_false_2 by assumption. reflexivity.
Qed.

(** ** [process_file] by stages *)

Section Stages.
Context {E : Env}.
Implicit Types (st : state E).

Lemma process_file_skipped fuel input_file src_root dst_root args st st1 :
  prologue E fuel input_file src_root dst_root args st = (Ok None, st1) ->
  process_file E fuel input_file src_root dst_root args st = (Ok tt, st1).
Proof. intros Hpro. unfold process_file, bind. rewrite Hpro. reflexivity. Qed.

Lemma process_file_Break fuel input_file src_root dst_root args st output_file
    src_size st1 data m st2 :
  prologue E fuel input_file src_root dst_root args st
    = (Ok (Some (output_file, src_size)), st1) ->
  quality_search E fuel input_file src_root dst_root args
    (is_heic_ext (Pathlib.lower (Pathlib.suffix input_file)))
    (is_jpeg_ext (Pathlib.lower (Pathlib.suffix input_file)))
    src_size (min_quality args) 90 st1 = (Ok (Break data m), st2) ->
  process_file E fuel input_file src_root dst_root args st
  = final_save_decision E input_file src_root dst_root output_file args src_size
      data m st2.
Proof.
  intros Hpro Hsearch. unfold process_file, bind. rewrite Hpro, Hsearch.
  reflexivity.
Qed.

Lemma process_file_Return fuel input_file src_root dst_root args st output_file
    src_size st1 st2 :
  prologue E fuel input_file src_root dst_root args st
    = (Ok (Some (output_file, src_size)), st1) ->
  quality_search E fuel input_file src_root dst_root args
    (is_heic_ext (Pathlib.lower (Pathlib.suffix input_file)))
    (is_jpeg_ext (Pathlib.lower (Pathlib.suffix input_file)))
    src_size (min_quality args) 90 st1 = (Ok Return, st2) ->
  process_file E fuel input_file src_root dst_root args st = (Ok tt, st2).
Proof.
  intros Hpro Hsearch. unfold process_file, bind. rewrite Hpro, Hsearch.
  reflexivity.
Qed.

Lemma prologue_event_no_write e : prologue_event e -> no_write e.
Proof. destruct e; simpl; auto. Qed.

Lemma no_write_other (p : path) (t : list event) :
  Forall no_write t ->
  Forall (fun e => match e with EWrite p' _ => p' <> p | _ => True end) t.
Proof.
  intros H. eapply Forall_impl; [exact H |]. intros []; simpl; auto; contradiction.
Qed.

(** A file whose search ends with a payload, for a source that is not
    empty: when the payload is smaller or output is forced, [process_file]
    writes exactly that payload to the destination, reports [[OK]] or
    [[FORCED]], and goes on with [copy_metadata] on the new file; the
    payload is the output of the last encoder run of the search. *)
Theorem final_payload_is_persisted fuel input_file src_root dst_root args st
    output_file src_size st1 data m st2 :
  prologue E fuel input_file src_root dst_root args st
    = (Ok (Some (output_file, src_size)), st1) ->
  quality_search E fuel input_file src_root dst_root args
    (is_heic_ext (Pathlib.lower (Pathlib.suffix input_file)))
    (is_jpeg_ext (Pathlib.lower (Pathlib.suffix input_file)))
    src_size (min_quality args) 90 st1 = (Ok (Break data m), st2) ->
  Z.of_nat (length data) < src_size \/ force_jxl args = true ->
  src_size <> 0 ->
  process_file E fuel input_file src_root dst_root args st
  = copy_metadata E input_file output_file
      (State (<[output_file := data]> (fs st2)) (world st2)
         (trace st2 ++
          [EWrite output_file data;
           EPrint (if Z.of_nat (length data) >=? src_size
                   then LogForced (Pathlib.name input_file) m
                   else LogOk (Pathlib.name input_file) m)]))
  /\ exists evs, trace st2 = trace st1 ++ evs /\ last (run_outputs evs) = Some data.
Proof.
  intros Hpro Hsearch Hgo Hsz. split.
  - rewrite (process_file_Break _ _ _ _ _ _ _ _ _ _ _ _ Hpro Hsearch).
    apply quality_search_Break in Hsearch as [Hd _].
    apply final_save_persist; [exact Hd | | exact Hsz].
    apply orb_true_iff. destruct Hgo as [Hlt | Hf];
      [left; apply Z.ltb_lt, Hlt | right; exact Hf].
  - eapply quality_search_Break_last_run. exact Hsearch.
Qed.

End Stages.

(** C5 (the code departs from the claim). An empty source file, forced
    output, and an encoder that yields a payload: the payload is written to
    the destination, then the percentage of line 300 divides by the source
    size and [process_file] raises ZeroDivisionError; no [[FORCED]] line is
    printed and [copy_metadata] is never called. *)
Theorem empty_source_forced_save_raises :
  process_file Scenario.E_large 1 Scenario.png Scenario.src_root Scenario.dst_root
    Scenario.force_args (Fake.start Scenario.empty_source Scenario.E_large tt)
  = (Raise ZeroDivisionError,
     State (E := Scenario.E_large)
       (<[ ["out"; "a.jxl"]%string := Scenario.larger ]> Scenario.empty_source) tt
       [EMkdir ["out"]%string;
        EAttempt 90;
        ERun ["cjxl"; "--num_threads"; "12"; "photos/a.png"; "-"; "--quality"; "90";
              "--lossless_jpeg=0"; "--effort"; "7"]%string None
          (Fake.exit_ok Scenario.larger);
        EWrite ["out"; "a.jxl"]%string Scenario.larger]).
Proof. vm_compute. reflexivity. Qed.

(** C6, as the code has it. A file (with an extension of [IMAGE_EXTS])
    whose final payload is not smaller than the source, equal sizes
    included, without forced output: nothing is written to the [.jxl]
    destination, the last line reports [[COPY]] with the reason
    "JXL larger & no force", and the original's bytes are written to the
    corresponding path of the destination tree when no file exists there;
    a file that already exists there is left as it is. *)
Theorem larger_output_is_discarded (E : Env) (fuel : nat)
    (input_file src_root dst_root : path) (args : Args) (st st1 st2 : state E)
    (output_file : path) (src_size : Z) (data : bytes) (m : method) :
  Pathlib.lower (Pathlib.suffix input_file) ∈ IMAGE_EXTS ->
  prologue E fuel input_file src_root dst_root args st
    = (Ok (Some (output_file, src_size)), st1) ->
  quality_search E fuel input_file src_root dst_root args
    (is_heic_ext (Pathlib.lower (Pathlib.suffix input_file)))
    (is_jpeg_ext (Pathlib.lower (Pathlib.suffix input_file)))
    src_size (min_quality args) 90 st1 = (Ok (Break data m), st2) ->
  src_size <= Z.of_nat (length data) ->
  force_jxl args = false ->
  exists rel content st3 evs,
    Pathlib.relative_to input_file src_root = Some rel
    /\ fs st !! input_file = Some content
    /\ process_file E fuel input_file src_root dst_root args st = (Ok tt, st3)
    /\ trace st3 = trace st ++ evs
    /\ writes_to output_file evs = []
    /\ fs st3 !! output_file = fs st !! output_file
    /\ last (printed evs)
       = Some (LogCopy (Pathlib.name input_file) "JXL larger & no force")
    /\ (fs st !! Pathlib.joinpath dst_root rel = None ->
        fs st3 = <[Pathlib.joinpath dst_root rel := content]> (fs st))
    /\ (is_Some (fs st !! Pathlib.joinpath dst_root rel) -> fs st3 = fs st).
Proof.
  intros Hext Hpro Hsearch Hsz Hforce.
  rewrite (process_file_Break _ _ _ _ _ _ _ _ _ _ _ _ Hpro Hsearch).
  destruct (prologue_Some _ _ _ _ _ _ _ _ _ Hpro)
    as (rel & rel_jxl & content & Hrel & Hjxl & -> & Hin & -> & Hfs1 & ev1 & Ht1 & _ & Hp1).
  destruct (quality_search_Break _ _ _ _ _ _ _ _ _ _ _ _ _ _ Hsearch)
    as (Hd & ev2 & Ht2 & Hf2 & Hn2).
  assert (Hfs2 : fs st2 = fs st).
  { rewrite Hf2, replay_no_write by exact Hn2. exact Hfs1. }
  pose proof (retained_ne_output _ _ dst_root _ _ Hext Hrel Hjxl) as Hne.
  rewrite final_save_retain by assumption.
  assert (Hquiet : Forall (fun e => match e with
                                    | EWrite p' _ => p' <> Pathlib.joinpath dst_root rel_jxl
                                    | _ => True
                                    end) (ev1 ++ ev2)).
  { apply Forall_app. split; apply no_write_other; [| exact Hn2].
    eapply Forall_impl; [exact Hp1 |]. intros e. apply prologue_event_no_write. }
  exists rel, content.
  destruct (fs st !! Pathlib.joinpath dst_root rel) as [old |] eqn:Hkept.
  - rewrite (copy_original_present _ _ _ _ rel) by
      (try assumption; rewrite Hfs2, Hkept; eexists; reflexivity).
    eexists. eexists (ev1 ++ ev2 ++ [_; _]). split; [exact Hrel |].
    split; [exact Hin |]. split; [reflexivity |]. cbn [trace fs].
    split; [rewrite Ht2, Ht1, <- !app_assoc; reflexivity |].
    split; [rewrite app_assoc, writes_to_app, (writes_to_other _ _ Hquiet); reflexivity |].
    split; [rewrite Hfs2; reflexivity |].
    split; [rewrite app_assoc, printed_app; cbn; apply last_snoc |].
    split; [discriminate | intros _; exact Hfs2].
  - rewrite (copy_original_absent _ _ _ _ rel content) by
      (try assumption; rewrite Hfs2; assumption).
    eexists. eexists (ev1 ++ ev2 ++ [_; _; _]). split; [exact Hrel |].
    split; [exact Hin |]. split; [reflexivity |]. cbn [trace fs].
    split; [rewrite Ht2, Ht1, <- !app_assoc; reflexivity |].
    split.
    { rewrite app_assoc, writes_to_app, (writes_to_other _ _ Hquiet). cbn.
      rewrite bool_decide_eq_false_2 by exact Hne. reflexivity. }
    split; [rewrite Hfs2; apply lookup_insert_ne; exact Hne |].
    split.
    { rewrite app_assoc, printed_app. cbn.
      change [LogCopy (Pathlib.name input_file) "JXL larger & no force"]
        with ([] ++ [LogCopy (Pathlib.name input_file) "JXL larger & no force"]).
      rewrite app_assoc. apply last_snoc. }
    split; [intros _; rewrite Hfs2; reflexivity | intros [? ?]; discriminate].
Qed.

Lemma larger_output_is_discarded_witness :
  exists rel content st3 evs,
    Pathlib.relative_to Scenario.png Scenario.src_root = Some rel
    /\ fs (Fake.start Scenario.fresh Scenario.E_large tt) !! Scenario.png = Some content
    /\ process_file Scenario.E_large 1 Scenario.png Scenario.src_root
         Scenario.dst_root Fake.default_args
         (Fake.start Scenario.fresh Scenario.E_large tt) = (Ok tt, st3)
    /\ trace st3 = trace (Fake.start Scenario.fresh Scenario.E_large tt) ++ evs
    /\ writes_to ["out"; "a.jxl"]%string evs = []
    /\ fs st3 !! ["out"; "a.jxl"]%string
       = fs (Fake.start Scenario.fresh Scenario.E_large tt) !! ["out"; "a.jxl"]%string
    /\ last (printed evs)
       = Some (LogCopy (Pathlib.name Scenario.png) "JXL larger & no force")
    /\ (fs (Fake.start Scenario.fresh Scenario.E_large tt)
          !! Pathlib.joinpath Scenario.dst_root rel = None ->
        fs st3 = <[Pathlib.joinpath Scenario.dst_root rel := content]>
                   (fs (Fake.start Scenario.fresh Scenario.E_large tt)))
    /\ (is_Some (fs (Fake.start Scenario.fresh Scenario.E_large tt)
                   !! Pathlib.joinpath Scenario.dst_root rel) ->
        fs st3 = fs (Fake.start Scenario.fresh Scenario.E_large tt)).
Proof.
  refine (larger_output_is_discarded Scenario.E_large 1 Scenario.png
            Scenario.src_root Scenario.dst_root Fake.default_args
            (Fake.start Scenario.fresh Scenario.E_large tt) _ _
            ["out"; "a.jxl"]%string 3 Scenario.larger (DirectCJXL 90) _ _ _ _ _).
  - vm_compute. repeat (first [apply list_elem_of_here | apply list_elem_of_further]).
  - vm_compute. reflexivity.
  - vm_compute. reflexivity.
  - vm_compute. discriminate.
  - reflexivity.
Defined.

(** C6 as stated fails: the final payload (4 bytes) is not smaller than the
    source (3 bytes) and output is not forced, yet after the run the path
    of the original in the destination tree holds the file that was there
    before, not the original's bytes. *)
Lemma retained_original_not_verbatim :
  let st := Fake.start Scenario.occupied Scenario.E_large tt in
  let r := process_file Scenario.E_large 1 Scenario.png Scenario.src_root
             Scenario.dst_root Fake.default_args st in
  fst r = Ok tt
  /\ printed (trace (snd r)) = [LogCopy "a.png" "JXL larger & no force"]
  /\ fs st !! Scenario.png = Some Scenario.content
  /\ fs (snd r) !! ["out"; "a.png"]%string = Some Scenario.stale
  /\ Scenario.stale <> Scenario.content.
Proof.
  cbv zeta. repeat split; try (vm_compute; reflexivity). discriminate.
Qed.

Section HardFailure.
Context {E : Env}.
Implicit Types (st : state E).

Lemma hard_failure_forced input_file src_root dst_root args e1 e2 st :
  force_jxl args = true ->
  hard_failure E input_file src_root dst_root args e1 e2 st
  = (Ok tt, State (fs st) (world st)
              (trace st ++ [EPrint (LogError (Pathlib.name input_file) e1 e2)])).
Proof. intros Hf. unfold hard_failure, bind. rewrite Hf. reflexivity. Qed.

Lemma hard_failure_unforced input_file src_root dst_root args e1 e2 st :
  force_jxl args = false ->
  hard_failure E input_file src_root dst_root args e1 e2 st
  = copy_original E input_file src_root dst_root "Conversion Failed"
      (State (fs st) (world st)
         (trace st ++ [EPrint (LogError (Pathlib.name input_file) e1 e2)])).
Proof. intros Hf. unfold hard_failure, bind at 1. rewrite Hf. reflexivity. Qed.

Lemma only_hard_failure_calm input_file src_root dst_root args e1 e2 :
  only calm (hard_failure E input_file src_root dst_root args e1 e2).
Proof. apply only_hard_failure; simpl; auto. Qed.

(** A pass in which the strategies and then the fallback fail is the last
    one: the search is left with what the handler of lines 266-274 leaves. *)
Lemma double_failure_stops fuel input_file src_root dst_root args is_heic is_jpeg
    src_size minq q st sa sb e1 e2 :
  primary_strategies E input_file args is_heic is_jpeg q
    (snd (emit (EAttempt q) st)) = (Raise e1, sa) ->
  universal_fallback E input_file args q sa = (Raise e2, sb) ->
  let r := quality_search E (S fuel) input_file src_root dst_root args is_heic
             is_jpeg src_size minq q st in
  let h := hard_failure E input_file src_root dst_root args e1 e2 sb in
  r = (match fst h with
       | Ok _ => Ok Return
       | Raise e => Raise e
       | Diverge => Diverge
       end, snd h)
  /\ attempt_qualities (trace (snd r)) = attempt_qualities (trace st) ++ [q].
Proof.
  intros Hp Hf r h. subst r h.
  rewrite quality_search_S, encode_attempt_unfold, Hp, Hf.
  destruct (encoder_event_frames (E := E) input_file args is_heic is_jpeg q) as [Fp Ff].
  specialize (Fp (snd (emit (EAttempt q) st))). rewrite Hp in Fp.
  specialize (Ff sa). rewrite Hf in Ff.
  destruct Fp as (ev1 & Ht1 & _ & H1). destruct Ff as (ev2 & Ht2 & _ & H2).
  destruct (only_hard_failure_calm input_file src_root dst_root args e1 e2 sb)
    as (ev3 & Ht3 & _ & H3).
  assert (Hq : attempt_qualities (trace (snd (hard_failure E input_file src_root
                                                dst_root args e1 e2 sb)))
               = attempt_qualities (trace st) ++ [q]).
  { assert (Hn1 : attempt_qualities ev1 = []).
    { apply attempt_qualities_none. eapply Forall_impl; [exact H1 |].
      intros []; simpl; auto. }
    assert (Hn2 : attempt_qualities ev2 = []).
    { apply attempt_qualities_none. eapply Forall_impl; [exact H2 |].
      intros []; simpl; auto. }
    rewrite Ht3. cbn [snd] in Ht2, Ht1. rewrite Ht2, Ht1. cbn [emit snd trace].
    rewrite !attempt_qualities_app, (calm_attempt_qualities _ H3), Hn1, Hn2.
    rewrite !app_nil_r. reflexivity. }
  destruct (hard_failure _ _ _ _ _ _ _ _) as [[[] | e |] sc]; cbn [fst snd] in *;
    split; try reflexivity; exact Hq.
Qed.

End HardFailure.

(** C7, as the code has it. When at some quality level the primary
    strategies fail and the fallback fails too, that pass is the last one:
    the search is left at once with what the failure handler leaves, and no
    further quality is tried. For such a file (with an extension of
    [IMAGE_EXTS]) [process_file] returns after printing [[ERROR]]; nothing
    is written to the [.jxl] destination; with forced output no file is
    touched at all; without it the original's bytes are written to the
    corresponding path of the destination tree when no file exists there,
    and a file that already exists there is left as it is. *)
Theorem hard_failure_stops_processing (E : Env)
    (input_file src_root dst_root : path) (args : Args) :
  (forall (fuel : nat) (is_heic is_jpeg : bool) (src_size minq q : Z)
          (st sa sb : state E) (e1 e2 : exn),
      primary_strategies E input_file args is_heic is_jpeg q
        (snd (emit (EAttempt q) st)) = (Raise e1, sa) ->
      universal_fallback E input_file args q sa = (Raise e2, sb) ->
      let r := quality_search E (S fuel) input_file src_root dst_root args is_heic
                 is_jpeg src_size minq q st in
      let h := hard_failure E input_file src_root dst_root args e1 e2 sb in
      r = (match fst h with
           | Ok _ => Ok Return
           | Raise e => Raise e
           | Diverge => Diverge
           end, snd h)
      /\ attempt_qualities (trace (snd r)) = attempt_qualities (trace st) ++ [q])
  /\
  (forall (fuel : nat) (st st1 st2 : state E) (output_file : path) (src_size : Z),
      Pathlib.lower (Pathlib.suffix input_file) ∈ IMAGE_EXTS ->
      prologue E fuel input_file src_root dst_root args st
        = (Ok (Some (output_file, src_size)), st1) ->
      quality_search E fuel input_file src_root dst_root args
        (is_heic_ext (Pathlib.lower (Pathlib.suffix input_file)))
        (is_jpeg_ext (Pathlib.lower (Pathlib.suffix input_file)))
        src_size (min_quality args) 90 st1 = (Ok Return, st2) ->
      exists rel content evs e1 e2,
        Pathlib.relative_to input_file src_root = Some rel
        /\ fs st !! input_file = Some content
        /\ process_file E fuel input_file src_root dst_root args st = (Ok tt, st2)
        /\ trace st2 = trace st ++ evs
        /\ LogError (Pathlib.name input_file) e1 e2 ∈ printed evs
        /\ writes_to output_file evs = []
        /\ fs st2 !! output_file = fs st !! output_file
        /\ (force_jxl args = true ->
            fs st2 = fs st
            /\ last (printed evs) = Some (LogError (Pathlib.name input_file) e1 e2))
        /\ (force_jxl args = false ->
            last (printed evs)
              = Some (LogCopy (Pathlib.name input_file) "Conversion Failed")
            /\ (fs st !! Pathlib.joinpath dst_root rel = None ->
                fs st2 = <[Pathlib.joinpath dst_root rel := content]> (fs st))
            /\ (is_Some (fs st !! Pathlib.joinpath dst_root rel) -> fs st2 = fs st))).
Proof.
  split.
  { intros fuel is_heic is_jpeg src_size minq q st sa sb e1 e2 Hp Hf.
    exact (double_failure_stops fuel input_file src_root dst_root args is_heic
             is_jpeg src_size minq q st sa sb e1 e2 Hp Hf). }
  intros fuel st st1 st2 output_file src_size Hext Hpro Hsearch.
  rewrite (process_file_Return _ _ _ _ _ _ _ _ _ _ Hpro Hsearch).
  destruct (prologue_Some _ _ _ _ _ _ _ _ _ Hpro)
    as (rel & rel_jxl & content & Hrel & Hjxl & -> & Hin & -> & Hfs1 & ev1 & Ht1 & _ & Hp1).
  destruct (quality_search_Return _ _ _ _ _ _ _ _ _ _ _ _ Hsearch)
    as (q' & e1 & e2 & sa & sb & _ & _ & sc & _ & (ev2 & Ht2 & Hf2 & Hn2) & Hh).
  assert (Hfsc : fs sc = fs st).
  { rewrite Hf2, replay_no_write by exact Hn2. exact Hfs1. }
  pose proof (retained_ne_output _ _ dst_root _ _ Hext Hrel Hjxl) as Hne.
  assert (Hquiet : Forall (fun e => match e with
                                    | EWrite p' _ => p' <> Pathlib.joinpath dst_root rel_jxl
                                    | _ => True
                                    end) (ev1 ++ ev2)).
  { apply Forall_app. split; apply no_write_other; [| exact Hn2].
    eapply Forall_impl; [exact Hp1 |]. intros e. apply prologue_event_no_write. }
  assert (Hin_err : forall tl, LogError (Pathlib.name input_file) e1 e2
                               ∈ printed ((ev1 ++ ev2) ++
                                          EPrint (LogError (Pathlib.name input_file) e1 e2)
                                          :: tl)).
  { intros tl. rewrite printed_app. apply elem_of_app. right. cbn.
    apply list_elem_of_here. }
  exists rel, content.
  destruct (force_jxl args) eqn:Hforce.
  { rewrite hard_failure_forced in Hh by exact Hforce. injection Hh as <-.
    exists (ev1 ++ ev2 ++ [EPrint (LogError (Pathlib.name input_file) e1 e2)]), e1, e2.
    cbn [trace fs].
    split; [exact Hrel |]. split; [exact Hin |]. split; [reflexivity |].
    split; [rewrite Ht2, Ht1, <- !app_assoc; reflexivity |].
    split; [rewrite app_assoc; apply Hin_err |].
    split; [rewrite app_assoc, writes_to_app, (writes_to_other _ _ Hquiet); reflexivity |].
    split; [rewrite Hfsc; reflexivity |].
    split; [| discriminate]. intros _. split; [exact Hfsc |].
    rewrite app_assoc, printed_app. cbn. apply last_snoc. }
  rewrite hard_failure_unforced in Hh by exact Hforce.
  destruct (fs st !! Pathlib.joinpath dst_root rel) as [old |] eqn:Hkept.
  - rewrite (copy_original_present _ _ _ _ rel) in Hh by
      (try assumption; cbn [fs]; rewrite Hfsc, Hkept; eexists; reflexivity).
    injection Hh as <-. cbn [trace fs].
    exists (ev1 ++ ev2 ++ [EPrint (LogError (Pathlib.name input_file) e1 e2);
                          EMkdir (Pathlib.parent (Pathlib.joinpath dst_root rel));
                          EPrint (LogCopy (Pathlib.name input_file) "Conversion Failed")]),
      e1, e2.
    split; [exact Hrel |]. split; [exact Hin |]. split; [reflexivity |].
    split; [rewrite Ht2, Ht1, <- !app_assoc; reflexivity |].
    split; [rewrite app_assoc; apply Hin_err |].
    split; [rewrite app_assoc, writes_to_app, (writes_to_other _ _ Hquiet); reflexivity |].
    split; [rewrite Hfsc; reflexivity |].
    split; [discriminate |]. intros _. split; [| split].
    + rewrite app_assoc, printed_app. cbn.
      change [LogError (Pathlib.name input_file) e1 e2;
              LogCopy (Pathlib.name input_file) "Conversion Failed"]
        with ([LogError (Pathlib.name input_file) e1 e2]
              ++ [LogCopy (Pathlib.name input_file) "Conversion Failed"]).
      rewrite app_assoc. apply last_snoc.
    + discriminate.
    + intros _. exact Hfsc.
  - rewrite (copy_original_absent _ _ _ _ rel content) in Hh by
      (try assumption; cbn [fs]; rewrite Hfsc; assumption).
    injection Hh as <-. cbn [trace fs].
    exists (ev1 ++ ev2 ++ [EPrint (LogError (Pathlib.name input_file) e1 e2);
                          EMkdir (Pathlib.parent (Pathlib.joinpath dst_root rel));
                          EWrite (Pathlib.joinpath dst_root rel) content;
                          EPrint (LogCopy (Pathlib.name input_file) "Conversion Failed")]),
      e1, e2.
    split; [exact Hrel |]. split; [exact Hin |]. split; [reflexivity |].
    split; [rewrite Ht2, Ht1, <- !app_assoc; reflexivity |].
    split; [rewrite app_assoc; apply Hin_err |].
    split.
    { rewrite app_assoc, writes_to_app, (writes_to_other _ _ Hquiet). cbn.
      rewrite bool_decide_eq_false_2 by exact Hne. reflexivity. }
    split; [rewrite Hfsc; apply lookup_insert_ne; exact Hne |].
    split; [discriminate |]. intros _. split; [| split].
    + rewrite app_assoc, printed_app. cbn.
      change [LogError (Pathlib.name input_file) e1 e2;
              LogCopy (Pathlib.name input_file) "Conversion Failed"]
        with ([LogError (Pathlib.name input_file) e1 e2]
              ++ [LogCopy (Pathlib.name input_file) "Conversion Failed"]).
      rewrite app_assoc. apply last_snoc.
    + intros _. rewrite Hfsc. reflexivity.
    + intros [? ?]. discriminate.
Qed.

Lemma hard_failure_stops_processing_witness :
  let st := Fake.start Scenario.fresh Scenario.E_broken tt in
  let r := process_file Scenario.E_broken 1 Scenario.png Scenario.src_root
             Scenario.dst_root Fake.default_args st in
  fst r = Ok tt
  /\ fs (snd r) !! ["out"; "a.jxl"]%string = fs st !! ["out"; "a.jxl"]%string.
Proof.
  cbv zeta.
  destruct (proj2 (hard_failure_stops_processing Scenario.E_broken Scenario.png
                     Scenario.src_root Scenario.dst_root Fake.default_args)
              1%nat (Fake.start Scenario.fresh Scenario.E_broken tt)
              (snd (prologue Scenario.E_broken 1 Scenario.png Scenario.src_root
                      Scenario.dst_root Fake.default_args
                      (Fake.start Scenario.fresh Scenario.E_broken tt)))
              (snd (process_file Scenario.E_broken 1 Scenario.png Scenario.src_root
                      Scenario.dst_root Fake.default_args
                      (Fake.start Scenario.fresh Scenario.E_broken tt)))
              ["out"; "a.jxl"]%string 3)
    as (rel & content & evs & e1 & e2 & _ & _ & Hrun & _ & _ & _ & Hout & _).
  - vm_compute. repeat (first [apply list_elem_of_here | apply list_elem_of_further]).
  - vm_compute. reflexivity.
  - vm_compute. reflexivity.
  - rewrite Hrun. split; [reflexivity | exact Hout].
Defined.

(** C7 as stated fails: strategies and fallback fail, output is not forced,
    yet after the run the path of the original in the destination tree
    holds the file that was there before, not the original. *)
Lemma failed_original_not_retained :
  let st := Fake.start Scenario.occupied Scenario.E_broken tt in
  let r := process_file Scenario.E_broken 1 Scenario.png Scenario.src_root
             Scenario.dst_root Fake.default_args st in
  fst r = Ok tt
  /\ force_jxl Fake.default_args = false
  /\ last (printed (trace (snd r))) = Some (LogCopy "a.png" "Conversion Failed")
  /\ fs st !! Scenario.png = Some Scenario.content
  /\ fs (snd r) !! ["out"; "a.png"]%string = Some Scenario.stale
  /\ Scenario.stale <> Scenario.content.
Proof.
  cbv zeta. repeat split; try (vm_compute; reflexivity). discriminate.
Qed.

(** C8. When the [.jxl] destination of a file exists and the policy is to
    skip, [process_file] prints [[SKIP]] and returns: the trace gains that
    line alone (no encoder process, no Pillow call), and neither the files
    nor the collaborators change. *)
Theorem existing_destination_is_skipped (E : Env) (fuel : nat)
    (input_file src_root dst_root : path) (args : Args) (st : state E)
    (rel rel_jxl : path) :
  Pathlib.relative_to input_file src_root = Some rel ->
  Pathlib.with_suffix rel ".jxl" = Some rel_jxl ->
  is_Some (fs st !! Pathlib.joinpath dst_root rel_jxl) ->
  skip args = true ->
  process_file E fuel input_file src_root dst_root args st
  = (Ok tt, State (fs st) (world st)
              (trace st ++ [EPrint (LogSkipExists (Pathlib.name input_file))]))
  /\ encoder_invocations [EPrint (LogSkipExists (Pathlib.name input_file))] = [].
Proof.
  intros Hrel Hjxl Hout Hskip. split; [| reflexivity].
  apply process_file_skipped.
  unfold prologue, relative_to, with_suffix. rewrite Hrel.
  unfold bind at 1. cbn [ret]. rewrite Hjxl.
  unfold bind at 1. cbn [ret]. unfold bind at 1.
  unfold conflict_resolution, bind at 1, path_exists.
  rewrite bool_decide_eq_true_2 by exact Hout. rewrite Hskip.
  reflexivity.
Qed.

Lemma existing_destination_is_skipped_witness :
  process_file Scenario.E_large 1 Scenario.png Scenario.src_root Scenario.dst_root
    Scenario.skip_args (Fake.start Scenario.converted Scenario.E_large tt)
  = (Ok tt, State (E := Scenario.E_large) Scenario.converted tt
              [EPrint (LogSkipExists "a.png")])
  /\ encoder_invocations [EPrint (LogSkipExists "a.png")] = [].
Proof.
  refine (existing_destination_is_skipped Scenario.E_large 1 Scenario.png
            Scenario.src_root Scenario.dst_root Scenario.skip_args
            (Fake.start Scenario.converted Scenario.E_large tt)
            ["a.png"]%string ["a.jxl"]%string _ _ _ _).
  - reflexivity.
  - reflexivity.
  - exists Scenario.smaller. vm_compute. reflexivity.
  - reflexivity.
Defined.

(** C9. Retaining an original never overwrites: when a file exists at the
    computed destination path, [copy_original] leaves every file as it is
    (the original is not even read), and still prints the [[COPY]] line. *)
Theorem retention_never_overwrites (E : Env)
    (input_file src_root dst_root : path) (reason : string) (rel : path)
    (st : state E) :
  Pathlib.relative_to input_file src_root = Some rel ->
  is_Some (fs st !! Pathlib.joinpath dst_root rel) ->
  copy_original E input_file src_root dst_root reason st
  = (Ok tt,
     State (fs st) (world st)
       (trace st ++ [EMkdir (Pathlib.parent (Pathlib.joinpath dst_root rel));
                     EPrint (LogCopy (Pathlib.name input_file) reason)])).
Proof. apply copy_original_present. Qed.

Lemma retention_never_overwrites_witness :
  copy_original Scenario.E_large Scenario.png Scenario.src_root Scenario.dst_root
    "Original kept" (Fake.start Scenario.occupied Scenario.E_large tt)
  = (Ok tt,
     State (E := Scenario.E_large) Scenario.occupied tt
       [EMkdir ["out"]%string; EPrint (LogCopy "a.png" "Original kept")]).
Proof.
  refine (retention_never_overwrites Scenario.E_large Scenario.png
            Scenario.src_root Scenario.dst_root "Original kept" ["a.png"]%string
            (Fake.start Scenario.occupied Scenario.E_large tt) _ _).
  - reflexivity.
  - exists Scenario.stale. vm_compute. reflexivity.
Defined.

(** A call of [convert_via_pillow] is one entry of the routine followed by
    its decoder and encoder work. *)
Lemma convert_via_pillow_trace (E : Env) (input_file : path) (args : Args) (q : Z)
    (st : state E) :
  exists evs,
    trace (snd (convert_via_pillow E input_file args q st))
      = trace st ++ ECallPillow input_file q :: evs
    /\ pillow_calls (ECallPillow input_file q :: evs) = [(input_file, q)].
Proof.
  assert (Hrest : only (E := E) calm
            (if negb (HAS_PILLOW E) then raise (RuntimeError PillowLibsMissing)
             else
               try_except
                 (bind (image_to_ppm E input_file)
                    (fun ppm_data =>
                       bind (run_cjxl_in_memory E
                               ["cjxl"; "-"; "-"; "--quality"; str_int q;
                                "--lossless_jpeg=0"]%string args (Some ppm_data))
                         (fun r => let '(code, jxl_data, err) := r in
                                   if negb (code =? 0)
                                   then raise (RuntimeError (CjxlFailedOnPillowOutput err))
                                   else ret jxl_data)))
                 (fun e => raise (RuntimeError (PillowFallbackFailed e))))).
  { destruct (negb (HAS_PILLOW E)); [apply only_raise |].
    apply only_try_except; [| intros; apply only_raise].
    apply only_bind; [apply only_image_to_ppm; simpl; auto | intros ppm].
    apply only_bind; [apply only_run_cjxl_in_memory; simpl; auto |].
    intros [[code data] err].
    destruct (negb (code =? 0)); [apply only_raise | apply only_ret]. }
  unfold convert_via_pillow. unfold bind at 1. cbn [emit].
  destruct (Hrest (State (fs st) (world st) (trace st ++ [ECallPillow input_file q])))
    as (evs & Ht & _ & Hc).
  exists evs. split.
  - rewrite Ht. cbn [trace]. rewrite <- app_assoc. reflexivity.
  - change (ECallPillow input_file q :: evs) with ([ECallPillow input_file q] ++ evs).
    rewrite pillow_calls_app.
    replace (pillow_calls evs) with (@nil (path * Z)); [reflexivity |].
    symmetry. clear Ht. induction Hc as [| e t He _ IH]; [reflexivity |].
    destruct e; cbn in *; try exact IH. contradiction.
Qed.

(** C10. For a HEIC/HEIF input the primary strategy and the fallback are
    the same call [convert_via_pillow(input_file, args, quality)]. When the
    primary call raises, the routine is entered a second time with the same
    file and quality, so the pass has exactly two invocations; when the
    second raises too, the [[ERROR]] line follows and the handler makes no
    further call. *)
Theorem heic_failure_invokes_pillow_twice (E : Env)
    (input_file src_root dst_root : path) (args : Args) (is_jpeg : bool) (q : Z)
    (st sa : state E) (e1 : exn) :
  convert_via_pillow E input_file args q st = (Raise e1, sa) ->
  let announced :=
    snd ((if q =? 90 then print E (LogInfoTryingPillow (Pathlib.name input_file))
          else ret tt) sa) in
  let again := convert_via_pillow E input_file args q announced in
  let pass := encode_attempt E input_file src_root dst_root args true is_jpeg q st in
  primary_strategies E input_file args true is_jpeg q st = (Raise e1, sa)
  /\ (exists ev1 ev2,
        trace (snd again) = trace st ++ ev1 ++ ev2
        /\ pillow_calls ev1 = [(input_file, q)]
        /\ pillow_calls ev2 = [(input_file, q)])
  /\ match fst again with
     | Ok jxl_data => pass = (Ok (Some (jxl_data, FallbackPillow q)), snd again)
     | Raise e2 =>
         let h := hard_failure E input_file src_root dst_root args e1 e2 (snd again) in
         pass = (after_failure (fst h), snd h)
         /\ exists ev3,
             trace (snd h)
               = trace (snd again)
                 ++ EPrint (LogError (Pathlib.name input_file) e1 e2) :: ev3
             /\ pillow_calls ev3 = []
     | Diverge => False
     end.
Proof.
  intros Hcall announced again pass.
  assert (Hprim : primary_strategies E input_file args true is_jpeg q st
                  = (Raise e1, sa)).
  { unfold primary_strategies, bind. rewrite Hcall. reflexivity. }
  split; [exact Hprim |].
  destruct (convert_via_pillow_trace E input_file args q st) as (t1 & Ht1 & Hc1).
  rewrite Hcall in Ht1. cbn [snd] in Ht1.
  destruct (convert_via_pillow_trace E input_file args q announced)
    as (t2 & Ht2 & Hc2).
  fold again in Ht2.
  assert (Hann : exists pre, trace announced = trace sa ++ pre /\ pillow_calls pre = []).
  { subst announced. destruct (q =? 90).
    - exists [EPrint (LogInfoTryingPillow (Pathlib.name input_file))].
      split; reflexivity.
    - exists []. cbn. rewrite app_nil_r. split; reflexivity. }
  destruct Hann as (pre & Hpre & Hcpre).
  split.
  { exists (ECallPillow input_file q :: t1), (pre ++ ECallPillow input_file q :: t2).
    split; [rewrite Ht2, Hpre, Ht1, <- !app_assoc; reflexivity |].
    split; [exact Hc1 |]. rewrite pillow_calls_app, Hcpre. exact Hc2. }
  assert (Hfb : universal_fallback E input_file args q sa
                = (match fst again with
                   | Ok d => Ok (d, FallbackPillow q)
                   | Raise e => Raise e
                   | Diverge => Diverge
                   end, snd again)).
  { unfold universal_fallback. unfold bind at 1. subst again announced.
    destruct (q =? 90); cbn [print emit ret snd]; unfold bind;
      match goal with
      | |- context [convert_via_pillow E input_file args q ?s] =>
          destruct (convert_via_pillow E input_file args q s) as [[d | e |] sb]
      end; reflexivity. }
  pose proof (terminates_convert_via_pillow (E := E) input_file args q announced)
    as Hterm.
  fold again in Hterm. subst pass. rewrite encode_attempt_unfold, Hprim, Hfb.
  destruct (fst again) as [d | e2 |]; [reflexivity | | apply Hterm; reflexivity].
  cbv zeta. split.
  - destruct (hard_failure _ _ _ _ _ _ _ _) as [r sc]. reflexivity.
  - unfold hard_failure. unfold bind at 1. cbn [print emit].
    destruct (negb (force_jxl args)).
    + destruct (only_copy_original (E := E) calm input_file src_root dst_root
                  "Conversion Failed" ltac:(simpl; auto) ltac:(simpl; auto)
                  ltac:(simpl; auto)
                  (State (fs (snd again)) (world (snd again))
                     (trace (snd again) ++
                      [EPrint (LogError (Pathlib.name input_file) e1 e2)])))
        as (ev3 & Ht3 & _ & Hc3).
      exists ev3. rewrite Ht3. cbn [trace]. rewrite <- app_assoc.
      split; [reflexivity |].
      clear Ht3. induction Hc3 as [| e t He _ IH]; [reflexivity |].
      destruct e; cbn in *; try exact IH. contradiction.
    + exists []. split; reflexivity.
Qed.

Lemma heic_failure_invokes_pillow_twice_witness :
  let st := Fake.start Scenario.heic_files Scenario.E_broken tt in
  pillow_calls
    (trace (snd (encode_attempt Scenario.E_broken Scenario.heic Scenario.src_root
                   Scenario.dst_root Fake.default_args true false 90 st)))
  = [(Scenario.heic, 90); (Scenario.heic, 90)]
  /\ primary_strategies Scenario.E_broken Scenario.heic Fake.default_args true false
       90 st
     = (Raise (RuntimeError (PillowFallbackFailed PillowError)),
        snd (convert_via_pillow Scenario.E_broken Scenario.heic Fake.default_args 90 st)).
Proof.
  cbv zeta. split; [vm_compute; reflexivity |].
  refine (proj1 (heic_failure_invokes_pillow_twice Scenario.E_broken Scenario.heic
                   Scenario.src_root Scenario.dst_root Fake.default_args false 90
                   (Fake.start Scenario.heic_files Scenario.E_broken tt) _ _ _)).
  vm_compute. reflexivity.
Defined.

(** * Further properties of the code *)

Lemma E_large_payloads_nonempty : payloads_nonempty Scenario.E_large.
Proof.
  intros cmd stdin w c w' H Hc. cbn in H. injection H as <- _. discriminate.
Defined.

Lemma search_terminates_with_payloads_witness :
  let r := quality_search Scenario.E_large 4 Scenario.png Scenario.src_root
             Scenario.dst_root Scenario.lq_args false false 3
             (min_quality Scenario.lq_args) 90
             (Fake.start Scenario.fresh Scenario.E_large tt) in
  exists evs,
    trace (snd r) = trace (Fake.start Scenario.fresh Scenario.E_large tt) ++ evs
    /\ Z.of_nat (length (attempt_qualities evs))
       <= (90 - min_quality Scenario.lq_args) / 5 + 1
    /\ ((90 - min_quality Scenario.lq_args) / 5 + 1 <= Z.of_nat 4 -> fst r <> Diverge).
Proof.
  exact (search_terminates_with_payloads Scenario.E_large 4 Scenario.png
           Scenario.src_root Scenario.dst_root Scenario.lq_args false false 3
           (Fake.start Scenario.fresh Scenario.E_large tt)
           E_large_payloads_nonempty).
Defined.

Lemma final_payload_is_persisted_witness :
  let st := Fake.start Scenario.fresh Scenario.E_large tt in
  let st2 := snd (quality_search Scenario.E_large 1 Scenario.png Scenario.src_root
                    Scenario.dst_root Scenario.force_args false false 3 90 90
                    (snd (prologue Scenario.E_large 1 Scenario.png Scenario.src_root
                            Scenario.dst_root Scenario.force_args st))) in
  process_file Scenario.E_large 1 Scenario.png Scenario.src_root Scenario.dst_root
    Scenario.force_args st
  = copy_metadata Scenario.E_large Scenario.png ["out"; "a.jxl"]%string
      (State (<[ ["out"; "a.jxl"]%string := Scenario.larger ]> (fs st2)) (world st2)
         (trace st2 ++
          [EWrite ["out"; "a.jxl"]%string Scenario.larger;
           EPrint (LogForced "a.png" (DirectCJXL 90))])).
Proof.
  cbv zeta.
  refine (proj1 (final_payload_is_persisted (E := Scenario.E_large) 1 Scenario.png
                   Scenario.src_root Scenario.dst_root Scenario.force_args
                   (Fake.start Scenario.fresh Scenario.E_large tt)
                   ["out"; "a.jxl"]%string 3 _ Scenario.larger (DirectCJXL 90) _
                   _ _ _ _)).
  - vm_compute. reflexivity.
  - vm_compute. reflexivity.
  - right. reflexivity.
  - discriminate.
Defined.

(** For a file [main] hands to [process_file], the path the original
    would be retained at is never the [.jxl] destination: a retention copy
    cannot replace an encoded output. *)
Theorem retention_path_is_not_the_output (input_file src_root dst_root rel rel_jxl : path) :
  Pathlib.lower (Pathlib.suffix input_file) ∈ IMAGE_EXTS ->
  Pathlib.relative_to input_file src_root = Some rel ->
  Pathlib.with_suffix rel ".jxl" = Some rel_jxl ->
  Pathlib.joinpath dst_root rel <> Pathlib.joinpath dst_root rel_jxl.
Proof. apply retained_ne_output. Qed.

Lemma retention_path_is_not_the_output_witness :
  Pathlib.with_suffix ["sub"; "Photo.JPEG"]%string ".jxl"
    = Some ["sub"; "Photo.jxl"]%string
  /\ Pathlib.joinpath ["out"]%string ["sub"; "Photo.JPEG"]%string
     <> Pathlib.joinpath ["out"]%string ["sub"; "Photo.jxl"]%string.
Proof.
  split; [reflexivity |].
  refine (retention_path_is_not_the_output
            ["photos"; "sub"; "Photo.JPEG"]%string ["photos"]%string ["out"]%string
            ["sub"; "Photo.JPEG"]%string ["sub"; "Photo.jxl"]%string _ _ _).
  - vm_compute. repeat (first [apply list_elem_of_here | apply list_elem_of_further]).
  - reflexivity.
  - reflexivity.
Defined.

Lemma run_cjxl_in_memory_shape (E : Env) (cmd_list : list string) (args : Args)
    (stdin_data : option bytes) (st : state E) :
  exists cmd r w,
    subprocess_run E cmd stdin_data (world st) = (r, w)
    /\ run_cjxl_in_memory E cmd_list args stdin_data st
       = (match r with
          | Some c => Ok (returncode c, stdout c, stderr c)
          | None => Raise OSError
          end,
          State (fs st) w (trace st ++ [ERun cmd stdin_data r]))
    /\ "--num_threads"%string ∈ cmd
    /\ (exists front, cmd = front ++ ["--effort"%string; str_int (effort args)])
    /\ cmd_list `sublist_of` cmd
    /\ head cmd = match cmd_list with
                  | [] => Some "--num_threads"%string
                  | prog :: _ => Some prog
                  end.
Proof.
  unfold run_cjxl_in_memory, bind, run.
  set (cmd1 := if bool_decide ("--num_threads"%string ∈ cmd_list) then cmd_list
               else take 1 cmd_list ++ ["--num_threads"%string; str_int CJXL_THREADS]
                      ++ drop 1 cmd_list).
  destruct (subprocess_run E (cmd1 ++ ["--effort"%string; str_int (effort args)])
              stdin_data (world st)) as [r w] eqn:Hrun.
  exists (cmd1 ++ ["--effort"%string; str_int (effort args)]), r, w.
  split; [exact Hrun |].
  split; [destruct r; reflexivity |].
  assert (Hin : "--num_threads"%string ∈ cmd1).
  { subst cmd1. destruct (bool_decide _) eqn:Hd.
    - apply bool_decide_eq_true_1 in Hd. exact Hd.
    - apply elem_of_app. right. apply list_elem_of_here. }
  assert (Hsub : cmd_list `sublist_of` cmd1).
  { subst cmd1. destruct (bool_decide _); [reflexivity |].
    rewrite <- (take_drop 1 cmd_list) at 1.
    apply sublist_app; [reflexivity |].
    apply sublist_inserts_l. reflexivity. }
  split; [apply elem_of_app; left; exact Hin |].
  split; [exists cmd1; reflexivity |].
  split; [apply sublist_inserts_r; exact Hsub |].
  subst cmd1. destruct (bool_decide _) eqn:Hd.
  - apply bool_decide_eq_true_1 in Hd. destruct cmd_list as [| prog tl].
    + inversion Hd.
    + reflexivity.
  - destruct cmd_list as [| prog tl]; reflexivity.
Qed.

(** Every call of [run_cjxl_in_memory] starts exactly one process. Its
    command line keeps the caller's arguments in order and the program name
    in front, always carries [--num_threads], and ends with [--effort] and
    the configured effort. A process that ran is never an exception,
    whatever its exit status: status, output and diagnostics are returned. *)
Theorem run_cjxl_in_memory_command (E : Env) (cmd_list : list string) (args : Args)
    (stdin_data : option bytes) (st : state E) :
  exists cmd r w,
    subprocess_run E cmd stdin_data (world st) = (r, w)
    /\ run_cjxl_in_memory E cmd_list args stdin_data st
       = (match r with
          | Some c => Ok (returncode c, stdout c, stderr c)
          | None => Raise OSError
          end,
          State (fs st) w (trace st ++ [ERun cmd stdin_data r]))
    /\ "--num_threads"%string ∈ cmd
    /\ (exists front, cmd = front ++ ["--effort"%string; str_int (effort args)])
    /\ cmd_list `sublist_of` cmd
    /\ head cmd = match cmd_list with
                  | [] => Some "--num_threads"%string
                  | prog :: _ => Some prog
                  end.
Proof. apply run_cjxl_in_memory_shape. Qed.

Section Helpers.
Context {E : Env}.
Implicit Types (st : state E).

Lemma copy_original_outside input_file src_root dst_root reason st :
  Pathlib.relative_to input_file src_root = None ->
  copy_original E input_file src_root dst_root reason st = (Raise ValueError, st).
Proof.
  intros Hrel. unfold copy_original, relative_to. rewrite Hrel. reflexivity.
Qed.

Lemma copy_original_missing input_file src_root dst_root reason rel st :
  Pathlib.relative_to input_file src_root = Some rel ->
  fs st !! Pathlib.joinpath dst_root rel = None ->
  fs st !! input_file = None ->
  copy_original E input_file src_root dst_root reason st
  = (Raise OSError,
     State (fs st) (world st)
       (trace st ++ [EMkdir (Pathlib.parent (Pathlib.joinpath dst_root rel))])).
Proof.
  intros Hrel Hout Hin. unfold copy_original, relative_to. rewrite Hrel.
  unfold bind, ret, mkdir, emit, path_exists, read_bytes. cbn.
  rewrite bool_decide_eq_false_2 by (rewrite Hout; apply is_Some_None).
  cbn. rewrite Hin. reflexivity.
Qed.

Lemma printed_snoc_copy (t : list event) name reason :
  last (printed (t ++ [EPrint (LogCopy name reason)])) = Some (LogCopy name reason).
Proof. rewrite printed_app. cbn. apply last_snoc. Qed.

End Helpers.

Lemma copy_original_cases (E : Env) (input_file src_root dst_root : path)
    (reason : string) (st : state E) :
  let r := copy_original E input_file src_root dst_root reason st in
  exists evs,
    trace (snd r) = trace st ++ evs
    /\ match fst r with
       | Ok _ =>
           exists rel,
             Pathlib.relative_to input_file src_root = Some rel
             /\ is_Some (fs (snd r) !! Pathlib.joinpath dst_root rel)
             /\ last (printed evs) = Some (LogCopy (Pathlib.name input_file) reason)
       | Raise e =>
           (e = ValueError \/ e = OSError)
           /\ fs (snd r) = fs st /\ printed evs = [] /\ written_paths evs = []
       | Diverge => False
       end.
Proof.
  cbv zeta.
  destruct (Pathlib.relative_to input_file src_root) as [rel |] eqn:Hrel.
  2: { rewrite copy_original_outside by exact Hrel. exists []. cbn.
       rewrite app_nil_r. auto 10. }
  destruct (fs st !! Pathlib.joinpath dst_root rel) as [old |] eqn:Hout.
  { rewrite (copy_original_present _ _ _ _ rel) by
      (try assumption; rewrite Hout; eexists; reflexivity).
    eexists [_; _]. cbn [fst snd trace fs]. split; [reflexivity |].
    exists rel. split; [reflexivity |]. split; [rewrite Hout; eexists; reflexivity |].
    reflexivity. }
  destruct (fs st !! input_file) as [content |] eqn:Hin.
  - rewrite (copy_original_absent _ _ _ _ rel content) by assumption.
    eexists [_; _; _]. cbn [fst snd trace fs]. split; [reflexivity |].
    exists rel. split; [reflexivity |].
    split; [rewrite lookup_insert_eq; eexists; reflexivity | reflexivity].
  - rewrite (copy_original_missing _ _ _ _ rel) by assumption.
    eexists [_]. cbn [fst snd trace fs]. split; [reflexivity |]. auto 10.
Qed.

(** [copy_original] ends in one of four ways. When it returns, a file
    exists at the retention path and the [[COPY]] line is the last thing
    printed. It raises only ValueError (the input is not below [src_root])
    or OSError (the original cannot be read), and then no file has changed
    and nothing was printed. *)
Theorem copy_original_outcomes (E : Env) (input_file src_root dst_root : path)
    (reason : string) (st : state E) :
  let r := copy_original E input_file src_root dst_root reason st in
  exists evs,
    trace (snd r) = trace st ++ evs
    /\ match fst r with
       | Ok _ =>
           exists rel,
             Pathlib.relative_to input_file src_root = Some rel
             /\ is_Some (fs (snd r) !! Pathlib.joinpath dst_root rel)
             /\ last (printed evs) = Some (LogCopy (Pathlib.name input_file) reason)
       | Raise e =>
           (e = ValueError \/ e = OSError)
           /\ fs (snd r) = fs st /\ printed evs = [] /\ written_paths evs = []
       | Diverge => False
       end.
Proof. apply copy_original_cases. Qed.

(** Retaining twice is retaining once: after a retention that returned, a
    second one (whatever its reason) changes no file. *)
Theorem retention_is_idempotent (E : Env) (input_file src_root dst_root : path)
    (reason reason' : string) (st st1 : state E) :
  copy_original E input_file src_root dst_root reason st = (Ok tt, st1) ->
  exists rel,
    Pathlib.relative_to input_file src_root = Some rel
    /\ copy_original E input_file src_root dst_root reason' st1
       = (Ok tt,
          State (fs st1) (world st1)
            (trace st1 ++ [EMkdir (Pathlib.parent (Pathlib.joinpath dst_root rel));
                           EPrint (LogCopy (Pathlib.name input_file) reason')])).
Proof.
  intros Hrun.
  pose proof (copy_original_cases E input_file src_root dst_root reason st) as H.
  cbv zeta in H. rewrite Hrun in H. cbn [fst snd] in H.
  destruct H as (evs & _ & rel & Hrel & Hsome & _).
  exists rel. split; [exact Hrel |].
  apply copy_original_present; assumption.
Qed.

Lemma retention_is_idempotent_witness :
  exists rel,
    Pathlib.relative_to Scenario.png Scenario.src_root = Some rel
    /\ copy_original Scenario.E_large Scenario.png Scenario.src_root
         Scenario.dst_root "again"
         (snd (copy_original Scenario.E_large Scenario.png Scenario.src_root
                 Scenario.dst_root "first"
                 (Fake.start Scenario.fresh Scenario.E_large tt)))
       = (Ok tt,
          State (E := Scenario.E_large)
            (<[ ["out"; "a.png"]%string := Scenario.content ]> Scenario.fresh) tt
            ([EMkdir ["out"]%string;
              EWrite ["out"; "a.png"]%string Scenario.content;
              EPrint (LogCopy "a.png" "first")]
             ++ [EMkdir (Pathlib.parent (Pathlib.joinpath Scenario.dst_root rel));
                 EPrint (LogCopy (Pathlib.name Scenario.png) "again")])).
Proof.
  refine (retention_is_idempotent Scenario.E_large Scenario.png Scenario.src_root
            Scenario.dst_root "first" "again"
            (Fake.start Scenario.fresh Scenario.E_large tt)
            (State (E := Scenario.E_large)
               (<[ ["out"; "a.png"]%string := Scenario.content ]> Scenario.fresh) tt
               [EMkdir ["out"]%string;
                EWrite ["out"; "a.png"]%string Scenario.content;
                EPrint (LogCopy "a.png" "first")]) _).
  vm_compute. reflexivity.
Defined.

Lemma convert_via_pillow_cases (E : Env) (input_file : path) (args : Args) (q : Z)
    (st : state E) :
  let r := convert_via_pillow E input_file args q st in
  let called := trace st ++ [ECallPillow input_file q] in
  (HAS_PILLOW E = false
   /\ r = (Raise (RuntimeError PillowLibsMissing), State (fs st) (world st) called))
  \/ (HAS_PILLOW E = true
      /\ exists w1,
          pil_to_ppm E input_file (world st) = (None, w1)
          /\ r = (Raise (RuntimeError (PillowFallbackFailed PillowError)),
                  State (fs st) w1 (called ++ [EImageOpen input_file None])))
  \/ (HAS_PILLOW E = true
      /\ exists ppm w1 cmd res w2,
          pil_to_ppm E input_file (world st) = (Some ppm, w1)
          /\ subprocess_run E cmd (Some ppm) w1 = (res, w2)
          /\ head cmd = Some "cjxl"%string
          /\ ["cjxl"; "-"; "-"; "--quality"; str_int q; "--lossless_jpeg=0"]%string
               `sublist_of` cmd
          /\ r = (match res with
                  | Some c =>
                      if returncode c =? 0 then Ok (stdout c)
                      else Raise (RuntimeError
                                    (PillowFallbackFailed
                                       (RuntimeError (CjxlFailedOnPillowOutput (stderr c)))))
                  | None => Raise (RuntimeError (PillowFallbackFailed OSError))
                  end,
                  State (fs st) w2
                    (called ++ [EImageOpen input_file (Some ppm);
                                ERun cmd (Some ppm) res]))).
Proof.
  cbv zeta.
  destruct (HAS_PILLOW E) eqn:Hp.
  2: { left. split; [reflexivity |].
       unfold convert_via_pillow, bind, emit. rewrite Hp. reflexivity. }
  right.
  destruct (pil_to_ppm E input_file (world st)) as [[ppm |] w1] eqn:Hppm.
  2: { left. split; [reflexivity |]. exists w1. split; [reflexivity |].
       unfold convert_via_pillow, try_except, bind, emit, image_to_ppm.
       rewrite Hp. cbn [negb world fs trace]. rewrite Hppm. reflexivity. }
  right. split; [reflexivity |].
  set (s1 := State (fs st) w1
               ((trace st ++ [ECallPillow input_file q])
                ++ [EImageOpen input_file (Some ppm)])).
  destruct (run_cjxl_in_memory_shape E
              ["cjxl"; "-"; "-"; "--quality"; str_int q; "--lossless_jpeg=0"]%string
              args (Some ppm) s1)
    as (cmd & res & w2 & Hrun & Heq & _ & _ & Hsub & Hhead).
  exists ppm, w1, cmd, res, w2. cbn [world] in Hrun.
  split; [reflexivity |]. split; [exact Hrun |]. split; [exact Hhead |].
  split; [exact Hsub |].
  unfold convert_via_pillow, try_except, bind, emit, image_to_ppm.
  rewrite Hp. cbn [negb world fs trace]. rewrite Hppm. fold s1. rewrite Heq.
  subst s1. cbn [fs trace].
  destruct res as [c |]; [| rewrite <- !app_assoc; reflexivity].
  destruct (returncode c =? 0); cbn; rewrite <- !app_assoc; reflexivity.
Qed.

(** [convert_via_pillow] writes no file (the decoded image goes to the
    encoder through its standard input) and raises nothing but
    RuntimeError. *)
Theorem convert_via_pillow_is_contained (E : Env) (input_file : path) (args : Args)
    (q : Z) (st : state E) :
  let r := convert_via_pillow E input_file args q st in
  fs (snd r) = fs st
  /\ (exists evs, trace (snd r) = trace st ++ evs /\ written_paths evs = [])
  /\ match fst r with
     | Ok _ => True
     | Raise e => exists msg, e = RuntimeError msg
     | Diverge => False
     end.
Proof.
  cbv zeta.
  destruct (convert_via_pillow_cases E input_file args q st)
    as [[_ ->] | [(_ & w1 & _ & ->) | (_ & ppm & w1 & cmd & res & w2 & _ & _ & _ & _ & ->)]];
    cbn [fst snd fs trace].
  - split; [reflexivity |]. split; [eexists [_]; split; reflexivity |]. eauto.
  - split; [reflexivity |].
    split; [eexists [_; _]; rewrite <- app_assoc; split; reflexivity |]. eauto.
  - split; [reflexivity |].
    split; [eexists [_; _; _]; rewrite <- app_assoc; split; reflexivity |].
    destruct res as [c |]; [destruct (returncode c =? 0) |]; eauto.
Qed.

(** When [convert_via_pillow] returns a payload, Pillow decoded the input,
    exactly one [cjxl] process ran with the decoded image on its standard
    input and the requested quality on its command line, it exited with
    status 0, and the payload is its standard output. *)
Theorem convert_via_pillow_success (E : Env) (input_file : path) (args : Args)
    (q : Z) (st st' : state E) (jxl_data : bytes) :
  convert_via_pillow E input_file args q st = (Ok jxl_data, st') ->
  exists ppm w1 cmd c,
    pil_to_ppm E input_file (world st) = (Some ppm, w1)
    /\ subprocess_run E cmd (Some ppm) w1 = (Some c, world st')
    /\ head cmd = Some "cjxl"%string
    /\ ["cjxl"; "-"; "-"; "--quality"; str_int q; "--lossless_jpeg=0"]%string
         `sublist_of` cmd
    /\ returncode c = 0
    /\ jxl_data = stdout c
    /\ fs st' = fs st
    /\ trace st' = trace st ++ [ECallPillow input_file q;
                                EImageOpen input_file (Some ppm);
                                ERun cmd (Some ppm) (Some c)].
Proof.
  intros Hrun.
  destruct (convert_via_pillow_cases E input_file args q st)
    as [[_ H] | [(_ & w1 & _ & H) | (_ & ppm & w1 & cmd & res & w2 & Hppm & Hsub & Hhd & Hcmd & H)]];
    cbv zeta in H; rewrite Hrun in H; try discriminate.
  destruct res as [c |]; [| discriminate].
  destruct (returncode c =? 0) eqn:Hc; [| discriminate].
  injection H as -> ->. exists ppm, w1, cmd, c. cbn [world fs trace].
  apply Z.eqb_eq in Hc. rewrite <- app_assoc. auto 10.
Qed.

Lemma convert_via_pillow_success_witness :
  let st := Fake.start Scenario.heic_files Scenario.E_pillow tt in
  let st' :=
    State (E := Scenario.E_pillow) Scenario.heic_files tt
      [ECallPillow Scenario.heic 85;
       EImageOpen Scenario.heic (Some Scenario.content);
       ERun ["cjxl"; "--num_threads"; "12"; "-"; "-"; "--quality"; "85";
             "--lossless_jpeg=0"; "--effort"; "7"]%string (Some Scenario.content)
         (Fake.exit_ok Scenario.smaller)] in
  exists ppm w1 cmd c,
    pil_to_ppm Scenario.E_pillow Scenario.heic (world st) = (Some ppm, w1)
    /\ subprocess_run Scenario.E_pillow cmd (Some ppm) w1 = (Some c, world st')
    /\ head cmd = Some "cjxl"%string
    /\ ["cjxl"; "-"; "-"; "--quality"; str_int 85; "--lossless_jpeg=0"]%string
         `sublist_of` cmd
    /\ returncode c = 0
    /\ Scenario.smaller = stdout c
    /\ fs st' = fs st
    /\ trace st' = trace st ++ [ECallPillow Scenario.heic 85;
                                EImageOpen Scenario.heic (Some ppm);
                                ERun cmd (Some ppm) (Some c)].
Proof.
  cbv zeta.
  refine (convert_via_pillow_success Scenario.E_pillow Scenario.heic
            Fake.default_args 85 _ _ Scenario.smaller _).
  vm_compute. reflexivity.
Defined.

Lemma copy_metadata_cases (E : Env) (src_file dst_file : path) (st : state E) :
  let r := copy_metadata E src_file dst_file st in
  fs (snd r) = fs st
  /\ (fst r = Ok tt \/ fst r = Raise OSError)
  /\ exists found w1,
      which E "exiftool" (world st) = (found, w1)
      /\ if found then
           exists res w2,
             subprocess_run E
               ["exiftool"; "-overwrite_original"; "-TagsFromFile";
                Pathlib.str src_file; "-all:all"; "-ignoreMinorErrors";
                Pathlib.str dst_file]%string None w1 = (res, w2)
             /\ (fst r = Ok tt <-> is_Some res)
             /\ trace (snd r)
                = trace st ++ [ECallMetadata src_file dst_file;
                               EWhich "exiftool" true;
                               ERun ["exiftool"; "-overwrite_original"; "-TagsFromFile";
                                     Pathlib.str src_file; "-all:all";
                                     "-ignoreMinorErrors"; Pathlib.str dst_file]%string
                                 None res]
         else
           r = (Ok tt,
                State (fs st) w1
                  (trace st ++ [ECallMetadata src_file dst_file;
                                EWhich "exiftool" false])).
Proof.
  cbv zeta. unfold copy_metadata, bind, emit, shutil_which, run, ret.
  cbn [fs world trace].
  destruct (which E "exiftool" (world st)) as [found w1] eqn:Hw.
  destruct found; cbn [fs world trace].
  - match goal with
    | |- context [subprocess_run E ?c None w1] =>
        destruct (subprocess_run E c None w1) as [res w2] eqn:Hrun
    end.
    destruct res as [c |]; cbn [fst snd fs trace].
    + split; [reflexivity |]. split; [left; reflexivity |].
      exists true, w1. split; [reflexivity |]. exists (Some c), w2.
      split; [exact Hrun |]. split; [split; [eauto | reflexivity] |].
      rewrite <- !app_assoc. reflexivity.
    + split; [reflexivity |]. split; [right; reflexivity |].
      exists true, w1. split; [reflexivity |]. exists None, w2.
      split; [exact Hrun |].
      split; [split; [discriminate | intros [? ?]; discriminate] |].
      rewrite <- !app_assoc. reflexivity.
  - cbn [fst snd fs trace]. split; [reflexivity |]. split; [left; reflexivity |].
    exists false, w1. split; [reflexivity |]. rewrite <- app_assoc. reflexivity.
Qed.

(** Metadata propagation is best effort. When [process_file] persists a
    payload, that payload is the last thing the program itself writes: its
    own writes leave exactly the payload at the destination and every other
    file as it was (what the [exiftool] process does to the new file is
    outside the program), whether [exiftool] is missing, succeeds or exits
    with an error; the only way the call can still fail is an OSError from
    starting the [exiftool] process. *)
Theorem persisted_output_survives_metadata (E : Env) (fuel : nat)
    (input_file src_root dst_root : path) (args : Args) (st st1 st2 : state E)
    (output_file : path) (src_size : Z) (data : bytes) (m : method) :
  prologue E fuel input_file src_root dst_root args st
    = (Ok (Some (output_file, src_size)), st1) ->
  quality_search E fuel input_file src_root dst_root args
    (is_heic_ext (Pathlib.lower (Pathlib.suffix input_file)))
    (is_jpeg_ext (Pathlib.lower (Pathlib.suffix input_file)))
    src_size (min_quality args) 90 st1 = (Ok (Break data m), st2) ->
  Z.of_nat (length data) < src_size \/ force_jxl args = true ->
  src_size <> 0 ->
  let r := process_file E fuel input_file src_root dst_root args st in
  fs (snd r) = <[output_file := data]> (fs st)
  /\ (fst r = Ok tt \/ fst r = Raise OSError)
  /\ ((forall cmd w, is_Some (fst (subprocess_run E cmd None w))) -> fst r = Ok tt).
Proof.
  intros Hpro Hsearch Hgo Hsz r. subst r.
  rewrite (process_file_Break _ _ _ _ _ _ _ _ _ _ _ _ Hpro Hsearch).
  destruct (prologue_Some _ _ _ _ _ _ _ _ _ Hpro)
    as (rel & rel_jxl & content & _ & _ & _ & _ & _ & Hfs1 & _).
  destruct (quality_search_Break _ _ _ _ _ _ _ _ _ _ _ _ _ _ Hsearch)
    as (Hd & Hg).
  apply grows_no_write_fs in Hg.
  rewrite final_save_persist;
    [| exact Hd
     | apply orb_true_iff; destruct Hgo as [Hlt | Hf];
       [left; apply Z.ltb_lt, Hlt | right; exact Hf]
     | exact Hsz].
  match goal with
  | |- context [copy_metadata E input_file output_file ?s] =>
      destruct (copy_metadata_cases E input_file output_file s)
        as (Hfs & Hres & found & w1 & Hw & Hcase)
  end.
  cbv zeta in Hfs, Hres, Hcase. cbn [fs] in Hfs.
  split; [rewrite Hfs, Hg, Hfs1; reflexivity |]. split; [exact Hres |].
  intros Hspawn. destruct found.
  - destruct Hcase as (res & w2 & Hrun & Hok & _). apply Hok.
    specialize (Hspawn
      ["exiftool"; "-overwrite_original"; "-TagsFromFile"; Pathlib.str input_file;
       "-all:all"; "-ignoreMinorErrors"; Pathlib.str output_file]%string w1).
    cbn [world] in Hrun. rewrite Hrun in Hspawn. exact Hspawn.
  - rewrite Hcase. reflexivity.
Qed.

Lemma persisted_output_survives_metadata_witness :
  let st := Fake.start Scenario.fresh Scenario.E_pillow tt in
  let r := process_file Scenario.E_pillow 1 Scenario.png Scenario.src_root
             Scenario.dst_root Fake.default_args st in
  fs (snd r) = <[ ["out"; "a.jxl"]%string := Scenario.smaller ]> (fs st)
  /\ (fst r = Ok tt \/ fst r = Raise OSError)
  /\ ((forall cmd w, is_Some (fst (subprocess_run Scenario.E_pillow cmd None w))) ->
      fst r = Ok tt).
Proof.
  cbv zeta.
  refine (persisted_output_survives_metadata Scenario.E_pillow 1 Scenario.png
            Scenario.src_root Scenario.dst_root Fake.default_args
            (Fake.start Scenario.fresh Scenario.E_pillow tt) _ _
            ["out"; "a.jxl"]%string 3 Scenario.smaller (DirectCJXL 90) _ _ _ _).
  - vm_compute. reflexivity.
  - vm_compute. reflexivity.
  - left. vm_compute. reflexivity.
  - discriminate.
Defined.

Section MoreSearch.
Context {E : Env}.
Implicit Types (st : state E).

Lemma commands_run_app (t1 t2 : list event) :
  commands_run (t1 ++ t2) = commands_run t1 ++ commands_run t2.
Proof. apply omap_app. Qed.

Lemma written_paths_app (t1 t2 : list event) :
  written_paths (t1 ++ t2) = written_paths t1 ++ written_paths t2.
Proof. apply omap_app. Qed.

Lemma prompts_app (t1 t2 : list event) :
  prompts (t1 ++ t2) = prompts t1 ++ prompts t2.
Proof. apply omap_app. Qed.

Lemma retention_event_quiet (t : list event) :
  Forall retention_event t ->
  commands_run t = [] /\ attempt_qualities t = [] /\ pillow_calls t = []
  /\ prompts t = [].
Proof.
  induction 1 as [| e t He _ (H1 & H2 & H3 & H4)]; [repeat split |].
  destruct e; cbn in He; try contradiction; repeat split; assumption.
Qed.

Lemma copy_original_trace input_file src_root dst_root reason st :
  exists evs,
    trace (snd (copy_original E input_file src_root dst_root reason st))
      = trace st ++ evs
    /\ Forall retention_event evs.
Proof.
  destruct (Pathlib.relative_to input_file src_root) as [rel |] eqn:Hrel.
  2: { rewrite copy_original_outside by exact Hrel. exists []. cbn.
       rewrite app_nil_r. split; [reflexivity | constructor]. }
  destruct (fs st !! Pathlib.joinpath dst_root rel) as [old |] eqn:Hout.
  { rewrite (copy_original_present _ _ _ _ rel) by
      (try assumption; rewrite Hout; eexists; reflexivity).
    eexists [_; _]. split; [reflexivity |]. repeat constructor. }
  destruct (fs st !! input_file) as [content |] eqn:Hin.
  - rewrite (copy_original_absent _ _ _ _ rel content) by assumption.
    eexists [_; _; _]. split; [reflexivity |]. repeat constructor.
  - rewrite (copy_original_missing _ _ _ _ rel) by assumption.
    eexists [_]. split; [reflexivity |]. repeat constructor.
Qed.

Lemma hard_failure_trace input_file src_root dst_root args e1 e2 st :
  exists evs,
    trace (snd (hard_failure E input_file src_root dst_root args e1 e2 st))
      = trace st ++ EPrint (LogError (Pathlib.name input_file) e1 e2) :: evs
    /\ Forall retention_event evs.
Proof.
  unfold hard_failure. unfold bind at 1. cbn [print emit].
  destruct (negb (force_jxl args)).
  - destruct (copy_original_trace input_file src_root dst_root "Conversion Failed"
                (State (fs st) (world st)
                   (trace st ++ [EPrint (LogError (Pathlib.name input_file) e1 e2)])))
      as (evs & Ht & Hev).
    exists evs. rewrite Ht. cbn [trace]. rewrite <- app_assoc.
    split; [reflexivity | exact Hev].
  - exists []. split; [reflexivity | constructor].
Qed.

Lemma encode_attempt_label input_file src_root dst_root args is_heic is_jpeg q st
    data m st' :
  encode_attempt E input_file src_root dst_root args is_heic is_jpeg q st
    = (Ok (Some (data, m)), st') ->
  label_of_quality q m.
Proof.
  assert (Hre : forall m0 : method, label_of_quality q m0 ->
            returns (fun r : bytes * method => label_of_quality q r.2)
              (bind (run_cjxl_in_memory E (reencode_cmd input_file q) args None)
                 (fun r => let '(code, data, err) := r in
                           if code =? 0 then ret (data, m0)
                           else raise (RuntimeError (StandardCjxlFailed err))))).
  { intros m0 Hm0. eapply returns_bind; [apply returns_any |].
    intros [[code d] err] _. destruct (code =? 0);
      [apply returns_ret; exact Hm0 | apply returns_raise]. }
  assert (Hp : returns (fun r : bytes * method => label_of_quality q r.2)
                 (primary_strategies E input_file args is_heic is_jpeg q)).
  { unfold primary_strategies. destruct is_heic.
    { eapply returns_bind; [apply returns_any |]. intros d _.
      apply returns_ret. left. reflexivity. }
    destruct is_jpeg; [destruct (q =? 90) eqn:Hq |];
      try (apply Hre; left; reflexivity).
    eapply returns_bind; [apply returns_any |]. intros [[code d] err] _.
    destruct (code =? 0); [| apply Hre; left; reflexivity].
    apply returns_ret. right. split; [reflexivity |]. apply Z.eqb_eq. exact Hq. }
  assert (Hf : returns (fun r : bytes * method => label_of_quality q r.2)
                 (universal_fallback E input_file args q)).
  { unfold universal_fallback. eapply returns_bind; [apply returns_any |].
    intros _ _. eapply returns_bind; [apply returns_any |]. intros d _.
    apply returns_ret. left. reflexivity. }
  rewrite encode_attempt_unfold.
  destruct (primary_strategies _ _ _ _ _ _ _) as [[x | e1 |] sa] eqn:Hprim;
    try discriminate.
  { intros [= -> <-]. apply (Hp _ _ _ Hprim). }
  destruct (universal_fallback _ _ _ _ _) as [[x | e2 |] sb] eqn:Hfb;
    try discriminate.
  { intros [= -> <-]. apply (Hf _ _ _ Hfb). }
  destruct (hard_failure _ _ _ _ _ _ _ _) as [[[] | e |] sc]; discriminate.
Qed.

Lemma quality_search_Break_last fuel input_file src_root dst_root args is_heic
    is_jpeg src_size minq :
  minq mod 5 = 0 ->
  forall q st data m st', q mod 5 = 0 -> minq <= q ->
    quality_search E fuel input_file src_root dst_root args is_heic is_jpeg
      src_size minq q st = (Ok (Break data m), st') ->
    exists evs q_last,
      trace st' = trace st ++ evs
      /\ last (attempt_qualities evs) = Some q_last
      /\ label_of_quality q_last m
      /\ (Z.of_nat (length data) < src_size \/ q_last = minq).
Proof.
  intros Hminq. induction fuel as [| fuel IH]; intros q st data m st' Hq Hle;
    [discriminate |].
  rewrite quality_search_S. cbn [emit snd].
  set (st0 := State (fs st) (world st) (trace st ++ [EAttempt q])).
  destruct (only_encode_attempt (E := E) input_file src_root dst_root args is_heic
              is_jpeg q st0) as (ev1 & Ht1 & _ & HP1).
  assert (Hq1 : attempt_qualities ev1 = []).
  { apply attempt_qualities_none. eapply Forall_impl; [exact HP1 |].
    intros e. apply attempt_event_no_attempt. }
  destruct (encode_attempt _ _ _ _ _ _ _ _ _) as [[[[d' m'] |] | e |] st1] eqn:Hea;
    try discriminate.
  cbn [snd] in Ht1. cbn [trace st0] in Ht1.
  pose proof (encode_attempt_label _ _ _ _ _ _ _ _ _ _ _ Hea) as Hlabel.
  assert (Hrec : forall q1, q1 mod 5 = 0 -> minq <= q1 ->
            quality_search E fuel input_file src_root dst_root args is_heic is_jpeg
              src_size minq q1 st1 = (Ok (Break data m), st') ->
            exists evs q_last,
              trace st' = trace st ++ evs
              /\ last (attempt_qualities evs) = Some q_last
              /\ label_of_quality q_last m
              /\ (Z.of_nat (length data) < src_size \/ q_last = minq)).
  { intros q1 Hq1' Hle1 H.
    destruct (IH q1 st1 data m st' Hq1' Hle1 H) as (ev2 & ql & Ht2 & Hl & Hlab & Hfin).
    exists (([EAttempt q] ++ ev1) ++ ev2), ql.
    split; [rewrite Ht2, Ht1, <- !app_assoc; reflexivity |].
    split; [rewrite attempt_qualities_app, last_app, Hl; reflexivity |].
    split; assumption. }
  assert (Hhere : forall fin : Z.of_nat (length d') < src_size \/ q = minq,
            exists evs q_last,
              trace st1 = trace st ++ evs
              /\ last (attempt_qualities evs) = Some q_last
              /\ label_of_quality q_last m'
              /\ (Z.of_nat (length d') < src_size \/ q_last = minq)).
  { intros fin. exists ([EAttempt q] ++ ev1), q.
    split; [rewrite Ht1, <- app_assoc; reflexivity |].
    split; [rewrite attempt_qualities_app, Hq1; reflexivity |].
    split; assumption. }
  destruct (truthy d'); [| apply Hrec; assumption].
  destruct (Z.of_nat (length d') <? src_size) eqn:Hlt.
  { intros [= <- <- <-]. apply Hhere. left. apply Z.ltb_lt. exact Hlt. }
  destruct (q >? minq) eqn:Hgt.
  - apply Hrec.
    + rewrite Zminus_mod, Hq. reflexivity.
    + assert (minq < q) by lia.
      assert (q = 5 * (q / 5)) by (rewrite (Z_div_mod_eq_full q 5) at 1; lia).
      assert (minq = 5 * (minq / 5)) by (rewrite (Z_div_mod_eq_full minq 5) at 1; lia).
      lia.
  - intros [= <- <- <-]. apply Hhere. right. lia.
Qed.

End MoreSearch.

(** The search gives up only at the floor: the payload [process_file] ends
    with is smaller than the source, or it was produced at the configured
    floor. Its method label names the quality of the last iteration (the
    lossless transcode is labelled only at 90). *)
Theorem final_payload_is_smaller_or_at_floor (E : Env) (fuel : nat)
    (input_file src_root dst_root : path) (args : Args) (is_heic is_jpeg : bool)
    (src_size : Z) (st st' : state E) (data : bytes) (m : method) :
  quality_search E fuel input_file src_root dst_root args is_heic is_jpeg
    src_size (min_quality args) 90 st = (Ok (Break data m), st') ->
  exists evs q_last,
    trace st' = trace st ++ evs
    /\ last (attempt_qualities evs) = Some q_last
    /\ label_of_quality q_last m
    /\ (Z.of_nat (length data) < src_size \/ q_last = min_quality args).
Proof.
  pose proof (min_quality_levels args) as H. apply list_elem_of_In in H. cbn in H.
  apply quality_search_Break_last.
  - destruct H as [<- | [<- | [<- | [<- | []]]]]; reflexivity.
  - reflexivity.
  - destruct H as [<- | [<- | [<- | [<- | []]]]]; lia.
Qed.

Lemma final_payload_is_smaller_or_at_floor_witness :
  let st := Fake.start Scenario.fresh Scenario.E_large tt in
  exists evs q_last,
    trace (snd (quality_search Scenario.E_large 4 Scenario.png Scenario.src_root
                  Scenario.dst_root Scenario.lq_args false false 3
                  (min_quality Scenario.lq_args) 90 st)) = trace st ++ evs
    /\ last (attempt_qualities evs) = Some q_last
    /\ label_of_quality q_last (DirectCJXL 75)
    /\ (Z.of_nat (length Scenario.larger) < 3 \/ q_last = min_quality Scenario.lq_args).
Proof.
  cbv zeta.
  refine (final_payload_is_smaller_or_at_floor Scenario.E_large 4 Scenario.png
            Scenario.src_root Scenario.dst_root Scenario.lq_args false false 3
            (Fake.start Scenario.fresh Scenario.E_large tt) _ Scenario.larger
            (DirectCJXL 75) _).
  vm_compute. reflexivity.
Defined.

(** Without Pillow a HEIC/HEIF file always fails in its first pass: the
    routine is entered twice and raises at once both times, no process is
    ever started, the [[ERROR]] line names the missing libraries, and the
    search is not left with a payload. *)
Theorem heic_without_pillow_fails (E : Env) (fuel : nat)
    (input_file src_root dst_root : path) (args : Args) (is_jpeg : bool)
    (src_size minq q : Z) (st : state E) :
  HAS_PILLOW E = false ->
  let r := quality_search E (S fuel) input_file src_root dst_root args true is_jpeg
             src_size minq q st in
  exists evs,
    trace (snd r) = trace st ++ evs
    /\ commands_run evs = []
    /\ attempt_qualities evs = [q]
    /\ pillow_calls evs = [(input_file, q); (input_file, q)]
    /\ LogError (Pathlib.name input_file) (RuntimeError PillowLibsMissing)
         (RuntimeError PillowLibsMissing) ∈ printed evs
    /\ (forall data m, fst r <> Ok (Break data m)).
Proof.
  intros Hp r. subst r.
  set (st0 := snd (emit (EAttempt q) st)).
  assert (Hcall : forall s : state E,
            convert_via_pillow E input_file args q s
            = (Raise (RuntimeError PillowLibsMissing),
               State (fs s) (world s) (trace s ++ [ECallPillow input_file q]))).
  { intros s. unfold convert_via_pillow, bind, emit. rewrite Hp. reflexivity. }
  assert (Hprim : primary_strategies E input_file args true is_jpeg q st0
                  = (Raise (RuntimeError PillowLibsMissing),
                     State (fs st0) (world st0)
                       (trace st0 ++ [ECallPillow input_file q]))).
  { unfold primary_strategies, bind. rewrite Hcall. reflexivity. }
  set (sa := State (fs st0) (world st0) (trace st0 ++ [ECallPillow input_file q])) in *.
  set (info := if q =? 90
               then [EPrint (LogInfoTryingPillow (Pathlib.name input_file))]
               else []).
  assert (Hfb : universal_fallback E input_file args q sa
                = (Raise (RuntimeError PillowLibsMissing),
                   State (fs sa) (world sa)
                     (trace sa ++ info ++ [ECallPillow input_file q]))).
  { unfold universal_fallback. unfold bind at 1. subst info.
    destruct (q =? 90); cbn [print emit ret]; unfold bind; rewrite Hcall;
      cbn [fs world trace]; rewrite <- ?app_assoc; reflexivity. }
  destruct (double_failure_stops fuel input_file src_root dst_root args true is_jpeg
              src_size minq q st _ _ _ _ Hprim Hfb) as [Hr _].
  cbv zeta in Hr. rewrite Hr. cbn [fst snd].
  match goal with
  | |- context [hard_failure E input_file src_root dst_root args ?a ?b ?s] =>
      destruct (hard_failure_trace (E := E) input_file src_root dst_root args a b s)
        as (ev3 & Ht3 & Hev3);
      destruct (hard_failure E input_file src_root dst_root args a b s) as [h sc]
  end.
  cbn [fst snd] in *. cbn [trace sa st0 emit snd] in Ht3.
  destruct (retention_event_quiet _ Hev3) as (Hc3 & Ha3 & Hp3 & _).
  exists ([EAttempt q; ECallPillow input_file q] ++ info
          ++ [ECallPillow input_file q;
              EPrint (LogError (Pathlib.name input_file)
                        (RuntimeError PillowLibsMissing)
                        (RuntimeError PillowLibsMissing))] ++ ev3).
  assert (Hinfo : commands_run info = [] /\ attempt_qualities info = []
                  /\ pillow_calls info = []).
  { subst info. destruct (q =? 90); repeat split. }
  destruct Hinfo as (Hi1 & Hi2 & Hi3).
  split; [rewrite Ht3; cbn; rewrite <- !app_assoc; reflexivity |].
  split; [rewrite !commands_run_app, Hi1, Hc3; reflexivity |].
  split; [rewrite !attempt_qualities_app, Hi2, Ha3; reflexivity |].
  split; [rewrite !pillow_calls_app, Hi3, Hp3; reflexivity |].
  split.
  - rewrite !printed_app. apply elem_of_app. right. apply elem_of_app. right.
    cbn. apply list_elem_of_here.
  - intros data m. destruct h; discriminate.
Qed.

Lemma heic_without_pillow_fails_witness :
  let E := Fake.env false (fun _ _ => Fake.exit_ok Scenario.smaller)
             (fun _ => Some Scenario.content) false "n" in
  let st := Fake.start Scenario.heic_files E tt in
  let r := quality_search E 1 Scenario.heic Scenario.src_root Scenario.dst_root
             Fake.default_args true false 3 90 90 st in
  exists evs,
    trace (snd r) = trace st ++ evs
    /\ commands_run evs = []
    /\ attempt_qualities evs = [90]
    /\ pillow_calls evs = [(Scenario.heic, 90); (Scenario.heic, 90)]
    /\ LogError (Pathlib.name Scenario.heic) (RuntimeError PillowLibsMissing)
         (RuntimeError PillowLibsMissing) ∈ printed evs
    /\ (forall data m, fst r <> Ok (Break data m)).
Proof.
  cbv zeta.
  refine (heic_without_pillow_fails
            (Fake.env false (fun _ _ => Fake.exit_ok Scenario.smaller)
               (fun _ => Some Scenario.content) false "n")
            0 Scenario.heic Scenario.src_root Scenario.dst_root Fake.default_args
            false 3 90 90 _ _).
  reflexivity.
Defined.

(** When the first encode of a file that is neither HEIC nor JPEG exits
    with status 0 and a payload smaller than the source, that payload is
    final: the search made one iteration and started one process. *)
Theorem first_smaller_payload_is_final (E : Env) (fuel : nat)
    (input_file src_root dst_root : path) (args : Args) (src_size minq q : Z)
    (st st1 : state E) (data : bytes) (err : string) :
  run_cjxl_in_memory E (reencode_cmd input_file q) args None
    (snd (emit (EAttempt q) st)) = (Ok (0, data, err), st1) ->
  data <> [] ->
  Z.of_nat (length data) < src_size ->
  quality_search E (S fuel) input_file src_root dst_root args false false
    src_size minq q st = (Ok (Break data (DirectCJXL q)), st1)
  /\ exists evs,
      trace st1 = trace st ++ evs
      /\ attempt_qualities evs = [q]
      /\ length (commands_run evs) = 1%nat
      /\ written_paths evs = [].
Proof.
  intros Hrun Hne Hlt. split.
  - rewrite quality_search_S, encode_attempt_unfold.
    unfold primary_strategies, bind at 1. rewrite Hrun. cbn [Z.eqb ret].
    destruct data as [| b data]; [contradiction |]. cbn [truthy].
    apply Z.ltb_lt in Hlt. rewrite Hlt. reflexivity.
  - destruct (run_cjxl_in_memory_shape E (reencode_cmd input_file q) args None
                (snd (emit (EAttempt q) st)))
      as (cmd & res & w & _ & Heq & _).
    rewrite Hrun in Heq. injection Heq as _ ->.
    eexists [_; _]. cbn [emit snd trace]. rewrite <- app_assoc.
    split; [reflexivity |]. repeat split.
Qed.

Lemma first_smaller_payload_is_final_witness :
  let st := Fake.start Scenario.fresh Scenario.E_pillow tt in
  let st1 := snd (run_cjxl_in_memory Scenario.E_pillow
                    (reencode_cmd Scenario.png 90) Fake.default_args None
                    (snd (emit (EAttempt 90) st))) in
  quality_search Scenario.E_pillow 1 Scenario.png Scenario.src_root
    Scenario.dst_root Fake.default_args false false 3 90 90 st
  = (Ok (Break Scenario.smaller (DirectCJXL 90)), st1)
  /\ exists evs,
      trace st1 = trace st ++ evs
      /\ attempt_qualities evs = [90]
      /\ length (commands_run evs) = 1%nat
      /\ written_paths evs = [].
Proof.
  cbv zeta.
  refine (first_smaller_payload_is_final Scenario.E_pillow 0 Scenario.png
            Scenario.src_root Scenario.dst_root Fake.default_args 3 90 90
            (Fake.start Scenario.fresh Scenario.E_pillow tt) _ Scenario.smaller
            EmptyString _ _ _).
  - vm_compute. reflexivity.
  - discriminate.
  - vm_compute. reflexivity.
Defined.

Section WholeFile.
Context {E : Env}.
Implicit Types (st : state E).

Lemma only_quality_search (P : event -> Prop) input_file src_root dst_root args
    is_heic is_jpeg src_size minq :
  (forall q, P (EAttempt q)) ->
  (forall q e, attempt_event input_file src_root dst_root q e -> P e) ->
  forall fuel q,
    only P (quality_search E fuel input_file src_root dst_root args is_heic is_jpeg
              src_size minq q).
Proof.
  intros Hatt Hev. induction fuel as [| fuel IH]; intros q; [apply only_diverge |].
  cbn [quality_search].
  apply only_bind; [apply only_emit; [discriminate | apply Hatt] | intros _].
  apply only_bind.
  { eapply only_mono; [apply Hev | apply only_encode_attempt]. }
  intros [[d m] |]; [| apply only_ret].
  destruct (truthy d); [| apply IH].
  destruct (_ <? _); [apply only_ret |].
  destruct (_ >? _); [apply IH | apply only_ret].
Qed.

Lemma replay_lookup_unwritten (t : list event) (m : gmap path bytes) (p : path) :
  p ∉ written_paths t -> replay t m !! p = m !! p.
Proof.
  revert m. induction t as [| e t IH]; intros m Hp; [reflexivity |].
  change (replay (e :: t) m) with (replay t (replay [e] m)).
  destruct e; cbn in Hp; try (rewrite IH by exact Hp; reflexivity).
  rewrite IH by (intros H; apply Hp; apply list_elem_of_further; exact H).
  cbn. apply lookup_insert_ne. intros ->. apply Hp. apply list_elem_of_here.
Qed.

Lemma written_paths_none (t : list event) :
  Forall no_write t -> written_paths t = [].
Proof.
  induction 1 as [| e t He _ IH]; [reflexivity |].
  destruct e; cbn in *; try exact IH. contradiction.
Qed.

Lemma copy_original_one_write input_file src_root dst_root reason st :
  exists evs,
    trace (snd (copy_original E input_file src_root dst_root reason st))
      = trace st ++ evs
    /\ (length (written_paths evs) <= 1)%nat.
Proof.
  destruct (Pathlib.relative_to input_file src_root) as [rel |] eqn:Hrel.
  2: { rewrite copy_original_outside by exact Hrel. exists []. cbn.
       rewrite app_nil_r. split; [reflexivity | lia]. }
  destruct (fs st !! Pathlib.joinpath dst_root rel) as [old |] eqn:Hout.
  { rewrite (copy_original_present _ _ _ _ rel) by
      (try assumption; rewrite Hout; eexists; reflexivity).
    eexists [_; _]. split; [reflexivity | cbn; lia]. }
  destruct (fs st !! input_file) as [content |] eqn:Hin.
  - rewrite (copy_original_absent _ _ _ _ rel content) by assumption.
    eexists [_; _; _]. split; [reflexivity | cbn; lia].
  - rewrite (copy_original_missing _ _ _ _ rel) by assumption.
    eexists [_]. split; [reflexivity | cbn; lia].
Qed.

Lemma hard_failure_one_write input_file src_root dst_root args e1 e2 st :
  exists evs,
    trace (snd (hard_failure E input_file src_root dst_root args e1 e2 st))
      = trace st ++ evs
    /\ (length (written_paths evs) <= 1)%nat.
Proof.
  unfold hard_failure. unfold bind at 1. cbn [print emit].
  destruct (negb (force_jxl args)).
  - destruct (copy_original_one_write input_file src_root dst_root "Conversion Failed"
                (State (fs st) (world st)
                   (trace st ++ [EPrint (LogError (Pathlib.name input_file) e1 e2)])))
      as (evs & Ht & Hlen).
    exists (EPrint (LogError (Pathlib.name input_file) e1 e2) :: evs).
    rewrite Ht. cbn [trace]. rewrite <- app_assoc. split; [reflexivity | exact Hlen].
  - eexists [_]. split; [reflexivity | cbn; lia].
Qed.

(** The search writes at most once, and not at all when it is left with a
    payload. *)
Lemma quality_search_one_write input_file src_root dst_root args is_heic is_jpeg
    src_size minq :
  forall fuel q st,
  exists evs,
    trace (snd (quality_search E fuel input_file src_root dst_root args is_heic
                  is_jpeg src_size minq q st)) = trace st ++ evs
    /\ (length (written_paths evs) <= 1)%nat
    /\ (forall data m,
          fst (quality_search E fuel input_file src_root dst_root args is_heic
                 is_jpeg src_size minq q st) = Ok (Break data m) ->
          written_paths evs = []).
Proof.
  induction fuel as [| fuel IH]; intros q st.
  { exists []. cbn. rewrite app_nil_r. split; [reflexivity |]. split; [lia | auto]. }
  rewrite quality_search_S, encode_attempt_unfold. cbn [emit snd].
  set (st0 := State (fs st) (world st) (trace st ++ [EAttempt q])).
  destruct (encoder_event_frames (E := E) input_file args is_heic is_jpeg q)
    as [Fp Ff].
  assert (Hnone : forall s', grows (encoder_event input_file q) st0 s' ->
            exists ev, trace s' = trace st ++ [EAttempt q] ++ ev
                       /\ written_paths ev = []).
  { intros s' (ev & Ht & _ & Hev). exists ev. split; [rewrite Ht; cbn;
      rewrite <- app_assoc; reflexivity |].
    apply written_paths_none. eapply Forall_impl; [exact Hev |].
    intros e. apply encoder_event_no_write. }
  assert (Hstop : forall (r : result loop_exit) s',
            grows (encoder_event input_file q) st0 s' ->
            exists evs, trace (snd (r, s')) = trace st ++ evs
              /\ (length (written_paths evs) <= 1)%nat
              /\ (forall data m, fst (r, s') = Ok (Break data m) ->
                  written_paths evs = [])).
  { intros r s' Hg. destruct (Hnone s' Hg) as (ev & Ht & Hw).
    exists ([EAttempt q] ++ ev). cbn [fst snd]. split; [exact Ht |].
    rewrite written_paths_app, Hw. cbn. split; [lia | auto]. }
  assert (Hgo : forall q1 s', grows (encoder_event input_file q) st0 s' ->
            exists evs,
              trace (snd (quality_search E fuel input_file src_root dst_root args
                            is_heic is_jpeg src_size minq q1 s')) = trace st ++ evs
              /\ (length (written_paths evs) <= 1)%nat
              /\ (forall data m,
                    fst (quality_search E fuel input_file src_root dst_root args
                           is_heic is_jpeg src_size minq q1 s') = Ok (Break data m) ->
                    written_paths evs = [])).
  { intros q1 s' Hg. destruct (Hnone s' Hg) as (ev & Ht & Hw).
    destruct (IH q1 s') as (ev2 & Ht2 & Hlen & Hbrk).
    exists (([EAttempt q] ++ ev) ++ ev2).
    split; [rewrite Ht2, Ht, <- !app_assoc; reflexivity |].
    rewrite !written_paths_app, Hw. cbn. split; [exact Hlen | exact Hbrk]. }
  assert (Hloop : forall (x : bytes * method) s',
            grows (encoder_event input_file q) st0 s' ->
            exists evs,
              trace (snd (let '(jxl_data, m) := x in
                          if truthy jxl_data
                          then if Z.of_nat (length jxl_data) <? src_size
                               then (Ok (Break jxl_data m), s')
                               else if q >? minq
                                    then quality_search E fuel input_file src_root
                                           dst_root args is_heic is_jpeg src_size minq
                                           (q - 5) s'
                                    else (Ok (Break jxl_data m), s')
                          else quality_search E fuel input_file src_root dst_root args
                                 is_heic is_jpeg src_size minq q s'))
                = trace st ++ evs
              /\ (length (written_paths evs) <= 1)%nat
              /\ (forall data m,
                    fst (let '(jxl_data, m) := x in
                         if truthy jxl_data
                         then if Z.of_nat (length jxl_data) <? src_size
                              then (Ok (Break jxl_data m), s')
                              else if q >? minq
                                   then quality_search E fuel input_file src_root
                                          dst_root args is_heic is_jpeg src_size minq
                                          (q - 5) s'
                                   else (Ok (Break jxl_data m), s')
                         else quality_search E fuel input_file src_root dst_root args
                                is_heic is_jpeg src_size minq q s')
                    = Ok (Break data m) -> written_paths evs = [])).
  { intros [d m0] s' Hg. destruct (truthy d); [| apply Hgo; exact Hg].
    destruct (_ <? _); [apply Hstop; exact Hg |].
    destruct (_ >? _); [apply Hgo; exact Hg | apply Hstop; exact Hg]. }
  specialize (Fp st0).
  destruct (primary_strategies _ _ _ _ _ _ _) as [[x | e1 |] sa]; cbn [snd] in Fp.
  - apply Hloop. exact Fp.
  - specialize (Ff sa).
    assert (Hsa : forall s', grows (encoder_event input_file q) sa s' ->
              grows (encoder_event input_file q) st0 s').
    { intros s' H. eapply grows_trans; eassumption. }
    destruct (universal_fallback _ _ _ _ _) as [[x | e2 |] sb]; cbn [snd] in Ff.
    + apply Hloop. apply Hsa. exact Ff.
    + destruct (Hnone sb (Hsa _ Ff)) as (ev & Ht & Hw).
      destruct (hard_failure_one_write input_file src_root dst_root args e1 e2 sb)
        as (ev3 & Ht3 & Hlen).
      destruct (hard_failure _ _ _ _ _ _ _ _) as [h sc]. cbn [snd] in Ht3.
      exists (([EAttempt q] ++ ev) ++ ev3).
      assert (Hout : snd (match @after_failure unit (bytes * method) h with
                          | Ok (Some (jxl_data, m)) =>
                              if truthy jxl_data
                              then if Z.of_nat (length jxl_data) <? src_size
                                   then (Ok (Break jxl_data m), sc)
                                   else if q >? minq
                                        then quality_search E fuel input_file src_root
                                               dst_root args is_heic is_jpeg src_size
                                               minq (q - 5) sc
                                        else (Ok (Break jxl_data m), sc)
                              else quality_search E fuel input_file src_root dst_root
                                     args is_heic is_jpeg src_size minq q sc
                          | Ok None => (Ok Return, sc)
                          | Raise e => (Raise e, sc)
                          | Diverge => (Diverge, sc)
                          end) = sc
                     /\ forall data m,
                          fst (match @after_failure unit (bytes * method) h with
                               | Ok (Some (jxl_data, m)) =>
                                   if truthy jxl_data
                                   then if Z.of_nat (length jxl_data) <? src_size
                                        then (Ok (Break jxl_data m), sc)
                                        else if q >? minq
                                             then quality_search E fuel input_file
                                                    src_root dst_root args is_heic
                                                    is_jpeg src_size minq (q - 5) sc
                                             else (Ok (Break jxl_data m), sc)
                                   else quality_search E fuel input_file src_root
                                          dst_root args is_heic is_jpeg src_size minq
                                          q sc
                               | Ok None => (Ok Return, sc)
                               | Raise e => (Raise e, sc)
                               | Diverge => (Diverge, sc)
                               end) <> Ok (Break data m)).
      { destruct h as [[] | e |]; cbn; split; try reflexivity; discriminate. }
      destruct Hout as [Hsc Hnb]. rewrite Hsc.
      split; [rewrite Ht3, Ht, <- !app_assoc; reflexivity |].
      rewrite !written_paths_app, Hw. cbn. split; [exact Hlen |].
      intros data m H. exfalso. eapply Hnb. exact H.
    + apply Hstop. apply Hsa. exact Ff.
  - apply Hstop. exact Fp.
Qed.

End WholeFile.

Section OwnWrites.
Context {E : Env}.
Implicit Types (st : state E).

Lemma final_save_decision_own input_file src_root dst_root args src_size data m
    rel rel_jxl :
  Pathlib.relative_to input_file src_root = Some rel ->
  Pathlib.with_suffix rel ".jxl" = Some rel_jxl ->
  only (own_write input_file src_root dst_root)
    (final_save_decision E input_file src_root dst_root
       (Pathlib.joinpath dst_root rel_jxl) args src_size data m).
Proof.
  intros Hrel Hjxl. unfold final_save_decision.
  destruct (truthy data); [| apply only_ret].
  destruct (_ || _)%bool.
  - apply only_bind.
    { apply only_write_bytes. cbn. exists rel. split; [exact Hrel |].
      right. exists rel_jxl. split; [exact Hjxl | reflexivity]. }
    intros _. apply only_bind;
      [destruct (src_size =? 0); [apply only_raise | apply only_ret] | intros _].
    apply only_bind; [destruct (_ >=? _); apply only_print; exact I | intros _].
    apply only_copy_metadata; simpl; auto.
  - apply only_copy_original; simpl; auto.
    intros rel0 d Hrel0. exists rel0. split; [exact Hrel0 | left; reflexivity].
Qed.

Lemma final_save_decision_one_write input_file src_root dst_root output_file args
    src_size data m st :
  exists evs,
    trace (snd (final_save_decision E input_file src_root dst_root output_file args
                  src_size data m st)) = trace st ++ evs
    /\ (length (written_paths evs) <= 1)%nat.
Proof.
  unfold final_save_decision.
  destruct (truthy data);
    [| exists []; cbn; rewrite app_nil_r; split; [reflexivity | lia]].
  destruct (_ || _)%bool; [| apply copy_original_one_write].
  unfold bind at 1. cbn [write_bytes].
  set (s1 := State (<[output_file := data]> (fs st)) (world st)
               (trace st ++ [EWrite output_file data])).
  assert (Hrest : only (E := E) no_write
            (bind (if src_size =? 0 then raise ZeroDivisionError else ret tt)
               (fun _ =>
                  bind (if Z.of_nat (length data) >=? src_size
                        then print E (LogForced (Pathlib.name input_file) m)
                        else print E (LogOk (Pathlib.name input_file) m))
                    (fun _ => copy_metadata E input_file output_file)))).
  { apply only_bind;
      [destruct (src_size =? 0); [apply only_raise | apply only_ret] | intros _].
    apply only_bind; [destruct (_ >=? _); apply only_print; exact I | intros _].
    apply only_copy_metadata; simpl; auto. }
  destruct (Hrest s1) as (ev & Ht & _ & Hev).
  exists ([EWrite output_file data] ++ ev). rewrite Ht. cbn [trace s1].
  split; [rewrite <- app_assoc; reflexivity |].
  rewrite written_paths_app, (written_paths_none _ Hev). cbn. lia.
Qed.

Lemma own_write_of_prologue input_file src_root dst_root e :
  prologue_event e -> own_write input_file src_root dst_root e.
Proof. destruct e; simpl; auto; contradiction. Qed.

Lemma own_write_of_attempt input_file src_root dst_root q e :
  attempt_event input_file src_root dst_root q e ->
  own_write input_file src_root dst_root e.
Proof.
  destruct e; simpl; auto. intros (rel & Hrel & ->). exists rel.
  split; [exact Hrel | left; reflexivity].
Qed.

Lemma process_file_frame fuel input_file src_root dst_root args st :
  exists evs,
    trace (snd (process_file E fuel input_file src_root dst_root args st))
      = trace st ++ evs
    /\ fs (snd (process_file E fuel input_file src_root dst_root args st))
       = replay evs (fs st)
    /\ Forall (own_write input_file src_root dst_root) evs
    /\ (length (written_paths evs) <= 1)%nat.
Proof.
  unfold process_file, bind.
  destruct (only_prologue prologue_event fuel input_file src_root dst_root args
              ltac:(simpl; auto) ltac:(simpl; auto) ltac:(simpl; auto) st)
    as (ev1 & Ht1 & Hf1 & Hp1).
  assert (Hw1 : written_paths ev1 = []).
  { apply written_paths_none. eapply Forall_impl; [exact Hp1 |].
    intros e. apply prologue_event_no_write. }
  assert (Ho1 : Forall (own_write input_file src_root dst_root) ev1).
  { eapply Forall_impl; [exact Hp1 |]. intros e. apply own_write_of_prologue. }
  destruct (prologue _ _ _ _ _ _ _) as [[[[output_file src_size] |] | e |] st1]
    eqn:Hpro; cbn [snd] in Ht1, Hf1.
  2-4: exists ev1; cbn [snd ret]; rewrite Hw1;
       (split; [exact Ht1 |]); (split; [exact Hf1 |]); (split; [exact Ho1 |]);
       cbn; lia.
  destruct (prologue_Some _ _ _ _ _ _ _ _ _ Hpro)
    as (rel & rel_jxl & content & Hrel & Hjxl & -> & _).
  set (is_heic := is_heic_ext (Pathlib.lower (Pathlib.suffix input_file))).
  set (is_jpeg := is_jpeg_ext (Pathlib.lower (Pathlib.suffix input_file))).
  destruct (only_quality_search (own_write input_file src_root dst_root) input_file
              src_root dst_root args is_heic is_jpeg src_size (min_quality args)
              (fun _ => I) (own_write_of_attempt input_file src_root dst_root)
              fuel 90 st1) as (ev2 & Ht2 & Hf2 & Ho2).
  destruct (quality_search_one_write input_file src_root dst_root args is_heic
              is_jpeg src_size (min_quality args) fuel 90 st1)
    as (ev2' & Ht2' & Hlen2 & Hbrk).
  assert (ev2' = ev2) as ->.
  { rewrite Ht2 in Ht2'. apply app_inv_head in Ht2'. symmetry. exact Ht2'. }
  destruct (quality_search _ _ _ _ _ _ _ _ _ _ _ _) as [[[data m |] | e |] st2];
    cbn [fst snd] in *.
  2-4: exists (ev1 ++ ev2); cbn [snd ret];
       (split; [rewrite Ht2, Ht1, app_assoc; reflexivity |]);
       (split; [rewrite Hf2, Hf1; symmetry; apply replay_app |]);
       (split; [apply Forall_app; split; assumption |]);
       rewrite written_paths_app, Hw1; exact Hlen2.
  destruct (final_save_decision_own input_file src_root dst_root args src_size data m
              rel rel_jxl Hrel Hjxl st2) as (ev3 & Ht3 & Hf3 & Ho3).
  destruct (final_save_decision_one_write input_file src_root dst_root
              (Pathlib.joinpath dst_root rel_jxl) args src_size data m st2)
    as (ev3' & Ht3' & Hlen3).
  assert (ev3' = ev3) as ->.
  { rewrite Ht3 in Ht3'. apply app_inv_head in Ht3'. symmetry. exact Ht3'. }
  exists (ev1 ++ ev2 ++ ev3).
  split; [rewrite Ht3, Ht2, Ht1, <- !app_assoc; reflexivity |].
  split; [rewrite Hf3, Hf2, Hf1, !replay_app; reflexivity |].
  split; [repeat (apply Forall_app; split); assumption |].
  rewrite !written_paths_app, Hw1, (Hbrk data m eq_refl). exact Hlen3.
Qed.

End OwnWrites.

(** Whatever happens, one call of [process_file] writes at most one file
    itself (the processes it starts apart), and only the [.jxl] destination
    or the path the original is retained at; every other file, the source
    among them when it lies elsewhere, is as its own writes left it
    before. *)
Theorem process_file_writes_one_file_of_its_own (E : Env) (fuel : nat)
    (input_file src_root dst_root : path) (args : Args) (st : state E) :
  let r := process_file E fuel input_file src_root dst_root args st in
  exists evs,
    trace (snd r) = trace st ++ evs
    /\ Forall (own_write input_file src_root dst_root) evs
    /\ (length (written_paths evs) <= 1)%nat
    /\ (forall p, p ∉ written_paths evs -> fs (snd r) !! p = fs st !! p).
Proof.
  cbv zeta.
  destruct (process_file_frame (E := E) fuel input_file src_root dst_root args st)
    as (evs & Ht & Hf & Ho & Hlen).
  exists evs. split; [exact Ht |]. split; [exact Ho |]. split; [exact Hlen |].
  intros p Hp. rewrite Hf. apply replay_lookup_unwritten. exact Hp.
Qed.

(** An existing destination under the prompting policy, answered "n":
    [process_file] asks once, prints [[SKIP]] and returns; no file has
    changed and no encoder has run. *)
Theorem declined_overwrite_skips (E : Env) (fuel : nat)
    (input_file src_root dst_root : path) (args : Args) (st : state E)
    (rel rel_jxl : path) (w' : World E) :
  Pathlib.relative_to input_file src_root = Some rel ->
  Pathlib.with_suffix rel ".jxl" = Some rel_jxl ->
  is_Some (fs st !! Pathlib.joinpath dst_root rel_jxl) ->
  skip args = false ->
  overwrite args = false ->
  read_answer E (Pathlib.name (Pathlib.joinpath dst_root rel_jxl)) (world st)
    = ("n"%string, w') ->
  process_file E (S fuel) input_file src_root dst_root args st
  = (Ok tt,
     State (fs st) w'
       (trace st ++ [EInput (Pathlib.name (Pathlib.joinpath dst_root rel_jxl)) "n";
                     EPrint (LogSkip (Pathlib.name input_file))])).
Proof.
  intros Hrel Hjxl Hout Hskip Hover Hans.
  apply process_file_skipped.
  unfold prologue, relative_to, with_suffix. rewrite Hrel.
  unfold bind at 1. cbn [ret]. rewrite Hjxl.
  unfold bind at 1. cbn [ret]. unfold bind at 1.
  unfold conflict_resolution, bind at 1, path_exists.
  rewrite bool_decide_eq_true_2 by exact Hout. rewrite Hskip, Hover.
  cbn [prompt_loop]. unfold bind at 1, input_answer. rewrite Hans.
  cbn [String.eqb Ascii.eqb Bool.eqb]. unfold bind, print, emit, ret.
  cbn [fs world trace negb]. rewrite <- app_assoc. reflexivity.
Qed.

Lemma declined_overwrite_skips_witness :
  process_file Scenario.E_large 1 Scenario.png Scenario.src_root Scenario.dst_root
    Fake.default_args (Fake.start Scenario.converted Scenario.E_large tt)
  = (Ok tt,
     State (E := Scenario.E_large) Scenario.converted tt
       ([] ++ [EInput (Pathlib.name (Pathlib.joinpath Scenario.dst_root
                                       ["a.jxl"]%string)) "n";
               EPrint (LogSkip (Pathlib.name Scenario.png))])).
Proof.
  refine (declined_overwrite_skips Scenario.E_large 0 Scenario.png Scenario.src_root
            Scenario.dst_root Fake.default_args
            (Fake.start Scenario.converted Scenario.E_large tt)
            ["a.png"]%string ["a.jxl"]%string tt _ _ _ _ _ _).
  - reflexivity.
  - reflexivity.
  - exists Scenario.smaller. vm_compute. reflexivity.
  - reflexivity.
  - reflexivity.
  - reflexivity.
Defined.

(** The prompt is repeated until the answer is "y" or "n": after any
    number of other answers, a "y" lets the file proceed, and each answer
    was asked for once, in order. *)
Theorem prompt_repeats_until_answered (dflt input_name output_name : string)
    (junk rest : list string) (fuel : nat) (files : gmap path bytes)
    (t : list event) :
  Forall (fun a => a <> "y"%string /\ a <> "n"%string) junk ->
  (length junk < fuel)%nat ->
  prompt_loop (Interactive.env dflt) fuel input_name output_name
    (State (E := Interactive.env dflt) files (junk ++ "y"%string :: rest) t)
  = (Ok true,
     State (E := Interactive.env dflt) files rest
       (t ++ (EInput output_name <$> (junk ++ ["y"%string])))).
Proof.
  intros Hjunk. revert fuel t.
  induction Hjunk as [| a junk [Hy Hn] _ IH]; intros fuel t Hfuel.
  - destruct fuel as [| fuel]; [cbn in Hfuel; lia |]. reflexivity.
  - destruct fuel as [| fuel]; [cbn in Hfuel; lia |].
    cbn [prompt_loop]. unfold bind at 1, input_answer.
    cbn [read_answer Interactive.env world hd tl app fs trace].
    apply String.eqb_neq in Hy. apply String.eqb_neq in Hn. rewrite Hy, Hn.
    rewrite IH by (cbn in Hfuel; lia).
    cbn [fmap list_fmap app]. rewrite <- app_assoc. reflexivity.
Qed.

Lemma prompt_repeats_until_answered_witness :
  prompt_loop (Interactive.env "") 3 "a.png" "a.jxl"
    (State (E := Interactive.env "") ∅
       (["maybe"%string; ""%string] ++ "y"%string :: ["n"%string]) [])
  = (Ok true,
     State (E := Interactive.env "") ∅ ["n"%string]
       ([] ++ (EInput "a.jxl" <$> (["maybe"%string; ""%string] ++ ["y"%string])))).
Proof.
  refine (prompt_repeats_until_answered "" "a.png" "a.jxl"
            ["maybe"%string; ""%string] ["n"%string] 3 ∅ [] _ _).
  - repeat constructor; discriminate.
  - cbn. lia.
Defined.

Section Unattended.
Context {E : Env}.
Implicit Types (st : state E).

Lemma prompts_silent (t : list event) : Forall silent t -> prompts t = [].
Proof.
  induction 1 as [| e t He _ IH]; [reflexivity |].
  destruct e; cbn in *; try exact IH. contradiction.
Qed.

Lemma only_prologue_unattended fuel input_file src_root dst_root args :
  skip args = true \/ overwrite args = true ->
  only (E := E) silent (prologue E fuel input_file src_root dst_root args).
Proof.
  intros Hpolicy. unfold prologue, relative_to, with_suffix.
  apply only_bind;
    [destruct (Pathlib.relative_to _ _); [apply only_ret | apply only_raise] |].
  intros rel. apply only_bind;
    [destruct (Pathlib.with_suffix _ _); [apply only_ret | apply only_raise] |].
  intros rel_jxl. apply only_bind.
  { unfold conflict_resolution.
    apply only_bind; [apply only_path_exists | intros present].
    destruct present; [| apply only_ret].
    destruct (skip args) eqn:Hs.
    { apply only_bind; [apply only_print; exact I | intros; apply only_ret]. }
    destruct (overwrite args) eqn:Ho; [apply only_ret |].
    destruct Hpolicy; discriminate. }
  intros proceed. destruct (negb proceed); [apply only_ret |].
  apply only_bind; [apply only_mkdir; exact I | intros _].
  apply only_bind; [apply only_stat_size | intros; apply only_ret].
Qed.

Lemma only_process_file_unattended fuel input_file src_root dst_root args :
  skip args = true \/ overwrite args = true ->
  only (E := E) silent (process_file E fuel input_file src_root dst_root args).
Proof.
  intros Hpolicy. unfold process_file.
  apply only_bind; [apply only_prologue_unattended; exact Hpolicy |].
  intros [[output_file src_size] |]; [| apply only_ret].
  apply only_bind.
  { apply only_quality_search; [intros; exact I |].
    intros q []; simpl; auto. }
  intros [data m |]; [| apply only_ret].
  apply only_final_save_decision; simpl; auto.
Qed.

End Unattended.

(** With [--skip] or [--overwrite] a file is processed without a single
    question to the terminal. *)
Theorem policy_makes_run_unattended (E : Env) (fuel : nat)
    (input_file src_root dst_root : path) (args : Args) (st : state E) :
  skip args = true \/ overwrite args = true ->
  exists evs,
    trace (snd (process_file E fuel input_file src_root dst_root args st))
      = trace st ++ evs
    /\ prompts evs = [].
Proof.
  intros Hpolicy.
  destruct (only_process_file_unattended (E := E) fuel input_file src_root dst_root
              args Hpolicy st) as (evs & Ht & _ & Hs).
  exists evs. split; [exact Ht | apply prompts_silent; exact Hs].
Qed.

Lemma policy_makes_run_unattended_witness :
  exists evs,
    trace (snd (process_file Scenario.E_large 1 Scenario.png Scenario.src_root
                  Scenario.dst_root Scenario.skip_args
                  (Fake.start Scenario.converted Scenario.E_large tt)))
      = trace (Fake.start Scenario.converted Scenario.E_large tt) ++ evs
    /\ prompts evs = [].
Proof.
  refine (policy_makes_run_unattended Scenario.E_large 1 Scenario.png
            Scenario.src_root Scenario.dst_root Scenario.skip_args
            (Fake.start Scenario.converted Scenario.E_large tt) _).
  left. reflexivity.
Defined.

(** ** The batch loop *)

Section BatchLoop.
Context {E : Env}.
Implicit Types (st : state E).

Lemma process_item_not_a_file fuel item src dst args copy_extensions st :
  fs st !! item = None ->
  process_item E fuel item src dst args copy_extensions st = (Ok tt, st).
Proof.
  intros Hfile. unfold process_item, bind at 1, path_exists.
  rewrite bool_decide_eq_false_2 by (rewrite Hfile; apply is_Some_None).
  reflexivity.
Qed.

Lemma process_item_file fuel item src dst args copy_extensions st :
  is_Some (fs st !! item) ->
  process_item E fuel item src dst args copy_extensions st
  = (let ext := Pathlib.lower (Pathlib.suffix item) in
     if (bool_decide (ext ∈ copy_extensions) || bool_decide (ext ∈ UNSUPPORTED_EXTS))%bool
     then
       bind (relative_to E item src)
         (fun rel =>
            let out := Pathlib.joinpath dst rel in
            bind (mkdir E (Pathlib.parent out))
              (fun _ =>
                 bind (path_exists E out)
                   (fun present =>
                      if negb present then
                        bind (read_bytes E item)
                          (fun data =>
                             bind (write_bytes E out data)
                               (fun _ =>
                                  print E
                                    (LogCopy (Pathlib.name item)
                                       (if bool_decide (ext ∈ copy_extensions)
                                        then "Explicit Copy" else "Unsupported"))))
                      else ret tt)))
     else if bool_decide (ext ∈ IMAGE_EXTS) then process_file E fuel item src dst args
     else ret tt) st.
Proof.
  intros Hfile. unfold process_item, bind at 1, path_exists.
  rewrite bool_decide_eq_true_2 by exact Hfile. reflexivity.
Qed.

Lemma main_loop_app fuel (done rest : list path) src dst args copy_extensions st :
  main_loop E fuel (done ++ rest) src dst args copy_extensions st
  = bind (main_loop E fuel done src dst args copy_extensions)
      (fun _ => main_loop E fuel rest src dst args copy_extensions) st.
Proof.
  revert st. induction done as [| item done IH]; intros st; [reflexivity |].
  cbn [app main_loop]. unfold bind.
  destruct (process_item _ _ _ _ _ _ _ _) as [[[] | e |] s1]; try reflexivity.
  rewrite IH. reflexivity.
Qed.

Lemma own_write_below input_file src_root dst_root e :
  own_write input_file src_root dst_root e -> below dst_root e.
Proof.
  destruct e; simpl; auto.
  intros (rel & _ & [-> | (rel_jxl & _ & ->)]); eexists; reflexivity.
Qed.

Lemma only_process_item_below fuel item src dst args copy_extensions :
  only (E := E) (below dst) (process_item E fuel item src dst args copy_extensions).
Proof.
  unfold process_item.
  apply only_bind; [apply only_path_exists | intros is_file].
  destruct (negb is_file); [apply only_ret |].
  cbv zeta. destruct (_ || _)%bool.
  - unfold relative_to. destruct (Pathlib.relative_to item src) as [rel |];
      [apply only_bind_ret | intros st; apply grows_refl].
    apply only_bind; [apply only_mkdir; exact I | intros _].
    apply only_bind; [apply only_path_exists | intros present].
    destruct (negb present); [| apply only_ret].
    apply only_bind; [apply only_read_bytes | intros data].
    apply only_bind; [| intros _; apply only_print; exact I].
    apply only_write_bytes. exists rel. reflexivity.
  - destruct (bool_decide _); [| apply only_ret].
    intros st.
    destruct (process_file_frame (E := E) fuel item src dst args st)
      as (evs & Ht & Hf & Ho & _).
    exists evs. split; [exact Ht |]. split; [exact Hf |].
    eapply Forall_impl; [exact Ho |]. intros e. apply own_write_below.
Qed.

Lemma only_main_loop_below fuel all_files src dst args copy_extensions :
  only (E := E) (below dst) (main_loop E fuel all_files src dst args copy_extensions).
Proof.
  induction all_files as [| item rest IH]; [apply only_ret |].
  cbn [main_loop]. apply only_bind; [apply only_process_item_below | intros _].
  exact IH.
Qed.

Lemma replay_lookup_outside (dst : path) (t : list event) (m : gmap path bytes) (p : path) :
  Forall (below dst) t -> (forall rel, p <> Pathlib.joinpath dst rel) ->
  replay t m !! p = m !! p.
Proof.
  intros Ht Hp. apply replay_lookup_other.
  eapply Forall_impl; [exact Ht |]. intros []; simpl; auto.
  intros (rel & ->). intros Heq. apply (Hp rel). symmetry. exact Heq.
Qed.

End BatchLoop.

(** The batch itself never writes outside the destination tree: every
    write of the loop of [main] goes to a path below [dst], and a path that
    is not below [dst] holds after the run what it held before (the
    processes the batch starts apart). *)
Theorem batch_writes_only_below_destination (E : Env) (fuel : nat)
    (all_files : list path) (src dst : path) (args : Args)
    (copy_extensions : gset string) (st : state E) :
  let r := main_loop E fuel all_files src dst args copy_extensions st in
  exists evs,
    trace (snd r) = trace st ++ evs
    /\ Forall (below dst) evs
    /\ (forall p, (forall rel, p <> Pathlib.joinpath dst rel) ->
                  fs (snd r) !! p = fs st !! p).
Proof.
  cbv zeta.
  destruct (only_main_loop_below (E := E) fuel all_files src dst args copy_extensions st)
    as (evs & Ht & Hf & Hb).
  exists evs. split; [exact Ht |]. split; [exact Hb |].
  intros p Hp. rewrite Hf. apply (replay_lookup_outside dst); assumption.
Qed.

(** [main] has no handler around [process_file]: the first exception that
    escapes one file ends the loop, and the files listed after it are not
    looked at. *)
Theorem batch_stops_at_first_exception (E : Env) (fuel : nat)
    (done rest : list path) (item src dst : path) (args : Args)
    (copy_extensions : gset string) (st st1 st2 : state E) (e : exn) :
  main_loop E fuel done src dst args copy_extensions st = (Ok tt, st1) ->
  process_item E fuel item src dst args copy_extensions st1 = (Raise e, st2) ->
  main_loop E fuel (done ++ item :: rest) src dst args copy_extensions st
  = (Raise e, st2).
Proof.
  intros Hdone Hitem. rewrite main_loop_app. unfold bind at 1. rewrite Hdone.
  cbn [main_loop]. unfold bind at 1. rewrite Hitem. reflexivity.
Qed.

Lemma batch_stops_at_first_exception_witness :
  main_loop Scenario.E_large 1 ([] ++ Scenario.png :: [Scenario.heic])
    Scenario.src_root Scenario.dst_root Scenario.force_args ∅
    (Fake.start Scenario.empty_source Scenario.E_large tt)
  = (Raise ZeroDivisionError,
     snd (process_item Scenario.E_large 1 Scenario.png Scenario.src_root
            Scenario.dst_root Scenario.force_args ∅
            (Fake.start Scenario.empty_source Scenario.E_large tt))).
Proof.
  refine (batch_stops_at_first_exception Scenario.E_large 1 [] [Scenario.heic]
            Scenario.png Scenario.src_root Scenario.dst_root Scenario.force_args ∅
            (Fake.start Scenario.empty_source Scenario.E_large tt) _ _
            ZeroDivisionError _ _).
  - reflexivity.
  - vm_compute. reflexivity.
Defined.

(** A file whose extension was named with [--copy] or is one of the
    unsupported ones is never encoded, even when the extension is also an
    image extension: it is copied byte for byte when the destination has no
    such file (and [[COPY]] is printed), and otherwise nothing is written
    and nothing is printed. *)
Theorem copied_extensions_bypass_conversion (E : Env) (fuel : nat)
    (item src dst rel : path) (args : Args) (copy_extensions : gset string)
    (content : bytes) (st : state E) :
  fs st !! item = Some content ->
  Pathlib.relative_to item src = Some rel ->
  Pathlib.lower (Pathlib.suffix item) ∈ copy_extensions
  \/ Pathlib.lower (Pathlib.suffix item) ∈ UNSUPPORTED_EXTS ->
  let out := Pathlib.joinpath dst rel in
  process_item E fuel item src dst args copy_extensions st
  = match fs st !! out with
    | Some _ =>
        (Ok tt, State (fs st) (world st) (trace st ++ [EMkdir (Pathlib.parent out)]))
    | None =>
        (Ok tt,
         State (<[out := content]> (fs st)) (world st)
           (trace st ++
            [EMkdir (Pathlib.parent out);
             EWrite out content;
             EPrint (LogCopy (Pathlib.name item)
                       (if bool_decide (Pathlib.lower (Pathlib.suffix item)
                                          ∈ copy_extensions)
                        then "Explicit Copy" else "Unsupported"))]))
    end.
Proof.
  intros Hfile Hrel Hext out. subst out.
  rewrite process_item_file by (rewrite Hfile; eexists; reflexivity).
  cbv zeta.
  replace (bool_decide (Pathlib.lower (Pathlib.suffix item) ∈ copy_extensions)
           || bool_decide (Pathlib.lower (Pathlib.suffix item) ∈ UNSUPPORTED_EXTS))%bool
    with true.
  2: { symmetry. apply orb_true_iff.
       destruct Hext as [H | H]; [left | right]; apply bool_decide_eq_true_2; exact H. }
  unfold relative_to. rewrite Hrel.
  unfold bind, ret, mkdir, emit, path_exists, read_bytes, write_bytes, print, emit.
  cbn [fs world trace].
  destruct (fs st !! Pathlib.joinpath dst rel) as [old |] eqn:Hout.
  - rewrite bool_decide_eq_true_2 by (eexists; reflexivity). reflexivity.
  - rewrite bool_decide_eq_false_2 by apply is_Some_None.
    cbn [negb fs world trace]. rewrite Hfile. cbn [fs world trace].
    rewrite <- !app_assoc. reflexivity.
Qed.

Lemma copied_extensions_bypass_conversion_witness :
  process_item Scenario.E_large 1 Scenario.png Scenario.src_root Scenario.dst_root
    Fake.default_args (copy_extension_set ["PNG"%string])
    (Fake.start Scenario.fresh Scenario.E_large tt)
  = (Ok tt,
     State (E := Scenario.E_large)
       (<[ ["out"; "a.png"]%string := Scenario.content ]> Scenario.fresh) tt
       [EMkdir ["out"]%string;
        EWrite ["out"; "a.png"]%string Scenario.content;
        EPrint (LogCopy "a.png" "Explicit Copy")]).
Proof.
  refine (copied_extensions_bypass_conversion Scenario.E_large 1 Scenario.png
            Scenario.src_root Scenario.dst_root ["a.png"]%string Fake.default_args
            (copy_extension_set ["PNG"%string]) Scenario.content
            (Fake.start Scenario.fresh Scenario.E_large tt) _ _ _).
  - vm_compute. reflexivity.
  - reflexivity.
  - left. unfold copy_extension_set. apply elem_of_list_to_set.
    apply list_elem_of_In. vm_compute. left. reflexivity.
Defined.

(** An entry that is not a file, or whose extension is neither copied,
    unsupported nor an image extension, is passed over: nothing is read,
    written or printed for it, and it does not reach the destination. *)
Theorem other_entries_are_passed_over (E : Env) (fuel : nat)
    (item src dst : path) (args : Args) (copy_extensions : gset string)
    (st : state E) :
  fs st !! item = None
  \/ ((Pathlib.lower (Pathlib.suffix item) ∉ copy_extensions)
      /\ (Pathlib.lower (Pathlib.suffix item) ∉ UNSUPPORTED_EXTS)
      /\ (Pathlib.lower (Pathlib.suffix item) ∉ IMAGE_EXTS)) ->
  process_item E fuel item src dst args copy_extensions st = (Ok tt, st).
Proof.
  intros [Hnone | (Hc & Hu & Hi)]; [apply process_item_not_a_file; exact Hnone |].
  destruct (fs st !! item) as [content |] eqn:Hfile;
    [| apply process_item_not_a_file; exact Hfile].
  rewrite process_item_file by (rewrite Hfile; eexists; reflexivity).
  cbv zeta. rewrite !bool_decide_eq_false_2 by assumption. reflexivity.
Qed.

Lemma other_entries_are_passed_over_witness :
  process_item Scenario.E_large 1 ["photos"; "notes.txt"]%string Scenario.src_root
    Scenario.dst_root Fake.default_args ∅
    (State (E := Scenario.E_large)
       {[ ["photos"; "notes.txt"]%string := Scenario.content ]} tt [])
  = (Ok tt,
     State (E := Scenario.E_large)
       {[ ["photos"; "notes.txt"]%string := Scenario.content ]} tt []).
Proof.
  refine (other_entries_are_passed_over Scenario.E_large 1
            ["photos"; "notes.txt"]%string Scenario.src_root Scenario.dst_root
            Fake.default_args ∅ _ _).
  right. repeat split.
  - apply not_elem_of_empty.
  - intros H. apply list_elem_of_In in H. vm_compute in H. intuition discriminate.
  - intros H. apply list_elem_of_In in H. vm_compute in H. intuition discriminate.
Defined.

(** ** The extensions given to [--copy] *)

Section CopyExtensions.

Lemma ascii_lower_idem c : Pathlib.ascii_lower (Pathlib.ascii_lower c) = Pathlib.ascii_lower c.
Proof. destruct c as [[] [] [] [] [] [] [] []]; reflexivity. Qed.

Lemma is_space_lower c : Str.is_space (Pathlib.ascii_lower c) = Str.is_space c.
Proof. destruct c as [[] [] [] [] [] [] [] []]; reflexivity. Qed.

Lemma dot_lower c :
  Ascii.eqb (Pathlib.ascii_lower c) "."%char = Ascii.eqb c "."%char.
Proof. destruct c as [[] [] [] [] [] [] [] []]; reflexivity. Qed.

Lemma lower_idem s : Pathlib.lower (Pathlib.lower s) = Pathlib.lower s.
Proof.
  induction s as [| c s IH]; [reflexivity |]. cbn. rewrite ascii_lower_idem, IH.
  reflexivity.
Qed.

Lemma lstrip_lower s : Str.lstrip (Pathlib.lower s) = Pathlib.lower (Str.lstrip s).
Proof.
  induction s as [| c s IH]; [reflexivity |]. cbn. rewrite is_space_lower.
  destruct (Str.is_space c); [exact IH | reflexivity].
Qed.

Lemma rstrip_lower s : Str.rstrip (Pathlib.lower s) = Pathlib.lower (Str.rstrip s).
Proof.
  induction s as [| c s IH]; [reflexivity |]. cbn. rewrite IH, is_space_lower.
  destruct (Str.rstrip s); cbn; [destruct (Str.is_space c) |]; reflexivity.
Qed.

Lemma rstrip_cons c r :
  Str.rstrip (String c r)
  = match Str.rstrip r with
    | EmptyString => if Str.is_space c then EmptyString else String c EmptyString
    | r' => String c r'
    end.
Proof. reflexivity. Qed.

Lemma rstrip_idem s : Str.rstrip (Str.rstrip s) = Str.rstrip s.
Proof.
  induction s as [| c s IH]; [reflexivity |]. rewrite rstrip_cons.
  destruct (Str.rstrip s) as [| c' r'] eqn:Hr.
  - destruct (Str.is_space c) eqn:Hc; [reflexivity |].
    rewrite rstrip_cons. cbn [Str.rstrip]. rewrite Hc. reflexivity.
  - rewrite rstrip_cons, IH. reflexivity.
Qed.

(** Stripping on the right keeps a first character that is not white
    space. *)
Lemma rstrip_head c s :
  Str.is_space c = false ->
  exists r, Str.rstrip (String c s) = String c r.
Proof.
  intros Hc. cbn. destruct (Str.rstrip s); [rewrite Hc |]; eexists; reflexivity.
Qed.

Lemma lstrip_head s :
  Str.lstrip s = EmptyString
  \/ exists c r, Str.lstrip s = String c r /\ Str.is_space c = false.
Proof.
  induction s as [| c s IH]; [left; reflexivity |]. cbn.
  destruct (Str.is_space c) eqn:Hc; [exact IH |]. right. eauto.
Qed.

Lemma lstrip_strip s : Str.lstrip (Str.strip s) = Str.strip s.
Proof.
  unfold Str.strip. destruct (lstrip_head s) as [-> | (c & r & -> & Hc)];
    [reflexivity |].
  destruct (rstrip_head c r Hc) as (r' & ->). cbn. rewrite Hc. reflexivity.
Qed.

Lemma strip_idem s : Str.strip (Str.strip s) = Str.strip s.
Proof.
  unfold Str.strip at 1. rewrite lstrip_strip. unfold Str.strip. apply rstrip_idem.
Qed.

Lemma strip_lower s : Str.strip (Pathlib.lower s) = Pathlib.lower (Str.strip s).
Proof. unfold Str.strip. rewrite lstrip_lower, rstrip_lower. reflexivity. Qed.

Lemma starts_with_dot_lower s :
  Str.starts_with_dot (Pathlib.lower s) = Str.starts_with_dot s.
Proof. destruct s as [| c s]; [reflexivity |]. cbn. apply dot_lower. Qed.

Lemma strip_dotted s :
  Str.strip s = s -> Str.strip (String "."%char s) = String "."%char s.
Proof.
  intros Hs. unfold Str.strip. cbn [Str.lstrip].
  change (Str.is_space "."%char) with false. cbn iota.
  assert (Hr : Str.rstrip s = s).
  { rewrite <- Hs at 1. unfold Str.strip. rewrite rstrip_idem. exact Hs. }
  cbn [Str.rstrip]. rewrite Hr. destruct s; reflexivity.
Qed.

Lemma normalize_copy_ext_cases ext :
  let t := Pathlib.lower (Str.strip ext) in
  Str.strip t = t /\ Pathlib.lower t = t
  /\ normalize_copy_ext ext
     = (if Str.starts_with_dot t then t else String "."%char t).
Proof.
  cbv zeta. split; [rewrite strip_lower, strip_idem; reflexivity |].
  split; [apply lower_idem |].
  unfold normalize_copy_ext. destruct (Str.starts_with_dot _); reflexivity.
Qed.

End CopyExtensions.

(** An extension given to [--copy] (lines 371-373; ASCII text) is
    normalised to lower case with one leading dot: the result always starts
    with a dot, has no white space around it, and normalising it again
    changes nothing, so [PNG], [ png ] and [.png] name the same extension. *)
Theorem copy_extension_is_normalised (ext : string) :
  Str.isascii ext = true ->
  Str.starts_with_dot (normalize_copy_ext ext) = true
  /\ Str.strip (normalize_copy_ext ext) = normalize_copy_ext ext
  /\ Pathlib.lower (normalize_copy_ext ext) = normalize_copy_ext ext
  /\ normalize_copy_ext (normalize_copy_ext ext) = normalize_copy_ext ext.
Proof.
  intros _.
  destruct (normalize_copy_ext_cases ext) as (Hs & Hl & Hn). cbv zeta in *.
  set (t := Pathlib.lower (Str.strip ext)) in *.
  assert (Hdot : Str.starts_with_dot (normalize_copy_ext ext) = true).
  { rewrite Hn. destruct (Str.starts_with_dot t) eqn:Hd; [exact Hd | reflexivity]. }
  assert (Hstrip : Str.strip (normalize_copy_ext ext) = normalize_copy_ext ext).
  { rewrite Hn. destruct (Str.starts_with_dot t); [exact Hs |].
    apply strip_dotted. exact Hs. }
  assert (Hlow : Pathlib.lower (normalize_copy_ext ext) = normalize_copy_ext ext).
  { rewrite Hn. destruct (Str.starts_with_dot t); [exact Hl |].
    cbn [Pathlib.lower]. rewrite Hl. reflexivity. }
  split; [exact Hdot |]. split; [exact Hstrip |]. split; [exact Hlow |].
  unfold normalize_copy_ext at 1. rewrite Hstrip, Hlow, Hdot. reflexivity.
Qed.

Lemma copy_extension_is_normalised_witness :
  Str.isascii " PNG "%string = true
  /\ normalize_copy_ext " PNG "%string = ".png"%string
  /\ normalize_copy_ext (normalize_copy_ext " PNG "%string)
     = normalize_copy_ext " PNG "%string.
Proof.
  split; [reflexivity |]. split; [reflexivity |].
  apply (copy_extension_is_normalised " PNG "%string). reflexivity.
Defined.
